(** * BlenderSynth: the render-session coordinator

    A shallow embedding of [blendersynth/run/blender_threading.py]:
    the job splitter [list_split], the per-lane supervisor [BlenderThread]
    and the session coordinator [BlenderThreadManager], together with the
    properties of the job partition, of the lane state machine, of the
    stall detector, of the polling loop and of the report writer. *)

From Stdlib Require Import ZArith QArith Lia Lqa.
From Stdlib Require Floats.
From stdpp Require Import base list strings gmap pretty.

Open Scope nat_scope.

(** ** Python exceptions raised by the modelled code *)

Inductive exn :=
  | ValueError            (* numpy: 'number sections must be larger than 0.' *)
  | ZeroDivisionError     (* division by zero *)
  | IndexError            (* list index out of range *)
  | TypeError             (* open(None, "r") *)
  | AttributeError        (* method call on None *)
  | UnsupportedOperation. (* iterating over a write-only stream *)

(** ** What the coordinator observes but does not control

    The coordinator talks to the outside through a handful of calls
    ([Popen], [poll], [perf_counter], [datetime.now], reading a log,
    listing a directory).  Each such call happens at its own logical
    instant; the record below says what the outside answers at each
    instant.  Clock readings are floats in the source; every float is a
    rational, and a reading is modelled as the rational it is.  The
    arithmetic of the code on readings is the float one, with its
    rounding ([float_sub] and the like, below).  The last four fields are
    the platform's path joining and the text formatting of Python's
    library. *)

Record Env := mkEnv {
  (** for the process with the given pid: how many instants after its
      [Popen] it exits; [None] when it never exits *)
  proc_life : nat -> option nat;
  (** for the process with the given pid: how many instants after a call
      of [kill()] has returned [poll()] first sees the process as exited *)
  kill_lag : nat -> nat;
  (** [time.perf_counter()], in seconds *)
  perf : nat -> Q;
  (** [datetime.now()], as seconds since the epoch *)
  wall : nat -> Q;
  (** the lines of a log file *)
  log_lines : nat -> string -> list string;
  (** [os.listdir] *)
  dir_entries : nat -> string -> list string;
  (** [os.path.join] *)
  path_join : list string -> string;
  (** [datetime.strftime(format)] *)
  strftime : string -> Q -> string;
  (** [str(timedelta(seconds=round(x)))] *)
  str_timedelta : Q -> string;
  (** [f"{x:.2f}"] *)
  str_2f : Q -> string
}.

(** ** Concrete worker behaviours used in the examples *)

(** Time advances one second per instant; logs stay empty. *)
Definition quiet_env (life : nat -> option nat) : Env :=
  {| proc_life := life;
     kill_lag := fun _ => 2;
     perf := fun i => inject_Z (Z.of_nat i);
     wall := fun i => inject_Z (Z.of_nat i);
     log_lines := fun _ _ => [];
     dir_entries := fun _ _ => [];
     path_join := String.concat "/";
     strftime := fun _ _ => "";
     str_timedelta := fun _ => "";
     str_2f := fun _ => "" |}.

(** Every worker exits the moment it is started. *)
Definition crash_env : Env := quiet_env (fun _ => Some 0).

(** Workers never exit and never log a completed render. *)
Definition stalled_env : Env := quiet_env (fun _ => None).

(** Workers run for 15 instants. *)
Definition steady_env : Env := quiet_env (fun _ => Some 15).

(** Workers run for 20 instants. *)
Definition slow_env : Env := quiet_env (fun _ => Some 20).

(** An output directory that still holds the second report of earlier
    sessions (the first one was removed). *)
Definition reused_dir_env : Env :=
  {| proc_life := fun _ => Some 20;
     kill_lag := fun _ => 2;
     perf := fun i => inject_Z (Z.of_nat i);
     wall := fun i => inject_Z (Z.of_nat i);
     log_lines := fun _ _ => [];
     dir_entries := fun _ _ => ["report_01.txt"%string];
     path_join := String.concat "/";
     strftime := fun _ _ => "";
     str_timedelta := fun _ => "";
     str_2f := fun _ => "" |}.

(** Workers that have logged three completed renders. *)
Definition busy_env : Env :=
  {| proc_life := fun _ => Some 20;
     kill_lag := fun _ => 2;
     perf := fun i => inject_Z (Z.of_nat i);
     wall := fun i => inject_Z (Z.of_nat i);
     log_lines := fun _ _ => ["DONE 1"; "DONE 2"; "warning"; "DONE 3"]%string;
     dir_entries := fun _ _ => [];
     path_join := String.concat "/";
     strftime := fun _ _ => "";
     str_timedelta := fun _ => "";
     str_2f := fun _ => "" |}.

(** ** Float arithmetic

    A Python float is a binary64 number.  [float_of_Q] is the float a
    reading stands for (for a rational that is no float, a float next to
    it) and [Q_of_float] the value of a finite float; the operations of
    the code on readings are those of the floats, rounding included.  An
    integer operand is converted to a float first, as Python does.  An
    infinity or a NaN, which no operation on clock readings yields, is
    given the value 0. *)

Definition float_of_Z (z : Z) : PrimFloat.float :=
  FloatOps.SF2Prim (SpecFloat.binary_normalize FloatOps.prec FloatOps.emax z 0 false).

Definition float_of_Q (q : Q) : PrimFloat.float :=
  PrimFloat.div (float_of_Z (Qnum q)) (float_of_Z (Z.pos (Qden q))).

Definition Q_of_float (f : PrimFloat.float) : Q :=
  match FloatOps.Prim2SF f with
  | SpecFloat.S754_finite s m e =>
      let n := if s then Z.neg m else Z.pos m in
      Qred (if (0 <=? e)%Z then inject_Z (n * 2 ^ e) else n # (2 ^ Z.to_pos (- e)))
  | _ => 0%Q
  end.

(** [x - y], [x * y] and [x / y] on floats; the divisor is not zero. *)
Definition float_sub (x y : Q) : Q :=
  Q_of_float (PrimFloat.sub (float_of_Q x) (float_of_Q y)).

Definition float_mul (x y : Q) : Q :=
  Q_of_float (PrimFloat.mul (float_of_Q x) (float_of_Q y)).

Definition float_div (x y : Q) : Q :=
  Q_of_float (PrimFloat.div (float_of_Q x) (float_of_Q y)).

(** The floats nearest to 0.1 and to 100.1. *)
Definition float_0_1 : Q := 3602879701896397 # 36028797018963968.
Definition float_100_1 : Q := 3521955646092083 # 35184372088832.

(** Workers never exit and never log; the clock reads 0.1 at instant 0
    and 100.1 from then on. *)
Definition rounding_env : Env :=
  {| proc_life := fun _ => None;
     kill_lag := fun _ => 2;
     perf := fun i => if i =? 0 then float_0_1 else float_100_1;
     wall := fun i => inject_Z (Z.of_nat i);
     log_lines := fun _ _ => [];
     dir_entries := fun _ _ => [];
     path_join := String.concat "/";
     strftime := fun _ _ => "";
     str_timedelta := fun _ => "";
     str_2f := fun _ => "" |}.

(** ** numpy's conversion of a job list

    [np.array_split] first makes one array of the list it is given, and
    [list_split] returns the elements of that array, not those of the
    list: numpy picks one element type for the whole list and stores
    every element in it.  A list of path strings is stored as it is; a
    number next to a string is stored as its text.  [np_store l x] is the
    value numpy stores for the element [x] of the list [l].  Jobs are
    scalars to numpy (paths, numbers), so the array has one axis and the
    length of the list; a job list that numpy cannot store in an array
    (sequences of different lengths) is not a job list of this model. *)

Class Numpy (A : Type) := np_store : list A -> A -> A.

(** Frame numbers, as in the examples: numpy stores small integers as
    they are. *)
#[export] Instance nat_numpy : Numpy nat := fun _ x => x.

(** Job descriptors of two kinds in one list: a frame number (within the
    range of [int64]) or a path.  When the list holds a string numpy
    makes an array of strings, and stores a number as its decimal
    text. *)
Inductive pyjob :=
  | JInt (n : Z)
  | JStr (s : string).

Definition is_JStr (x : pyjob) : bool :=
  match x with JStr _ => true | JInt _ => false end.

#[export] Instance pyjob_numpy : Numpy pyjob :=
  fun l x =>
    if existsb is_JStr l then
      match x with JInt n => JStr (pretty n) | JStr s => JStr s end
    else x.

(** A command object whose invocation is the batch itself. *)
Definition batch_as_argv (_ : unit) (batch : list nat) : list nat := batch.

Definition nl : string := String (Ascii.ascii_of_nat 10) EmptyString.

Section Coordinator.

(** [Job] is a job descriptor: the coordinator never looks into one, but
    it splits job lists with numpy, and the instance of [Numpy] says how
    numpy stores the descriptors.  [Command] is the command object handed
    to the manager, and [set_job] its method binding a batch of jobs into
    the argument list of one process invocation.  [LOG_PREPEND] is the
    marker that starts a log line reporting a completed render; it is
    imported from [blender_interface]. *)
Context {Job Command Invocation : Type} `{!Numpy Job}.
Variable set_job : Command -> list Job -> Invocation.
Variable LOG_PREPEND : string.
Variable E : Env.

(** ** numpy.array_split and list_split

    [np.array_split(ary, n)] for an integer [n]: [ValueError] when
    [n <= 0]; otherwise [divmod(len, n)] gives [Neach_section] and
    [extras], the section sizes are [extras] times [Neach_section + 1]
    followed by [n - extras] times [Neach_section], the division points are
    the cumulative sums of [[0] + sizes] and section [i] is the slice
    [sary[div_points[i] : div_points[i+1]]] of the array [sary] that
    numpy makes of [ary]; [Ntotal] is the length of [ary] itself. *)

Fixpoint cumsum_from (acc : nat) (l : list nat) : list nat :=
  match l with
  | [] => []
  | x :: r => (acc + x) :: cumsum_from (acc + x) r
  end.

Definition cumsum : list nat -> list nat := cumsum_from 0.

(** Python slice [l[st:en]] for [0 <= st], [0 <= en]. *)
Definition slice {A} (st en : nat) (l : list A) : list A :=
  take (en - st) (drop st l).

Definition section_sizes (Ntotal Nsections : nat) : list nat :=
  let Neach_section := Nat.div Ntotal Nsections in
  let extras := Nat.modulo Ntotal Nsections in
  replicate extras (Neach_section + 1)
    ++ replicate (Nsections - extras) Neach_section.

(** The elements of the array numpy makes of a list. *)
Definition asarray {A} `{!Numpy A} (l : list A) : list A := np_store l <$> l.

(** numpy stores the elements of the list as they are given. *)
Definition stored_unchanged {A} `{!Numpy A} (l : list A) : Prop := asarray l = l.

Definition array_split {A} `{!Numpy A} (ary : list A) (indices_or_sections : Z)
  : exn + list (list A) :=
  let Ntotal := length ary in
  if (indices_or_sections <=? 0)%Z then inl ValueError
  else
    let Nsections := Z.to_nat indices_or_sections in
    let div_points := cumsum (0 :: section_sizes Ntotal Nsections) in
    let sary := asarray ary in
    inr ((fun i => slice (nth i div_points 0) (nth (S i) div_points 0) sary)
           <$> seq 0 Nsections).

(** [def list_split(list, chunks)]: every section unpacked back into a
    list, [[ [*x] for x in np.array_split(list, chunks) ]]; the lists hold
    the elements of numpy's array. *)
Definition list_split {A} `{!Numpy A} (l : list A) (chunks : Z) : exn + list (list A) :=
  match array_split l chunks with
  | inl e => inl e
  | inr sub_arrays => inr ((fun x => x) <$> sub_arrays)
  end.

(** [np.ceil(len(jobs) / MAX_PER_JOB)] for a non-zero divisor.  The
    true division yields a float; for list lengths below 2^53 the
    ceiling of the rounded quotient is the ceiling of the exact one,
    which is what is computed here. *)
Definition np_ceil_div (n : nat) (m : Z) : Z :=
  (- ((- Z.of_nat n) / m))%Z.

(** Line 23 of [BlenderThread.__init__]:
    [list_split(jobs, np.ceil(len(jobs)/MAX_PER_JOB))]; the division
    raises when [MAX_PER_JOB] is zero. *)
Definition split_into_batches {A} `{!Numpy A} (jobs : list A) (MAX_PER_JOB : Z)
  : exn + list (list A) :=
  if (MAX_PER_JOB =? 0)%Z then inl ZeroDivisionError
  else list_split jobs (np_ceil_div (length jobs) MAX_PER_JOB).

(** Python indexing [l[i]], negative indices counting from the end. *)
Definition py_index {A} (l : list A) (i : Z) : option A :=
  if (0 <=? i)%Z then l !! Z.to_nat i
  else if (- Z.of_nat (length l) <=? i)%Z then l !! Z.to_nat (Z.of_nat (length l) + i)
  else None.

(** ** Processes, files and the console *)

(** One entry per process ever started; its index in the table is its
    pid.  [p_owner] is a ghost label: the name of the [BlenderThread] that
    started the process.  [p_stdout] is the file receiving the output,
    [None] for the console.  The process is alive from instant [born] up
    to, and excluding, instant [dies]. *)
Record Proc := mkProc {
  p_owner : string;
  p_argv : Invocation;
  p_stdout : option string;
  born : nat;
  dies : option nat
}.

Record World := mkWorld {
  instant : nat;
  procs : list Proc;
  kills : list nat;
  files : gmap string string;
  console : list string
}.

Definition live_at (p : Proc) (t : nat) : Prop :=
  born p <= t /\ match dies p with Some d => t < d | None => True end.

(** ** The monad of coordinator code: world passing with exceptions.
    [Spin] is the outcome of a loop that is still running when the fuel
    given to it runs out. *)

Inductive Res (A : Type) :=
  | Ok (a : A) (w : World)
  | Raise (e : exn) (w : World)
  | Spin (w : World).
Arguments Ok {A} a w.
Arguments Raise {A} e w.
Arguments Spin {A} w.

Definition M (A : Type) : Type := World -> Res A.

Definition ret {A} (a : A) : M A := fun w => Ok a w.

Definition bind {A B} (m : M A) (k : A -> M B) : M B :=
  fun w =>
    match m w with
    | Ok a w' => k a w'
    | Raise e w' => Raise e w'
    | Spin w' => Spin w'
    end.

Definition raise {A} (e : exn) : M A := fun w => Raise e w.

Notation "'let*' x ':=' m 'in' k" := (bind m (fun x => k))
  (at level 10, x pattern, m at level 100, k at level 200).

Definition world_of {A} (r : Res A) : World :=
  match r with Ok _ w | Raise _ w | Spin w => w end.

Definition next_instant (w : World) : World :=
  {| instant := S (instant w); procs := procs w; kills := kills w;
     files := files w; console := console w |}.

Definition tick : M unit := fun w => Ok tt (next_instant w).

Definition perf_counter : M Q := fun w => Ok (perf E (instant w)) (next_instant w).

Definition datetime_now : M Q := fun w => Ok (wall E (instant w)) (next_instant w).

Definition sleep (secs : Q) : M unit := tick.

Definition readlines (loc : string) : M (list string) :=
  fun w => Ok (log_lines E (instant w) loc) (next_instant w).

Definition listdir (dir : string) : M (list string) :=
  fun w => Ok (dir_entries E (instant w) dir) (next_instant w).

Definition makedirs (dir : string) : M unit := tick.

(** [open(loc, "a")]: the handle is identified with the path. *)
Definition open_append (loc : string) : M string :=
  fun w => Ok loc (next_instant w).

Definition print (line : string) : M unit :=
  fun w => Ok tt {| instant := S (instant w); procs := procs w; kills := kills w;
                    files := files w; console := console w ++ [line] |}.

(** [with open(loc, 'w') as outfile: outfile.writelines(lines)]: the file
    is created or truncated, then the lines are written one after the
    other. *)
Definition write_file (loc : string) (lines : list string) : M unit :=
  fun w => Ok tt {| instant := S (instant w); procs := procs w; kills := kills w;
                    files := <[loc := String.concat "" lines]> (files w);
                    console := console w |}.

(** Has the process exited by the current instant? *)
Definition exited (w : World) (pid : nat) : bool :=
  match procs w !! pid with
  | Some p => match dies p with
              | Some d => bool_decide (d <= instant w)
              | None => false
              end
  | None => true
  end.

(** [process.poll() is None] *)
Definition poll_is_None (pid : nat) : M bool :=
  fun w => Ok (negb (exited w pid)) (next_instant w).

(** [Popen(argv, stdout=out, stderr=out)]: returns at once with the new
    process's handle. *)
Definition Popen (owner : string) (argv : Invocation) (out : option string) : M nat :=
  fun w =>
    let pid := length (procs w) in
    Ok pid {| instant := S (instant w);
              procs := procs w ++ [ {| p_owner := owner; p_argv := argv; p_stdout := out;
                                       born := instant w;
                                       dies := (fun d => instant w + d) <$> proc_life E pid |} ];
              kills := kills w; files := files w; console := console w |}.

(** A process that has been sent SIGKILL is seen as exited from instant
    [t] on, unless it exits earlier by itself. *)
Definition killed_by (t : nat) (p : Proc) : Proc :=
  {| p_owner := p_owner p; p_argv := p_argv p; p_stdout := p_stdout p; born := born p;
     dies := match dies p with
             | Some d => Some (Nat.min d t)
             | None => Some t
             end |}.

(** [process.kill()] sends SIGKILL and returns at once; the process dies,
    and [poll()] sees it, only later: [kill_lag] instants after the
    call has returned. *)
Definition Popen_kill (pid : nat) : M unit :=
  fun w => Ok tt {| instant := S (instant w);
                    procs := alter (killed_by (S (instant w) + kill_lag E pid)) pid (procs w);
                    kills := kills w ++ [pid];
                    files := files w; console := console w |}.

(** Progress bars ([tqdm]): only what the coordinator stores in them. *)
Record PBar := mkPBar { pb_total : nat; pb_n : nat; pb_desc : string }.

Definition tqdm (total initial : nat) : M PBar :=
  fun w => Ok {| pb_total := total; pb_n := initial; pb_desc := "" |} (next_instant w).

Definition pb_set_n (n : nat) (p : PBar) : PBar :=
  {| pb_total := pb_total p; pb_n := n; pb_desc := pb_desc p |}.

Definition pb_set_description (desc : string) (p : PBar) : M PBar :=
  fun w => Ok {| pb_total := pb_total p; pb_n := pb_n p; pb_desc := desc |} (next_instant w).

Definition pb_refresh (p : PBar) : M unit := tick.

(** Leaving [with tqdm(...) as pbar:] closes the bar. *)
Definition pb_close (p : PBar) : M unit := tick.

(** ** class BlenderThread

    [lane_size] is the field [size]; the field [logfile] is the handle of
    [log_loc] and is not stored separately. *)

Record BlenderThread := mkThread {
  command : Command;
  jobs : list (list Job);
  njobs : nat;
  lane_size : nat;
  timeout : Q;
  prev_n : nat;
  timer : Q;
  to_stdout : bool;
  log_loc : option string;
  process : option nat;
  job : Z;
  finished : bool;
  name : string;
  status : string
}.

Definition with_progress (n : nat) (t : Q) (th : BlenderThread) : BlenderThread :=
  {| command := command th; jobs := jobs th; njobs := njobs th; lane_size := lane_size th;
     timeout := timeout th; prev_n := n; timer := t; to_stdout := to_stdout th;
     log_loc := log_loc th; process := process th; job := job th;
     finished := finished th; name := name th; status := status th |}.

Definition with_process (pid : nat) (th : BlenderThread) : BlenderThread :=
  {| command := command th; jobs := jobs th; njobs := njobs th; lane_size := lane_size th;
     timeout := timeout th; prev_n := prev_n th; timer := timer th; to_stdout := to_stdout th;
     log_loc := log_loc th; process := Some pid; job := job th;
     finished := finished th; name := name th; status := status th |}.

Definition with_job (j : Z) (th : BlenderThread) : BlenderThread :=
  {| command := command th; jobs := jobs th; njobs := njobs th; lane_size := lane_size th;
     timeout := timeout th; prev_n := prev_n th; timer := timer th; to_stdout := to_stdout th;
     log_loc := log_loc th; process := process th; job := j;
     finished := finished th; name := name th; status := status th |}.

Definition with_finished (th : BlenderThread) : BlenderThread :=
  {| command := command th; jobs := jobs th; njobs := njobs th; lane_size := lane_size th;
     timeout := timeout th; prev_n := prev_n th; timer := timer th; to_stdout := to_stdout th;
     log_loc := log_loc th; process := process th; job := job th;
     finished := true; name := name th; status := status th |}.

Definition with_status (s : string) (th : BlenderThread) : BlenderThread :=
  {| command := command th; jobs := jobs th; njobs := njobs th; lane_size := lane_size th;
     timeout := timeout th; prev_n := prev_n th; timer := timer th; to_stdout := to_stdout th;
     log_loc := log_loc th; process := process th; job := job th;
     finished := finished th; name := name th; status := s |}.

Definition BlenderThread__init__ (command0 : Command) (jobs0 : list Job)
    (log_loc0 : option string) (name0 : string) (timeout0 : Q) (to_stdout0 : bool)
    (MAX_PER_JOB : Z) : M BlenderThread :=
  match split_into_batches jobs0 MAX_PER_JOB with
  | inl e => raise e
  | inr batches =>
      let* now := perf_counter in
      let* loc :=
        match to_stdout0, log_loc0 with
        | false, Some l => let* h := open_append l in ret (Some h)
        | _, _ => ret None
        end in
      ret {| command := command0; jobs := batches; njobs := length batches;
             lane_size := length jobs0; timeout := timeout0; prev_n := 0; timer := now;
             to_stdout := to_stdout0; log_loc := loc; process := None; job := (-1)%Z;
             finished := false; name := name0;
             status := "STARTED THREAD " +:+ name0 |}
  end.

(** [is_running]: [if self.process: return self.process.poll() is None];
    a [Popen] object is always truthy. *)
Definition is_running (th : BlenderThread) : M bool :=
  match process th with
  | Some pid => poll_is_None pid
  | None => ret false
  end.

Definition start_job (th : BlenderThread) (job0 : Z) : M BlenderThread :=
  match py_index (jobs th) job0 with
  | None => raise IndexError
  | Some job_list =>
      let argv := set_job (command th) job_list in
      let out := if to_stdout th then None else log_loc th in
      let* pid := Popen (name th) argv out in
      ret (with_process pid th)
  end.

Definition check_in (th : BlenderThread) : M BlenderThread :=
  let* running := is_running th in
  if running then ret th
  else
    let th := with_job (job th + 1)%Z th in
    if (Z.of_nat (njobs th) <=? job th)%Z then
      ret (with_status ("✓ THREAD " +:+ name th +:+ " COMPLETED.") (with_finished th))
    else
      let th := with_status ("THREAD " +:+ name th +:+ " RUNNING JOB "
                               +:+ pretty (job th + 1)%Z +:+ "/" +:+ pretty (njobs th)
                               +:+ "...") th in
      start_job th (job th).

Definition terminate (th : BlenderThread) : M unit :=
  match process th with
  | Some pid => Popen_kill pid
  | None => raise AttributeError
  end.

Definition BlenderThread__len__ (th : BlenderThread) : nat := lane_size th.

(** [num_rendered]: the number of log lines starting with [LOG_PREPEND].
    With [to_stdout] the reader is [sys.stdout], which cannot be read. *)
Definition num_rendered (th : BlenderThread) : M nat :=
  match process th with
  | None => ret 0
  | Some _ =>
      if to_stdout th then raise UnsupportedOperation
      else match log_loc th with
           | None => raise TypeError
           | Some loc =>
               let* reader := readlines loc in
               ret (foldl (fun x line => if String.prefix LOG_PREPEND line then x + 1 else x)
                          0 reader)
           end
  end.

Definition success (th : BlenderThread) : M bool :=
  let* n := num_rendered th in
  ret (n =? lane_size th).

(** [check_status]: the flag returned, and the thread with its stall
    timer updated.  The difference of the two readings is a float; it is
    compared with [timeout] (an integer by default) by value. *)
Definition check_status (th : BlenderThread) : M (bool * BlenderThread) :=
  let* n := num_rendered th in
  if prev_n th <? n then
    let* now := perf_counter in
    ret (true, with_progress n now th)
  else
    let* now := perf_counter in
    if Qle_bool (timeout th) (float_sub now (timer th)) then ret (false, th)
    else ret (true, th).

(** ** class BlenderThreadManager *)

Record BlenderThreadManager := mkManager {
  num_threads : nat;
  m_command : Command;
  log_locs : list string;
  report_loc : string;
  t0 : Q;
  session_start : option Q;
  threads : list BlenderThread
}.

Definition with_threads (ths : list BlenderThread) (m : BlenderThreadManager)
  : BlenderThreadManager :=
  {| num_threads := num_threads m; m_command := m_command m; log_locs := log_locs m;
     report_loc := report_loc m; t0 := t0 m; session_start := session_start m;
     threads := ths |}.

Definition with_session (t : Q) (d : Q) (m : BlenderThreadManager)
  : BlenderThreadManager :=
  {| num_threads := num_threads m; m_command := m_command m; log_locs := log_locs m;
     report_loc := report_loc m; t0 := t; session_start := Some d;
     threads := threads m |}.

(** [f"{i:02d}"] *)
Definition fmt_02d (i : nat) : string :=
  let s := pretty i in
  if String.length s <? 2 then "0" +:+ s else s.

(** ['report' in f] *)
Definition mentions_report (f : string) : bool :=
  match String.index 0 "report" f with Some _ => true | None => false end.

(** The loop [for i in range(self.num_threads)] of the constructor, from
    index [i] on; [logs] is never [None] there. *)
Fixpoint make_threads (command0 : Command) (jsons : list (list Job)) (logs : list string)
    (print_to_stdout : bool) (MAX_PER_JOB : Z) (i : nat) (count : nat)
  : M (list BlenderThread) :=
  match count with
  | 0 => ret []
  | S count' =>
      match jsons !! i, logs !! i with
      | Some jobs_i, Some log_i =>
          let* thread := BlenderThread__init__ command0 jobs_i (Some log_i) (pretty i)
                           100 print_to_stdout MAX_PER_JOB in
          let* rest := make_threads command0 jsons logs print_to_stdout MAX_PER_JOB
                         (S i) count' in
          ret (thread :: rest)
      | _, _ => raise IndexError
      end
  end.

Definition BlenderThreadManager__init__ (command0 : Command) (jsons : list (list Job))
    (output_directory : string) (print_to_stdout : bool) (MAX_PER_JOB : Z)
  : M BlenderThreadManager :=
  let num_threads0 := length jsons in
  let* now := datetime_now in
  let session_name := strftime E "%y%m%d-%H%M%S" now in
  let log_dir := path_join E [output_directory; "logs"; session_name] in
  let* _ := makedirs log_dir in
  let logs := (fun i => path_join E [log_dir; "log_" +:+ fmt_02d i +:+ ".txt"])
                <$> seq 0 num_threads0 in
  let* entries := listdir output_directory in
  let report_fname :=
    "report_" +:+ fmt_02d (length (filter (fun f => mentions_report f = true) entries))
              +:+ ".txt" in
  let* ths := make_threads command0 jsons logs print_to_stdout MAX_PER_JOB 0 num_threads0 in
  ret {| num_threads := num_threads0; m_command := command0; log_locs := logs;
         report_loc := path_join E [output_directory; report_fname];
         t0 := 0; session_start := None; threads := ths |}.

Definition BlenderThreadManager__len__ (m : BlenderThreadManager) : nat :=
  sum_list (BlenderThread__len__ <$> threads m).

(** [sum(t.num_rendered for t in self.threads)] *)
Fixpoint sum_num_rendered (ths : list BlenderThread) : M nat :=
  match ths with
  | [] => ret 0
  | t :: rest =>
      let* n := num_rendered t in
      let* s := sum_num_rendered rest in
      ret (n + s)
  end.

Definition manager_num_rendered (m : BlenderThreadManager) : M nat :=
  sum_num_rendered (threads m).

(** [update_report]; [self.num_rendered] is read afresh at each of its
    five occurrences. *)
Definition update_report (m : BlenderThreadManager) : M unit :=
  let* t1 := perf_counter in
  let elapsed := float_sub t1 (t0 m) in
  let* n := manager_num_rendered m in
  let* report :=
    if 0 <? n then
      let* n1 := manager_num_rendered m in
      let* n2 := manager_num_rendered m in
      if n2 =? 0 then raise ZeroDivisionError else
      let s_remaining :=
        float_mul (inject_Z (Z.of_nat (BlenderThreadManager__len__ m) - Z.of_nat n1))
                  (float_div elapsed (inject_Z (Z.of_nat n2))) in
      let* now := datetime_now in
      let eta := (now + s_remaining)%Q in
      let* n3 := manager_num_rendered m in
      let* n4 := manager_num_rendered m in
      if n4 =? 0 then raise ZeroDivisionError else
      match session_start m with
      | None => raise AttributeError
      | Some started =>
          ret [ "Number of images rendered: " +:+ pretty n3 +:+ nl;
                "Total session quota: " +:+ pretty (BlenderThreadManager__len__ m) +:+ nl;
                "Time elapsed: " +:+ str_timedelta E elapsed +:+ nl;
                "Time per render (s): "
                   +:+ str_2f E (float_div elapsed (inject_Z (Z.of_nat n4)))
                   +:+ nl +:+ nl;
                "Session start: " +:+ strftime E "%I:%M %p %d/%m/%y" started +:+ nl
                   +:+ "Estimated End: " +:+ strftime E "%I:%M %p %d/%m/%y" eta ]
      end
    else ret [] in
  write_file (report_loc m) report.

(** [any(t.is_running for t in self.threads)]: stops at the first thread
    that is running. *)
Fixpoint any_running (ths : list BlenderThread) : M bool :=
  match ths with
  | [] => ret false
  | t :: rest =>
      let* b := is_running t in
      if b then ret true else any_running rest
  end.

(** The body of [for t, thread in enumerate(self.threads)] for one
    thread. *)
Definition supervise (t : nat) (thread : BlenderThread) (pbars : list PBar)
  : M (BlenderThread * list PBar) :=
  if finished thread then ret (thread, pbars)
  else
    let* thread := check_in thread in
    let* ok := success thread in
    let* (thread, pbars) :=
      if ok then
        let* n := num_rendered thread in
        ret (thread, alter (pb_set_n n) t pbars)
      else
        let* (thread_running, thread) := check_status thread in
        if thread_running then
          let* n := num_rendered thread in
          ret (thread, alter (pb_set_n n) t pbars)
        else
          let* _ := print "CANNOT DEAL WITH FAILED THREADS YET" in
          ret (thread, pbars) in
    match pbars !! t with
    | None => raise IndexError
    | Some p =>
        let* p := pb_set_description (status thread) p in
        ret (thread, <[t := p]> pbars)
    end.

Fixpoint supervise_all (t : nat) (ths : list BlenderThread) (pbars : list PBar)
  : M (list BlenderThread * list PBar) :=
  match ths with
  | [] => ret ([], pbars)
  | thread :: rest =>
      let* (thread, pbars) := supervise t thread pbars in
      let* (rest, pbars) := supervise_all (S t) rest pbars in
      ret (thread :: rest, pbars)
  end.

(** The state of the polling loop: the manager, [last_report_time], the
    per-thread bars and the session bar. *)
Record Loop := mkLoop {
  l_self : BlenderThreadManager;
  last_report_time : Q;
  l_pbars : list PBar;
  l_pbar : PBar
}.

(** One pass through the body of the [while] loop. *)
Definition loop_body (tick0 report_every : Q) (st : Loop) : M Loop :=
  let self := l_self st in
  let* _ := sleep tick0 in
  let* rendered_images := manager_num_rendered self in
  let desc := "Session rendering..." +:+ " [Dataset: " +:+ pretty rendered_images +:+ "/"
                +:+ pretty (BlenderThreadManager__len__ self) +:+ "]" in
  let* pbar := pb_set_description desc (l_pbar st) in
  let* n := manager_num_rendered self in
  let pbar := pb_set_n n pbar in
  let* _ := pb_refresh pbar in
  let* now := perf_counter in
  let* last :=
    if Qle_bool report_every (float_sub now (last_report_time st)) then
      let* _ := update_report self in
      perf_counter
    else ret (last_report_time st) in
  let* (ths, pbars) := supervise_all 0 (threads self) (l_pbars st) in
  ret {| l_self := with_threads ths self; last_report_time := last;
         l_pbars := pbars; l_pbar := pbar |}.

(** [while any(t.is_running for t in self.threads): ...] *)
Fixpoint poll_loop (fuel : nat) (tick0 report_every : Q) (st : Loop) : M Loop :=
  match fuel with
  | 0 => fun w => Spin w
  | S fuel' =>
      let* running := any_running (threads (l_self st)) in
      if running then
        let* st' := loop_body tick0 report_every st in
        poll_loop fuel' tick0 report_every st'
      else ret st
  end.

(** The seeding loop [for thread in self.threads: thread.check_in()]. *)
Fixpoint check_in_all (ths : list BlenderThread) : M (list BlenderThread) :=
  match ths with
  | [] => ret []
  | thread :: rest =>
      let* thread := check_in thread in
      let* rest := check_in_all rest in
      ret (thread :: rest)
  end.

(** The bars created by [for i, thread in enumerate(self.threads)]. *)
Fixpoint make_pbars (ths : list BlenderThread) : M (list PBar) :=
  match ths with
  | [] => ret []
  | thread :: rest =>
      let* n := num_rendered thread in
      let* p := tqdm (BlenderThread__len__ thread) n in
      let* ps := make_pbars rest in
      ret (p :: ps)
  end.

(** [start]: returns the manager as the call leaves it. *)
Definition start (fuel : nat) (self : BlenderThreadManager) (progress_bars : bool)
    (tick0 report_every : Q) : M BlenderThreadManager :=
  let* t := perf_counter in
  let* d := datetime_now in
  let self := with_session t d self in
  let* ths := check_in_all (threads self) in
  let self := with_threads ths self in
  let* last := perf_counter in
  if progress_bars then
    let* pbars := make_pbars (threads self) in
    let* pbar := tqdm (BlenderThreadManager__len__ self) 0 in
    let* st := poll_loop fuel tick0 report_every
                 {| l_self := self; last_report_time := last;
                    l_pbars := pbars; l_pbar := pbar |} in
    let* _ := pb_close (l_pbar st) in
    let* _ := update_report (l_self st) in
    ret (l_self st)
  else ret self.

(** A world in which nothing has happened yet. *)
Definition fresh_world : World :=
  {| instant := 0; procs := []; kills := []; files := ∅; console := [] |}.

(** ** The session as a transition system

    Every run of the coordinator is a sequence of steps of two kinds:
    steps in which it only observes the outside (time passes, the process
    table and the kill record stay as they are), and steps in which one
    lane's supervisor moves. *)

Definition quiet_rel (w w' : World) : Prop :=
  instant w <= instant w' /\ procs w' = procs w /\ kills w' = kills w.

(** A computation that only observes: it starts and kills nothing, and
    it contains no loop. *)
Definition quiet {A} (m : M A) : Prop :=
  forall w,
    match m w with
    | Ok _ w' | Raise _ w' => quiet_rel w w'
    | Spin _ => False
    end.

(** The number of batches a lane has still to start. *)
Definition remaining (th : BlenderThread) : nat :=
  Z.to_nat (Z.of_nat (njobs th) - 1 - job th).

(** A move of one lane: either it starts nothing, or it starts exactly
    one process [p], at an instant by which the process it held before
    has exited. *)
Inductive lane_step (th : BlenderThread) (w : World) (th' : BlenderThread) (w' : World)
  : Prop :=
  | lane_idle :
      name th' = name th -> njobs th' = njobs th -> process th' = process th ->
      remaining th' <= remaining th ->
      quiet_rel w w' ->
      lane_step th w th' w'
  | lane_spawn (p : Proc) :
      name th' = name th -> njobs th' = njobs th ->
      remaining th' < remaining th ->
      procs w' = procs w ++ [p] -> kills w' = kills w ->
      p_owner p = name th ->
      instant w <= born p -> born p < instant w' ->
      dies p = (fun d => born p + d) <$> proc_life E (length (procs w)) ->
      process th' = Some (length (procs w)) ->
      (forall pid q, process th = Some pid -> procs w !! pid = Some q ->
                     exists d, dies q = Some d /\ d <= born p) ->
      lane_step th w th' w'.

Definition Sys : Type := list BlenderThread * World.

Inductive sys_step : Sys -> Sys -> Prop :=
  | sys_quiet ths w w' :
      quiet_rel w w' -> sys_step (ths, w) (ths, w')
  | sys_lane pre th post w th' w' :
      lane_step th w th' w' ->
      sys_step (pre ++ th :: post, w) (pre ++ th' :: post, w').

Definition sys_steps : Sys -> Sys -> Prop := rtc sys_step.

(** [runs spin ths m post]: run from any world with lanes [ths], the
    computation [m] takes the session through steps of the transition
    system; when it returns [a] the lanes are some [ths'] with
    [post a ths']; it is left spinning only when [spin] allows it. *)
Definition runs {A} (spin : bool) (ths : list BlenderThread) (m : M A)
    (post : A -> list BlenderThread -> Prop) : Prop :=
  forall w,
    match m w with
    | Ok a w' => exists ths', post a ths' /\ sys_steps (ths, w) (ths', w')
    | Raise _ w' => exists ths', sys_steps (ths, w) (ths', w')
    | Spin w' => spin = true /\ exists ths', sys_steps (ths, w) (ths', w')
    end.

(** ** Invariants of the transition system *)

(** Of two processes of the same lane, the earlier one has exited by the
    time the later one is started. *)
Definition sequential (w : World) : Prop :=
  forall pid1 pid2 p1 p2,
    procs w !! pid1 = Some p1 -> procs w !! pid2 = Some p2 ->
    pid1 < pid2 -> p_owner p1 = p_owner p2 ->
    exists d, dies p1 = Some d /\ d <= born p2.

(** Every process of the lane, other than the one it holds, has exited. *)
Definition lane_ok (w : World) (th : BlenderThread) : Prop :=
  forall pid p,
    procs w !! pid = Some p -> p_owner p = name th -> process th <> Some pid ->
    exists d, dies p = Some d /\ d <= instant w.

Definition born_by_now (w : World) : Prop :=
  forall pid p, procs w !! pid = Some p -> born p <= instant w.

Definition Safe (s : Sys) : Prop :=
  sequential s.2 /\ born_by_now s.2 /\ NoDup (name <$> s.1) /\ Forall (lane_ok s.2) s.1.

(** Some lane holds a process that never exits. *)
Definition holds_immortal (s : Sys) : Prop :=
  exists th pid p,
    th ∈ s.1 /\ process th = Some pid /\ procs s.2 !! pid = Some p /\ dies p = None.

(** A lane that is marked finished has run past its last batch. *)
Definition past_last_batch (th : BlenderThread) : Prop :=
  finished th = true -> (Z.of_nat (njobs th) <= job th)%Z.

(** ** The measure of the polling loop

    [D] bounds the lifetime of a worker process.  The loop's measure is
    the number of batches still to start, weighted by [D + 1], plus the
    time until the last process started so far has exited. *)

Definition deadline (w : World) : nat := max_list (omap dies (procs w)).

Definition gap (w : World) : nat := deadline w - instant w.

Definition mortal (D : nat) (w : World) : Prop :=
  forall pid p, procs w !! pid = Some p ->
    born p <= instant w /\ exists d, dies p = Some d /\ d <= born p + D.

Definition potential (D : nat) (s : Sys) : nat :=
  sum_list (remaining <$> s.1) * S D + gap s.2.

(** ** Thread states that arise from the constructor by method calls *)

Inductive reachable : BlenderThread -> Prop :=
  | reach_init command0 jobs0 log_loc0 name0 timeout0 to_stdout0 MAX_PER_JOB w th w' :
      BlenderThread__init__ command0 jobs0 log_loc0 name0 timeout0 to_stdout0 MAX_PER_JOB w
      = Ok th w' ->
      reachable th
  | reach_check_in th w th' w' :
      reachable th -> check_in th w = Ok th' w' -> reachable th'
  | reach_check_status th w b th' w' :
      reachable th -> check_status th w = Ok (b, th') w' -> reachable th'.

(** ** Sequences of stall checks

    [check_status] called once in each of the worlds [ws], in turn, on the
    same thread: the flags returned.  The sequence stops at a call that
    raises. *)
Fixpoint status_polls (th : BlenderThread) (ws : list World) : list bool :=
  match ws with
  | [] => []
  | w :: rest =>
      match check_status th w with
      | Ok (b, th') _ => b :: status_polls th' rest
      | _ => []
      end
  end.

(** What one stall check observes in the world [w]: the marker count,
    and the clock reading that follows it. *)
Definition observed_count (th : BlenderThread) (w : World) : nat :=
  match num_rendered th w with
  | Ok n _ => n
  | _ => 0
  end.

Definition observed_time (th : BlenderThread) (w : World) : Q :=
  perf E (instant (world_of (num_rendered th w))).

(** ** The rest of [BlenderThread] *)

(** [logfile.flush()] *)
Definition flush (handle : string) : M unit := tick.

(** The property [complete]: once the lane's process is not running the
    log is flushed and [True] is returned; while it runs the body falls
    off its end and the value is [None].  The field [logfile] is [None]
    exactly when [log_loc] is. *)
Definition complete (th : BlenderThread) : M (option bool) :=
  let* running := is_running th in
  if running then ret None
  else
    match log_loc th with
    | None => raise AttributeError
    | Some handle =>
        let* _ := flush handle in
        ret (Some true)
    end.

(** A worker whose log holds one completed render until instant 12, and
    is empty from then on. *)
Definition emptied_log_env : Env :=
  {| proc_life := fun _ => Some 20;
     kill_lag := fun _ => 2;
     perf := fun i => inject_Z (Z.of_nat i);
     wall := fun i => inject_Z (Z.of_nat i);
     log_lines := fun i _ => if i <? 12 then ["DONE 1"%string] else [];
     dir_entries := fun _ _ => [];
     path_join := String.concat "/";
     strftime := fun _ _ => "";
     str_timedelta := fun _ => "";
     str_2f := fun _ => "" |}.

(** The same, with the log emptied at instant 21. *)
Definition late_emptied_log_env : Env :=
  {| proc_life := fun _ => Some 20;
     kill_lag := fun _ => 2;
     perf := fun i => inject_Z (Z.of_nat i);
     wall := fun i => inject_Z (Z.of_nat i);
     log_lines := fun i _ => if i <? 21 then ["DONE 1"%string] else [];
     dir_entries := fun _ _ => [];
     path_join := String.concat "/";
     strftime := fun _ _ => "";
     str_timedelta := fun _ => "";
     str_2f := fun _ => "" |}.

(** ** Notions used to state the further properties *)

(** The number of lines reporting a completed render. *)
Definition marker_count (lines : list string) : nat :=
  length (filter (fun line => String.prefix LOG_PREPEND line = true) lines).

(** The marker count of every log never goes down as time passes (logs
    are opened for appending). *)
Definition logs_only_grow : Prop :=
  forall loc i j, i <= j ->
    marker_count (log_lines E i loc) <= marker_count (log_lines E j loc).

(** The jobs of a lane, batch after batch. *)
Definition lane_jobs (th : BlenderThread) : list Job := concat (jobs th).

(** What holds of every thread obtained from the constructor by method
    calls. *)
Definition lane_wf (th : BlenderThread) : Prop :=
  njobs th = length (jobs th) /\ 0 < njobs th
  /\ Forall (fun batch => batch <> []) (jobs th)
  /\ length (lane_jobs th) = lane_size th
  /\ (-1 <= job th)%Z
  /\ (process th = None <-> job th = (-1)%Z)
  /\ (finished th = true <-> (Z.of_nat (njobs th) <= job th)%Z)
  /\ (to_stdout th = true -> log_loc th = None).

(** The fields of a thread that are set by the constructor and left alone
    by every method. *)
Definition same_config (th th' : BlenderThread) : Prop :=
  command th' = command th /\ jobs th' = jobs th /\ njobs th' = njobs th
  /\ lane_size th' = lane_size th /\ timeout th' = timeout th
  /\ to_stdout th' = to_stdout th /\ log_loc th' = log_loc th /\ name th' = name th.

(** The batches of a lane for which a process has been started. *)
Definition batches_started (th : BlenderThread) : list (list Job) :=
  take (Z.to_nat (job th + 1)) (jobs th).

(** The processes that carry the name [owner], in the order in which they
    were started. *)
Definition procs_of (w : World) (owner : string) : list Proc :=
  filter (fun p => p_owner p = owner) (procs w).

(** ** The session, lane by lane *)

(** The lane reads its render count from a log file. *)
Definition reads_log (th : BlenderThread) : Prop :=
  to_stdout th = false /\ log_loc th <> None.

(** The processes of the lane are those of the batches it has started,
    in batch order, each with its output going to the lane's log. *)
Definition in_order (w : World) (th : BlenderThread) : Prop :=
  (fun p => (p_argv p, p_stdout p)) <$> procs_of w (name th)
  = (fun batch => (set_job (command th) batch, log_loc th)) <$> batches_started th.

(** What holds of a lane in the course of a session.  With [strict] set
    the lane moreover reads its count from a log. *)
Definition lane_good (strict : bool) (w : World) (th : BlenderThread) : Prop :=
  lane_wf th
  /\ in_order w th
  /\ (forall pid, process th = Some pid -> pid < length (procs w))
  /\ (finished th = true -> forall pid, process th = Some pid -> exited w pid = true)
  /\ (strict = true -> reads_log th).

(** What holds of a session whose lanes were [ths0] when it began. *)
Definition Good (strict : bool) (ths0 ths : list BlenderThread) (w : World) : Prop :=
  Forall2 same_config ths0 ths
  /\ Forall (lane_good strict w) ths
  /\ Forall (fun p => p_owner p ∈ name <$> ths0) (procs w).

(** [tracks strict ths0 ths m post]: run with lanes [ths] in a good
    session, [m] leaves a good session; when it returns [a] the lanes are
    some [ths'] with [post a ths']; with [strict] set it does not
    raise. *)
Definition tracks {A} (strict : bool) (ths0 ths : list BlenderThread) (m : M A)
    (post : A -> list BlenderThread -> Prop) : Prop :=
  forall w, Good strict ths0 ths w ->
    match m w with
    | Ok a w' => exists ths', post a ths' /\ Good strict ths0 ths' w'
    | Raise _ w' => strict = false /\ exists ths', Good strict ths0 ths' w'
    | Spin w' => exists ths', Good strict ths0 ths' w'
    end.

(** What [sum(t.num_rendered for t in threads)] amounts to when it is
    begun at instant [i] and every lane reads a log: each lane that has a
    process reads its log at an instant of its own. *)
Fixpoint rendered_from (ths : list BlenderThread) (i : nat) : nat :=
  match ths with
  | [] => 0
  | th :: rest =>
      match process th, log_loc th with
      | Some _, Some loc => marker_count (log_lines E i loc) + rendered_from rest (S i)
      | _, _ => rendered_from rest i
      end
  end.

(** What the polling loop keeps of its own state when the lanes read
    their counts from logs: the session has begun, and every lane has its
    progress bar. *)
Definition loop_ready (strict : bool) (st : Loop) : Prop :=
  strict = true ->
  session_start (l_self st) <> None
  /\ length (threads (l_self st)) <= length (l_pbars st).

(** A computation that only observes, and returns. *)
Definition calm {A} (m : M A) : Prop :=
  forall w, exists a w', m w = Ok a w' /\ quiet_rel w w'.

(** * Properties

    ** The job splitter *)

(** *** Facts about the division points *)

Lemma cumsum_from_length acc l : length (cumsum_from acc l) = length l.
Proof. revert acc; induction l as [|x l IH]; intros acc; simpl; [done|]. by rewrite IH. Qed.

Lemma cumsum_from_lookup l : forall acc i,
i < length l ->
cumsum_from acc l !! i = Some (acc + sum_list (take (S i) l)).
Proof.
induction l as [|x l IH]; intros acc i Hi; simpl in *; [lia|].
destruct i as [|i]; simpl.
- f_equal. destruct l; simpl; lia.
- rewrite IH by lia. f_equal. simpl. lia.
Qed.

Lemma div_points_nth sizes i :
i <= length sizes ->
nth i (cumsum (0 :: sizes)) 0 = sum_list (take i sizes).
Proof.
intros Hi. unfold cumsum. simpl.
destruct i as [|i]; [done|]. simpl.
apply nth_lookup_Some with (d := 0).
rewrite cumsum_from_lookup by lia. done.
Qed.

Lemma sum_list_app (l k : list nat) : sum_list (l ++ k) = sum_list l + sum_list k.
Proof. induction l; simpl; lia. Qed.

Lemma section_sizes_length n k : 0 < k -> length (section_sizes n k) = k.
Proof.
intros Hk. unfold section_sizes.
rewrite length_app, !length_replicate.
pose proof (Nat.mod_upper_bound n k). lia.
Qed.

Lemma section_sizes_sum n k : 0 < k -> sum_list (section_sizes n k) = n.
Proof.
intros Hk. unfold section_sizes.
rewrite sum_list_app, !sum_list_replicate.
pose proof (Nat.mod_upper_bound n k).
pose proof (Nat.div_mod_eq n k). nia.
Qed.

Lemma section_sizes_lookup n k i :
i < k ->
section_sizes n k !! i
= Some (Nat.div n k + (if decide (i < Nat.modulo n k) then 1 else 0)).
Proof.
intros Hi. unfold section_sizes.
pose proof (Nat.mod_upper_bound n k).
destruct (decide (i < Nat.modulo n k)) as [Hlt|Hge].
- rewrite lookup_app_l by (rewrite length_replicate; lia).
  by rewrite lookup_replicate_2.
- rewrite lookup_app_r by (rewrite length_replicate; lia).
  rewrite length_replicate, lookup_replicate_2 by lia.
  f_equal; lia.
Qed.

(** *** [array_split] cuts the array front to back

  stdpp's [reshape sizes l] takes [sizes] elements at a time from the
  front of [l]; [array_split] computes the same sections of numpy's
  array from the division points. *)

Lemma length_asarray {A} `{!Numpy A} (l : list A) : length (asarray l) = length l.
Proof. unfold asarray. by rewrite length_fmap. Qed.

Lemma asarray_nil {A} `{!Numpy A} : asarray (@nil A) = [].
Proof. done. Qed.

Lemma asarray_eq_nil {A} `{!Numpy A} (l : list A) : asarray l = [] <-> l = [].
Proof.
  split; [|by intros ->].
  intros Hl. apply length_zero_iff_nil. by rewrite <- (length_asarray l), Hl.
Qed.


Lemma reshape_concat {A} sizes (l : list A) : concat (reshape sizes l) = take (sum_list sizes) l.
Proof.
  revert l; induction sizes as [|s r IH]; intros l; simpl.
  - by rewrite take_0.
  - by rewrite IH, take_take_drop.
Qed.

Lemma reshape_lookup {A} sizes : forall (l : list A) i s,
  sizes !! i = Some s ->
  reshape sizes l !! i = Some (take s (drop (sum_list (take i sizes)) l)).
Proof.
  induction sizes as [|s0 r IH]; intros l i s Hs; [done|].
  destruct i as [|i]; simpl in *.
  - by simplify_eq.
  - rewrite (IH _ _ _ Hs). by rewrite drop_drop.
Qed.

Lemma reshape_lookup_length {A} sizes (l : list A) i s :
  sum_list sizes <= length l ->
  sizes !! i = Some s ->
  exists c, reshape sizes l !! i = Some c /\ length c = s.
Proof.
  intros Hsum Hs. eexists; split; [by apply reshape_lookup|].
  rewrite length_take, length_drop.
  pose proof (take_drop_middle sizes i s Hs) as Hmid.
  assert (sum_list sizes = sum_list (take i sizes) + s + sum_list (drop (S i) sizes)) as Heq.
  { rewrite <- Hmid at 1. rewrite sum_list_app. simpl. lia. }
  lia.
Qed.

Lemma array_split_reshape {A} `{!Numpy A} (l : list A) (n : Z) :
  (0 < n)%Z ->
  array_split l n = inr (reshape (section_sizes (length l) (Z.to_nat n)) (asarray l)).
Proof.
  intros Hn. unfold array_split.
  destruct (Z.leb_spec n 0) as [|_]; [lia|].
  f_equal. set (k := Z.to_nat n). assert (0 < k) as Hk by lia.
  set (sizes := section_sizes (length l) k).
  assert (length sizes = k) as Hlen by by apply section_sizes_length.
  apply list_eq; intros i.
  rewrite list_lookup_fmap.
  destruct (decide (i < k)) as [Hi|Hi].
  - assert (seq 0 k !! i = Some i) as -> by (apply lookup_seq; lia).
    destruct (lookup_lt_is_Some_2 sizes i) as [s Hs]; [lia|].
    rewrite (reshape_lookup _ _ _ _ Hs). cbn [fmap option_fmap option_map app].
    f_equal. fold sizes.
    rewrite !div_points_nth by lia. unfold slice. f_equal.
    rewrite (take_S_r _ _ _ Hs), sum_list_app. simpl. lia.
  - rewrite (lookup_ge_None_2 (seq 0 k)) by (rewrite length_seq; lia).
    simpl. symmetry. apply lookup_ge_None_2. rewrite length_reshape. lia.
Qed.

Lemma list_split_reshape {A} `{!Numpy A} (l : list A) (n : Z) :
  (0 < n)%Z ->
  list_split l n = inr (reshape (section_sizes (length l) (Z.to_nat n)) (asarray l)).
Proof.
  intros Hn. unfold list_split. rewrite array_split_reshape by done.
  by rewrite list_fmap_id.
Qed.


(** *** Sizes of the sections *)

Lemma section_sizes_spread n k a b :
  0 < k -> a ∈ section_sizes n k -> b ∈ section_sizes n k -> a <= b + 1.
Proof.
  intros Hk [i Ha]%list_elem_of_lookup [j Hb]%list_elem_of_lookup.
  pose proof (lookup_lt_Some _ _ _ Ha) as Hi.
  pose proof (lookup_lt_Some _ _ _ Hb) as Hj.
  rewrite section_sizes_length in Hi, Hj by done.
  rewrite section_sizes_lookup in Ha, Hb by done.
  simplify_eq. repeat case_decide; lia.
Qed.

Lemma reshape_elem_length {A} sizes (l : list A) c :
  sum_list sizes <= length l ->
  c ∈ reshape sizes l -> length c ∈ sizes.
Proof.
  intros Hsum [i Hc]%list_elem_of_lookup.
  pose proof (lookup_lt_Some _ _ _ Hc) as Hi. rewrite length_reshape in Hi.
  destruct (lookup_lt_is_Some_2 sizes i Hi) as [s Hs].
  destruct (reshape_lookup_length sizes l i s Hsum Hs) as (c' & Hc' & Hlen).
  simplify_eq. apply list_elem_of_lookup. eauto.
Qed.

(** The ceiling of [n / m] for positive [m], and what it is for an empty
    list. *)
Lemma np_ceil_div_bounds n (m : Z) :
  (0 < m)%Z ->
  ((np_ceil_div n m - 1) * m < Z.of_nat n <= np_ceil_div n m * m)%Z.
Proof.
  intros Hm. unfold np_ceil_div.
  pose proof (Z.div_mod (- Z.of_nat n) m ltac:(lia)) as Hdm.
  pose proof (Z.mod_pos_bound (- Z.of_nat n) m Hm). nia.
Qed.

Lemma np_ceil_div_0 (m : Z) : np_ceil_div 0 m = 0%Z.
Proof. unfold np_ceil_div. simpl. by rewrite Zdiv_0_l. Qed.

Lemma np_ceil_div_neg n (m : Z) : (m < 0)%Z -> (np_ceil_div n m <= 0)%Z.
Proof.
  intros Hm. unfold np_ceil_div.
  assert (0 <= - Z.of_nat n / m)%Z; [|lia].
  rewrite <- Z.div_opp_opp by lia. apply Z.div_pos; lia.
Qed.

Lemma list_split_parts {A} `{!Numpy A} (l : list A) (k : Z) :
  (0 < k)%Z ->
  exists parts,
    list_split l k = inr parts
    /\ length parts = Z.to_nat k
    /\ concat parts = asarray l
    /\ (forall a, a ∈ parts -> length a ∈ section_sizes (length l) (Z.to_nat k)).
Proof.
  intros Hk. eexists. split; [by apply list_split_reshape|].
  assert (0 < Z.to_nat k) as Hk' by lia.
  pose proof (section_sizes_sum (length l) _ Hk') as Hsum.
  pose proof (length_asarray l) as Hlen.
  split; [|split].
  - by rewrite length_reshape, section_sizes_length.
  - rewrite reshape_concat, Hsum. apply take_ge. lia.
  - intros a Ha. apply reshape_elem_length in Ha; [done|lia].
Qed.

(** C6, as the code has it: for every job list and every lane count
    [L > 0], [list_split] returns [L] lanes whose sizes differ by at most
    one and add up to the number of jobs, and whose concatenation, in
    lane order, is the array numpy makes of the job list.  When numpy
    stores the jobs as they are given (as it does path strings) the
    concatenation is the job list itself: every lane keeps the relative
    order of its jobs, and no job is duplicated or dropped. *)
Theorem list_split_lanes {A} `{!Numpy A} (jobs0 : list A) (L : Z) :
  (0 < L)%Z ->
  exists lanes,
    list_split jobs0 L = inr lanes
    /\ length lanes = Z.to_nat L
    /\ length (concat lanes) = length jobs0
    /\ concat lanes = asarray jobs0
    /\ (stored_unchanged jobs0 -> concat lanes = jobs0)
    /\ (forall a b, a ∈ lanes -> b ∈ lanes -> length a <= length b + 1).
Proof.
  intros HL.
  destruct (list_split_parts jobs0 L HL) as (lanes & Hsplit & Hlen & Hcat & Hsz).
  exists lanes. split; [done|]. split; [done|].
  split; [by rewrite Hcat, length_asarray|]. split; [done|].
  split; [intros Hsame; by rewrite Hcat|].
  intros a b Ha Hb.
  apply (section_sizes_spread (length jobs0) (Z.to_nat L)); [lia|auto..].
Qed.

(** What the constructor stores, when the batches can be formed. *)
Lemma BlenderThread__init__ok command0 jobs0 log_loc0 name0 timeout0 to_stdout0
    MAX_PER_JOB batches w :
  split_into_batches jobs0 MAX_PER_JOB = inr batches ->
  exists th w',
    BlenderThread__init__ command0 jobs0 log_loc0 name0 timeout0 to_stdout0 MAX_PER_JOB w
    = Ok th w'
    /\ jobs th = batches /\ njobs th = length batches /\ lane_size th = length jobs0
    /\ process th = None /\ job th = (-1)%Z /\ finished th = false /\ name th = name0
    /\ timeout th = timeout0 /\ prev_n th = 0 /\ timer th = perf E (instant w)
    /\ procs w' = procs w /\ kills w' = kills w /\ instant w <= instant w'.
Proof.
  intros Hb. unfold BlenderThread__init__. rewrite Hb.
  destruct to_stdout0, log_loc0; cbn; eexists _, _; (split; [reflexivity|]);
    cbn; repeat split; lia.
Qed.

Lemma BlenderThread__init__raise command0 jobs0 log_loc0 name0 timeout0 to_stdout0
    MAX_PER_JOB e w :
  split_into_batches jobs0 MAX_PER_JOB = inl e ->
  BlenderThread__init__ command0 jobs0 log_loc0 name0 timeout0 to_stdout0 MAX_PER_JOB w
  = Raise e w.
Proof. intros Hb. unfold BlenderThread__init__. by rewrite Hb. Qed.

Lemma split_into_batches_spec {A} `{!Numpy A} (jobs0 : list A) (MAX_PER_JOB : Z) :
  jobs0 <> [] -> (0 < MAX_PER_JOB)%Z ->
  exists batches,
    split_into_batches jobs0 MAX_PER_JOB = inr batches
    /\ ((Z.of_nat (length batches) - 1) * MAX_PER_JOB < Z.of_nat (length jobs0)
        <= Z.of_nat (length batches) * MAX_PER_JOB)%Z
    /\ concat batches = asarray jobs0
    /\ (forall b, b ∈ batches -> 0 < length b /\ (Z.of_nat (length b) <= MAX_PER_JOB)%Z)
    /\ (forall a b, a ∈ batches -> b ∈ batches -> length a <= length b + 1).
Proof.
  intros Hne HM. unfold split_into_batches.
  destruct (Z.eqb_spec MAX_PER_JOB 0) as [|_]; [lia|].
  set (n := length jobs0). assert (0 < n) as Hn by (destruct jobs0; [done|simpl; subst n; simpl; lia]).
  pose proof (np_ceil_div_bounds n MAX_PER_JOB HM) as Hceil.
  set (k := np_ceil_div n MAX_PER_JOB) in *.
  assert (0 < k)%Z as Hk by nia.
  destruct (list_split_parts jobs0 k Hk) as (batches & Hsplit & Hlen & Hcat & Hsz).
  exists batches. split; [done|]. fold n in Hsz.
  assert (Z.of_nat (length batches) = k) as Hlen' by lia.
  split; [rewrite Hlen'; lia|]. split; [done|].
  assert (0 < Z.to_nat k) as Hk' by lia.
  split.
  - intros b Hb. specialize (Hsz b Hb).
    apply list_elem_of_lookup in Hsz as [i Hi].
    pose proof (lookup_lt_Some _ _ _ Hi) as Hlt.
    rewrite section_sizes_length in Hlt by done.
    rewrite section_sizes_lookup in Hi by done.
    injection Hi as Hi. rewrite <- Hi.
    pose proof (Nat.div_mod_eq n (Z.to_nat k)) as Hdm.
    pose proof (Nat.mod_upper_bound n (Z.to_nat k) ltac:(lia)) as Hmod.
    set (q := Nat.div n (Z.to_nat k)) in *. set (r := Nat.modulo n (Z.to_nat k)) in *.
    assert (Z.to_nat k <= n) as Hkn by nia.
    split; [case_decide; nia|].
    case_decide; nia.
  - intros a b Ha Hb.
    apply (section_sizes_spread n (Z.to_nat k)); auto.
Qed.

(** C1, as the code has it: for every non-empty lane job list of length
    [n] and every [MAX_PER_JOB > 0], the constructor stores [ceil(n/M)]
    batches whose concatenation, in order, is the array numpy makes of
    the lane list, and so the lane list itself when numpy stores the jobs
    as they are given (as it does path strings); every batch is non-empty
    and holds at most [MAX_PER_JOB] jobs, and the batch sizes differ by at
    most one (the jobs are spread evenly over the batches, they are not
    cut into runs of [MAX_PER_JOB]). *)
Theorem batches_partition_lane command0 (jobs0 : list Job) log_loc0 name0 timeout0
    to_stdout0 (MAX_PER_JOB : Z) w :
  jobs0 <> [] -> (0 < MAX_PER_JOB)%Z ->
  exists th w',
    BlenderThread__init__ command0 jobs0 log_loc0 name0 timeout0 to_stdout0 MAX_PER_JOB w
    = Ok th w'
    /\ njobs th = length (jobs th)
    /\ ((Z.of_nat (njobs th) - 1) * MAX_PER_JOB < Z.of_nat (length jobs0)
        <= Z.of_nat (njobs th) * MAX_PER_JOB)%Z
    /\ concat (jobs th) = asarray jobs0
    /\ (stored_unchanged jobs0 -> concat (jobs th) = jobs0)
    /\ (forall b, b ∈ jobs th -> 0 < length b /\ (Z.of_nat (length b) <= MAX_PER_JOB)%Z)
    /\ (forall a b, a ∈ jobs th -> b ∈ jobs th -> length a <= length b + 1).
Proof.
  intros Hne HM.
  destruct (split_into_batches_spec jobs0 MAX_PER_JOB Hne HM)
    as (batches & Hsplit & Hceil & Hcat & Hbound & Hspread).
  destruct (BlenderThread__init__ok command0 jobs0 log_loc0 name0 timeout0 to_stdout0
              MAX_PER_JOB batches w Hsplit)
    as (th & w' & Hinit & Hjobs & Hnjobs & _).
  exists th, w'. rewrite Hjobs, Hnjobs.
  repeat (split; [done|]). split; [intros Hsame; by rewrite Hcat|]. done.
Qed.

Lemma split_into_batches_empty {A} `{!Numpy A} (MAX_PER_JOB : Z) :
  split_into_batches (@nil A) MAX_PER_JOB
  = inl (if (MAX_PER_JOB =? 0)%Z then ZeroDivisionError else ValueError).
Proof.
  unfold split_into_batches. destruct (MAX_PER_JOB =? 0)%Z; [done|].
  simpl. by rewrite np_ceil_div_0.
Qed.

(** C10: constructing a [BlenderThread] with an empty job list raises,
    whatever [MAX_PER_JOB] is, and leaves the world as it was: the
    division raises [ZeroDivisionError] when [MAX_PER_JOB] is zero, and
    otherwise [ceil(0/M) = 0] sections are requested and [array_split]
    raises [ValueError].  No lane with zero batches is ever produced. *)
Theorem empty_lane_raises command0 log_loc0 name0 timeout0 to_stdout0 (MAX_PER_JOB : Z) w :
  BlenderThread__init__ command0 [] log_loc0 name0 timeout0 to_stdout0 MAX_PER_JOB w
  = Raise (if (MAX_PER_JOB =? 0)%Z then ZeroDivisionError else ValueError) w
  /\ np_ceil_div 0 MAX_PER_JOB = 0%Z
  /\ array_split (@nil Job) 0 = inl ValueError.
Proof.
  split; [|split; [apply np_ceil_div_0|done]].
  apply BlenderThread__init__raise, split_into_batches_empty.
Qed.

(** ** Observing computations *)

Lemma quiet_rel_refl w : quiet_rel w w.
Proof. by repeat split. Qed.

Lemma quiet_rel_trans w1 w2 w3 : quiet_rel w1 w2 -> quiet_rel w2 w3 -> quiet_rel w1 w3.
Proof. intros (?&?&?) (?&?&?). repeat split; [lia|congruence..]. Qed.

Lemma quiet_rel_next w : quiet_rel w (next_instant w).
Proof. repeat split; simpl; lia. Qed.

Lemma quiet_ret {A} (a : A) : quiet (ret a).
Proof. intros w. apply quiet_rel_refl. Qed.

Lemma quiet_raise {A} e : quiet (@raise A e).
Proof. intros w. apply quiet_rel_refl. Qed.

Lemma quiet_bind {A B} (m : M A) (k : A -> M B) :
  quiet m -> (forall a, quiet (k a)) -> quiet (bind m k).
Proof.
  intros Hm Hk w. unfold bind. specialize (Hm w).
  destruct (m w) as [a w1|e w1|w1]; [|done..].
  specialize (Hk a w1). destruct (k a w1); [| |done]; by eapply quiet_rel_trans.
Qed.

Lemma quiet_tick : quiet tick.
Proof. intros w. apply quiet_rel_next. Qed.

Lemma quiet_perf_counter : quiet perf_counter.
Proof. intros w. apply quiet_rel_next. Qed.

Lemma quiet_datetime_now : quiet datetime_now.
Proof. intros w. apply quiet_rel_next. Qed.

Lemma quiet_sleep secs : quiet (sleep secs).
Proof. apply quiet_tick. Qed.

Lemma quiet_readlines loc : quiet (readlines loc).
Proof. intros w. apply quiet_rel_next. Qed.

Lemma quiet_listdir dir : quiet (listdir dir).
Proof. intros w. apply quiet_rel_next. Qed.

Lemma quiet_makedirs dir : quiet (makedirs dir).
Proof. apply quiet_tick. Qed.

Lemma quiet_open_append loc : quiet (open_append loc).
Proof. intros w. apply quiet_rel_next. Qed.

Lemma quiet_print line : quiet (print line).
Proof. intros w. repeat split; simpl; lia. Qed.

Lemma quiet_write_file loc lines : quiet (write_file loc lines).
Proof. intros w. repeat split; simpl; lia. Qed.

Lemma quiet_poll_is_None pid : quiet (poll_is_None pid).
Proof. intros w. apply quiet_rel_next. Qed.

Lemma quiet_tqdm total initial : quiet (tqdm total initial).
Proof. intros w. apply quiet_rel_next. Qed.

Lemma quiet_pb_set_description desc p : quiet (pb_set_description desc p).
Proof. intros w. apply quiet_rel_next. Qed.

Lemma quiet_pb_refresh p : quiet (pb_refresh p).
Proof. apply quiet_tick. Qed.

Lemma quiet_pb_close p : quiet (pb_close p).
Proof. apply quiet_tick. Qed.

Create HintDb quiet.
#[local] Hint Resolve quiet_ret quiet_raise quiet_tick quiet_perf_counter
  quiet_datetime_now quiet_sleep quiet_readlines quiet_listdir quiet_makedirs
  quiet_open_append quiet_print quiet_write_file quiet_poll_is_None quiet_tqdm
  quiet_pb_set_description quiet_pb_refresh quiet_pb_close : quiet.

(** Walks through a computation built from binds, branches and quiet
    parts. *)
Ltac quiet_tac :=
  repeat first
    [ progress eauto with quiet
    | apply quiet_bind; [|intros ?]
    | match goal with
      | |- quiet (if ?b then _ else _) => destruct b
      | |- quiet (match ?x with _ => _ end) => destruct x
      | |- quiet (let '(_, _) := ?x in _) => destruct x
      end ].

Lemma quiet_is_running th : quiet (is_running th).
Proof. unfold is_running. quiet_tac. Qed.

Lemma quiet_num_rendered th : quiet (num_rendered th).
Proof. unfold num_rendered. quiet_tac. Qed.
#[local] Hint Resolve quiet_is_running quiet_num_rendered : quiet.

Lemma quiet_success th : quiet (success th).
Proof. unfold success. quiet_tac. Qed.

Lemma quiet_check_status th : quiet (check_status th).
Proof. unfold check_status. quiet_tac. Qed.

Lemma quiet_sum_num_rendered ths : quiet (sum_num_rendered ths).
Proof. induction ths; simpl; quiet_tac. Qed.
#[local] Hint Resolve quiet_success quiet_check_status quiet_sum_num_rendered : quiet.

Lemma quiet_manager_num_rendered m : quiet (manager_num_rendered m).
Proof. unfold manager_num_rendered. quiet_tac. Qed.
#[local] Hint Resolve quiet_manager_num_rendered : quiet.

Lemma quiet_update_report m : quiet (update_report m).
Proof. unfold update_report. quiet_tac. Qed.

Lemma quiet_any_running ths : quiet (any_running ths).
Proof. induction ths; simpl; quiet_tac. Qed.

Lemma quiet_make_pbars ths : quiet (make_pbars ths).
Proof. induction ths; simpl; quiet_tac. Qed.

Lemma quiet_BlenderThread__init__ command0 jobs0 log_loc0 name0 timeout0 to_stdout0
    MAX_PER_JOB :
  quiet (BlenderThread__init__ command0 jobs0 log_loc0 name0 timeout0 to_stdout0
           MAX_PER_JOB).
Proof. unfold BlenderThread__init__. quiet_tac. Qed.
#[local] Hint Resolve quiet_update_report quiet_any_running quiet_make_pbars
  quiet_BlenderThread__init__ : quiet.

Lemma quiet_make_threads command0 jsons logs print_to_stdout MAX_PER_JOB count :
  forall i, quiet (make_threads command0 jsons logs print_to_stdout MAX_PER_JOB i count).
Proof. induction count; intros i; simpl; quiet_tac. Qed.
#[local] Hint Resolve quiet_make_threads : quiet.

Lemma quiet_BlenderThreadManager__init__ command0 jsons output_directory print_to_stdout
    MAX_PER_JOB :
  quiet (BlenderThreadManager__init__ command0 jsons output_directory print_to_stdout
           MAX_PER_JOB).
Proof. unfold BlenderThreadManager__init__. quiet_tac. Qed.

(** An exited process stays exited while nothing is started or killed. *)
Lemma exited_mono w w' pid :
  quiet_rel w w' -> exited w pid = true -> exited w' pid = true.
Proof.
  intros (Hi & Hp & _). unfold exited. rewrite Hp.
  destruct (procs w !! pid) as [p|]; [|done].
  destruct (dies p) as [d|]; [|done].
  rewrite !bool_decide_eq_true. lia.
Qed.

(** ** Runs of the coordinator are paths of the transition system *)

Lemma runs_ret {A} sp ths (a : A) (post : A -> list BlenderThread -> Prop) :
  post a ths -> runs sp ths (ret a) post.
Proof. intros Hp w. exists ths. split; [done|apply rtc_refl]. Qed.

Lemma runs_raise {A} sp ths e (post : A -> list BlenderThread -> Prop) :
  runs sp ths (raise e) post.
Proof. intros w. exists ths. apply rtc_refl. Qed.

Lemma runs_bind {A B} sp ths (m : M A) (k : A -> M B) P Q :
  runs sp ths m P ->
  (forall a ths', P a ths' -> runs sp ths' (k a) Q) ->
  runs sp ths (bind m k) Q.
Proof.
  intros Hm Hk w. unfold bind. specialize (Hm w).
  destruct (m w) as [a w1|e w1|w1]; [|done..].
  destruct Hm as (ths1 & HP & Hsteps).
  specialize (Hk a ths1 HP w1).
  destruct (k a w1) as [b w2|e w2|w2].
  - destruct Hk as (ths2 & HQ & Hsteps2). exists ths2. split; [done|by etrans].
  - destruct Hk as (ths2 & Hsteps2). exists ths2. by etrans.
  - destruct Hk as (-> & ths2 & Hsteps2). split; [done|]. exists ths2. by etrans.
Qed.

Lemma runs_weaken {A} sp ths (m : M A) (P Q : A -> list BlenderThread -> Prop) :
  runs sp ths m P -> (forall a ths', P a ths' -> Q a ths') -> runs sp ths m Q.
Proof.
  intros Hm HPQ w. specialize (Hm w). destruct (m w); [|done..].
  destruct Hm as (ths' & HP & Hs). eauto.
Qed.

Lemma runs_quiet {A} sp ths (m : M A) :
  quiet m -> runs sp ths m (fun _ ths' => ths' = ths).
Proof.
  intros Hm w. specialize (Hm w).
  destruct (m w) as [a w1|e w1|w1]; [| |done].
  - exists ths. split; [done|]. by apply rtc_once, sys_quiet.
  - exists ths. by apply rtc_once, sys_quiet.
Qed.

(** *** One call of [check_in] *)

Lemma py_index_Some {A} (l : list A) (i : Z) x :
  py_index l i = Some x -> (0 <= i)%Z -> l !! Z.to_nat i = Some x.
Proof. unfold py_index. intros H Hi. destruct (Z.leb_spec 0 i); [done|lia]. Qed.

Lemma check_in_running th w pid :
  process th = Some pid -> exited w pid = false ->
  check_in th w = Ok th (next_instant w).
Proof. intros Hp He. unfold check_in, bind, is_running, poll_is_None. by rewrite Hp, He. Qed.

(** The three ways a call of [check_in] ends when the lane's process is
    not running: past the last batch, with the next batch started, or
    (never, for a lane built by the constructor) with a batch missing. *)
Lemma check_in_idle th w :
  (forall pid, process th = Some pid -> exited w pid = true) ->
  let w1 := match process th with Some _ => next_instant w | None => w end in
  let j := (job th + 1)%Z in
  if (Z.of_nat (njobs th) <=? j)%Z then
    check_in th w
    = Ok (with_status ("✓ THREAD " +:+ name th +:+ " COMPLETED.")
            (with_finished (with_job j th))) w1
  else
    match py_index (jobs th) j with
    | None => check_in th w = Raise IndexError w1
    | Some job_list =>
        exists th' w',
          check_in th w = Ok th' w'
          /\ process th' = Some (length (procs w)) /\ job th' = j
          /\ name th' = name th /\ njobs th' = njobs th /\ jobs th' = jobs th
          /\ finished th' = finished th
          /\ instant w' = S (instant w1) /\ kills w' = kills w
          /\ files w' = files w /\ console w' = console w
          /\ procs w'
             = procs w ++ [ {| p_owner := name th;
                               p_argv := set_job (command th) job_list;
                               p_stdout := if to_stdout th then None else log_loc th;
                               born := instant w1;
                               dies := (fun d => instant w1 + d)
                                         <$> proc_life E (length (procs w)) |} ]
    end.
Proof.
  intros Hex. cbv zeta.
  assert (is_running th w
          = Ok false (match process th with Some _ => next_instant w | None => w end)) as Hrun.
  { unfold is_running, poll_is_None. destruct (process th) as [pid|]; [|done].
    by rewrite (Hex pid eq_refl). }
  unfold check_in, bind. rewrite Hrun. cbn [job njobs with_job].
  destruct (Z.of_nat (njobs th) <=? job th + 1)%Z; cbv beta iota; [reflexivity|].
  unfold start_job. cbn [job jobs with_status with_job name command to_stdout log_loc].
  destruct (py_index (jobs th) (job th + 1)) as [job_list|]; [|reflexivity].
  unfold bind, Popen, ret. eexists _, _. split; [reflexivity|].
  destruct (process th); cbn; repeat split; done.
Qed.

Lemma check_in_step th w :
  match check_in th w with
  | Ok th' w' => lane_step th w th' w'
  | Raise _ w' => quiet_rel w w'
  | Spin _ => False
  end.
Proof.
  destruct (process th) as [pid|] eqn:Hp.
  - destruct (exited w pid) eqn:He.
    + pose proof (check_in_idle th w) as H. rewrite Hp in H.
      specialize (H ltac:(by intros ? [= <-])). cbv zeta in H.
      destruct (Z.leb_spec (Z.of_nat (njobs th)) (job th + 1)).
      * rewrite H.
        apply lane_idle; [done|done|done|unfold remaining; simpl; lia|apply quiet_rel_next].
      * destruct (py_index (jobs th) (job th + 1)).
        -- destruct H as (th' & w' & -> & Hpr & Hj & Hn & Hnj & _ & _ & Hi & Hk & _ & _ & Hprocs).
           eapply lane_spawn;
             [done|done|unfold remaining; rewrite Hnj, Hj; lia|exact Hprocs|done|done
             |simpl; lia|simpl; rewrite Hi; simpl; lia|simpl; by destruct (proc_life _ _)
             |done|].
           intros pid' q Hp' Hq. assert (pid' = pid) as -> by congruence.
           unfold exited in He. rewrite Hq in He.
           destruct (dies q) as [d|]; [|done].
           apply bool_decide_eq_true in He. exists d. simpl. split; [done|lia].
        -- rewrite H. apply quiet_rel_next.
    + rewrite (check_in_running th w pid Hp He).
      apply lane_idle; [done|done|done|done|apply quiet_rel_next].
  - pose proof (check_in_idle th w) as H. rewrite Hp in H.
    specialize (H ltac:(done)). cbv zeta in H.
    destruct (Z.leb_spec (Z.of_nat (njobs th)) (job th + 1)).
    + rewrite H.
      apply lane_idle; [done|done|done|unfold remaining; simpl; lia|apply quiet_rel_refl].
    + destruct (py_index (jobs th) (job th + 1)).
      * destruct H as (th' & w' & -> & Hpr & Hj & Hn & Hnj & _ & _ & Hi & Hk & _ & _ & Hprocs).
        eapply lane_spawn;
          [done|done|unfold remaining; rewrite Hnj, Hj; lia|exact Hprocs|done|done
          |simpl; lia|simpl; rewrite Hi; simpl; lia|simpl; by destruct (proc_life _ _)
          |done|].
        intros pid' q Hp'. congruence.
      * rewrite H. apply quiet_rel_refl.
Qed.

Lemma runs_check_in sp pre th post :
  runs sp (pre ++ th :: post) (check_in th) (fun th' ths' => ths' = pre ++ th' :: post).
Proof.
  intros w. pose proof (check_in_step th w) as H.
  destruct (check_in th w) as [th' w'|e w'|w']; [| |done].
  - eexists. split; [done|]. by apply rtc_once, sys_lane.
  - eexists. by apply rtc_once, sys_quiet.
Qed.

(** *** One call of [check_status] *)

Lemma check_status_fields th w b th' w' :
  check_status th w = Ok (b, th') w' ->
  name th' = name th /\ njobs th' = njobs th /\ process th' = process th
  /\ job th' = job th /\ finished th' = finished th /\ jobs th' = jobs th
  /\ to_stdout th' = to_stdout th /\ log_loc th' = log_loc th
  /\ timeout th' = timeout th /\ lane_size th' = lane_size th.
Proof.
  unfold check_status, bind, perf_counter, ret. intros H.
  destruct (num_rendered th w) as [n w1|e w1|w1]; [|done..].
  destruct (prev_n th <? n); [by simplify_eq|].
  destruct (Qle_bool _ _); by simplify_eq.
Qed.

Lemma runs_check_status sp pre th post :
  runs sp (pre ++ th :: post) (check_status th)
       (fun r ths' => ths' = pre ++ r.2 :: post).
Proof.
  intros w. pose proof (quiet_check_status th w) as Hq.
  destruct (check_status th w) as [[b th'] w'|e w'|w'] eqn:Hcs; [| |done].
  - eexists. split; [done|]. apply rtc_once, sys_lane.
    destruct (check_status_fields _ _ _ _ _ Hcs) as (?&Hn&?&Hj&_).
    apply lane_idle; [done|done|done|unfold remaining; simpl; rewrite Hj, Hn; lia|done].
  - eexists. by apply rtc_once, sys_quiet.
Qed.

(** *** The supervision of the lanes in one pass of the loop *)

Lemma runs_supervise sp pre t th post pbars :
  runs sp (pre ++ th :: post) (supervise t th pbars)
       (fun r ths' => ths' = pre ++ r.1 :: post).
Proof.
  unfold supervise. destruct (finished th); [by apply runs_ret|].
  eapply runs_bind; [apply runs_check_in|]. intros th1 ? ->. cbv beta.
  eapply runs_bind; [apply runs_quiet, quiet_success|]. intros ok ? ->. cbv beta.
  eapply runs_bind with (P := fun r ths' => ths' = pre ++ r.1 :: post).
  - destruct ok.
    + eapply runs_bind; [apply runs_quiet, quiet_num_rendered|]. intros n ? ->.
      by apply runs_ret.
    + eapply runs_bind; [apply runs_check_status|]. intros [b th2] ? ->. simpl.
      destruct b.
      * eapply runs_bind; [apply runs_quiet, quiet_num_rendered|]. intros n ? ->.
        by apply runs_ret.
      * eapply runs_bind; [apply runs_quiet, quiet_print|]. intros ? ? ->.
        by apply runs_ret.
  - intros [th3 pbars3] ? ->. simpl.
    destruct (pbars3 !! t); [|apply runs_raise].
    eapply runs_bind; [apply runs_quiet, quiet_pb_set_description|]. intros ? ? ->.
    by apply runs_ret.
Qed.

Lemma runs_supervise_all sp ths : forall pre t pbars,
  runs sp (pre ++ ths) (supervise_all t ths pbars)
       (fun r ths' => ths' = pre ++ r.1).
Proof.
  induction ths as [|th rest IH]; intros pre t pbars; simpl.
  - by apply runs_ret.
  - eapply runs_bind; [apply runs_supervise|]. intros [th1 pbars1] ? ->. simpl.
    eapply runs_bind.
    { rewrite (cons_middle th1 pre rest), app_assoc. apply IH. }
    intros [rest1 pbars2] ? ->. simpl. apply runs_ret. simpl.
    by rewrite <- app_assoc.
Qed.

Lemma runs_check_in_all sp ths : forall pre,
  runs sp (pre ++ ths) (check_in_all ths) (fun ths1 ths' => ths' = pre ++ ths1).
Proof.
  induction ths as [|th rest IH]; intros pre; simpl.
  - by apply runs_ret.
  - eapply runs_bind; [apply runs_check_in|]. intros th1 ? ->. simpl.
    eapply runs_bind.
    { rewrite (cons_middle th1 pre rest), app_assoc. apply IH. }
    intros rest1 ? ->. apply runs_ret. by rewrite <- app_assoc.
Qed.

Lemma runs_loop_body sp tick0 report_every st :
  runs sp (threads (l_self st)) (loop_body tick0 report_every st)
       (fun st' ths' => ths' = threads (l_self st')).
Proof.
  unfold loop_body.
  eapply runs_bind; [apply runs_quiet, quiet_sleep|]. intros ? ? ->.
  eapply runs_bind; [apply runs_quiet, quiet_manager_num_rendered|]. intros ? ? ->.
  eapply runs_bind; [apply runs_quiet, quiet_pb_set_description|]. intros ? ? ->.
  eapply runs_bind; [apply runs_quiet, quiet_manager_num_rendered|]. intros ? ? ->.
  eapply runs_bind; [apply runs_quiet, quiet_pb_refresh|]. intros ? ? ->.
  eapply runs_bind; [apply runs_quiet, quiet_perf_counter|]. intros now ? ->.
  eapply runs_bind.
  { apply runs_quiet. destruct (Qle_bool _ _); quiet_tac. }
  intros ? ? ->.
  eapply runs_bind; [apply (runs_supervise_all sp _ [])|]. intros [ths pbars] ? ->.
  by apply runs_ret.
Qed.

Lemma runs_poll_loop fuel tick0 report_every : forall st,
  runs true (threads (l_self st)) (poll_loop fuel tick0 report_every st)
       (fun st' ths' => ths' = threads (l_self st')).
Proof.
  induction fuel as [|fuel IH]; intros st; simpl.
  - intros w. split; [done|]. eexists. apply rtc_refl.
  - eapply runs_bind; [apply runs_quiet, quiet_any_running|]. intros b ? ->.
    destruct b; [|by apply runs_ret].
    eapply runs_bind; [apply runs_loop_body|]. intros st' ? ->. apply IH.
Qed.

Lemma runs_start fuel self progress_bars tick0 report_every :
  runs true (threads self) (start fuel self progress_bars tick0 report_every)
       (fun self' ths' => ths' = threads self').
Proof.
  unfold start.
  eapply runs_bind; [apply runs_quiet, quiet_perf_counter|]. intros ? ? ->.
  eapply runs_bind; [apply runs_quiet, quiet_datetime_now|]. intros ? ? ->.
  eapply runs_bind; [apply (runs_check_in_all true _ [])|]. intros ths ? ->.
  eapply runs_bind; [apply runs_quiet, quiet_perf_counter|]. intros ? ? ->.
  destruct progress_bars; [|by apply runs_ret].
  eapply runs_bind; [apply runs_quiet, quiet_make_pbars|]. intros ? ? ->.
  eapply runs_bind; [apply runs_quiet, quiet_tqdm|]. intros ? ? ->.
  eapply runs_bind; [apply runs_poll_loop|]. intros st ? ->.
  eapply runs_bind; [apply runs_quiet, quiet_pb_close|]. intros ? ? ->.
  eapply runs_bind; [apply runs_quiet, quiet_update_report|]. intros ? ? ->.
  by apply runs_ret.
Qed.

(** ** The safety invariant: one process per lane at a time *)

Lemma lookup_snoc_inv {A} (l : list A) x i y :
  (l ++ [x]) !! i = Some y ->
  (i < length l /\ l !! i = Some y) \/ (i = length l /\ y = x).
Proof.
  intros [H|[Hi H]]%lookup_app_Some.
  - left. split; [by eapply lookup_lt_Some|done].
  - apply list_lookup_singleton_Some in H as [H ->]. right. split; [lia|done].
Qed.

Lemma lane_ok_quiet w w' th th' :
  quiet_rel w w' -> name th' = name th -> process th' = process th ->
  lane_ok w th -> lane_ok w' th'.
Proof.
  intros (Hi & Hp & _) Hn Hpr Hok pid p Hl Ho Hne.
  rewrite Hp in Hl. rewrite Hn in Ho. rewrite Hpr in Hne.
  destruct (Hok pid p Hl Ho Hne) as (d & Hd & Hle). exists d. split; [done|lia].
Qed.

Lemma names_middle pre (th th' : BlenderThread) post :
  name th' = name th ->
  name <$> (pre ++ th' :: post) = name <$> (pre ++ th :: post).
Proof. intros Hn. by rewrite !fmap_app, !fmap_cons, Hn. Qed.

Lemma NoDup_middle_ne pre (th th2 : BlenderThread) post :
  NoDup (name <$> (pre ++ th :: post)) ->
  th2 ∈ pre ++ post -> name th2 <> name th.
Proof.
  rewrite fmap_app, fmap_cons. intros (_ & Hpre & Hpost)%NoDup_app.
  apply NoDup_cons in Hpost as [Hpost _].
  intros [Hin|Hin]%elem_of_app Heq.
  - apply (Hpre (name th2)); [apply list_elem_of_fmap; eauto|].
    rewrite Heq. apply elem_of_cons. by left.
  - apply Hpost. rewrite <- Heq. apply list_elem_of_fmap. eauto.
Qed.

Lemma safe_step s s' : sys_step s s' -> Safe s -> Safe s'.
Proof.
  intros Hstep (Hseq & Hborn & Hnd & Hok).
  destruct Hstep as [ths w w' Hq|pre th post w th' w' Hlane]; simpl in *.
  - pose proof Hq as (Hi & Hp & _).
    split; [|split; [|split]]; simpl.
    + unfold sequential. by rewrite Hp.
    + intros pid p Hl. rewrite Hp in Hl. specialize (Hborn pid p Hl). lia.
    + done.
    + eapply Forall_impl; [done|]. intros th Hth. by eapply lane_ok_quiet.
  - apply Forall_app in Hok as [Hokpre Hokpost].
    apply Forall_cons in Hokpost as [Hokth Hokpost].
    destruct Hlane as [Hn Hnj Hpr Hrem Hq
                      |p Hn Hnj Hrem Hprocs Hk Ho Hb1 Hb2 Hd Hpr Hdead].
    + pose proof Hq as (Hi & Hp & _).
      split; [|split; [|split]]; simpl.
      * unfold sequential. by rewrite Hp.
      * intros pid p Hl. rewrite Hp in Hl. specialize (Hborn pid p Hl). lia.
      * by rewrite (names_middle _ _ _ _ Hn).
      * apply Forall_app. split; [|apply Forall_cons; split].
        -- eapply Forall_impl; [done|]. intros th2 Hth. by eapply lane_ok_quiet.
        -- by eapply lane_ok_quiet.
        -- eapply Forall_impl; [done|]. intros th2 Hth. by eapply lane_ok_quiet.
    + assert (instant w <= instant w') as Hi by lia.
      (* every earlier process of this lane has exited by [born p] *)
      assert (forall pid q, procs w !! pid = Some q -> p_owner q = name th ->
                exists d, dies q = Some d /\ d <= born p) as Hgone.
      { intros pid q Hl Hoq.
        destruct (decide (process th = Some pid)) as [Heq|Hne]; [by eapply Hdead|].
        destruct (Hokth pid q Hl Hoq Hne) as (d & ? & ?). exists d. split; [done|lia]. }
      assert (forall th2, th2 ∈ pre ++ post -> lane_ok w th2 -> lane_ok w' th2) as Hother.
      { intros th2 Hin Hth2 pid q Hl Hoq Hne. rewrite Hprocs in Hl.
        apply lookup_snoc_inv in Hl as [[_ Hl]|[_ ->]].
        - destruct (Hth2 pid q Hl Hoq Hne) as (d & ? & ?). exists d. split; [done|lia].
        - exfalso. apply (NoDup_middle_ne pre th th2 post Hnd Hin). congruence. }
      split; [|split; [|split]]; simpl.
      * intros pid1 pid2 p1 p2 Hl1 Hl2 Hlt Hsame. rewrite Hprocs in Hl1, Hl2.
        apply lookup_snoc_inv in Hl2 as [[Hlt2 Hl2]|[-> ->]].
        -- apply lookup_snoc_inv in Hl1 as [[_ Hl1]|[-> _]]; [|lia].
           by eapply Hseq.
        -- apply lookup_snoc_inv in Hl1 as [[_ Hl1]|[-> _]]; [|lia].
           eapply Hgone; [done|congruence].
      * intros pid q Hl. rewrite Hprocs in Hl.
        apply lookup_snoc_inv in Hl as [[_ Hl]|[_ ->]]; [|lia].
        specialize (Hborn pid q Hl). lia.
      * by rewrite (names_middle _ _ _ _ Hn).
      * apply Forall_app. split; [|apply Forall_cons; split].
        -- apply Forall_forall. intros th2 Hin. apply Hother.
           ++ apply elem_of_app. by left.
           ++ by eapply Forall_forall in Hokpre.
        -- intros pid q Hl Hoq Hne. rewrite Hprocs in Hl. rewrite Hpr in Hne.
           apply lookup_snoc_inv in Hl as [[_ Hl]|[-> _]]; [|done].
           rewrite Hn in Hoq.
           destruct (Hgone pid q Hl Hoq) as (d & ? & ?). exists d. split; [done|lia].
        -- apply Forall_forall. intros th2 Hin. apply Hother.
           ++ apply elem_of_app. by right.
           ++ by eapply Forall_forall in Hokpost.
Qed.

Lemma safe_steps s s' : sys_steps s s' -> Safe s -> Safe s'.
Proof. induction 1; eauto using safe_step. Qed.

(** An invariant of the transition system holds wherever a run stops. *)
Lemma runs_invariant {A} (I : Sys -> Prop) sp ths (m : M A) post w :
  (forall s s', sys_step s s' -> I s -> I s') ->
  runs sp ths m post -> I (ths, w) ->
  match m w with
  | Ok a w' => exists ths', post a ths' /\ I (ths', w')
  | Raise _ w' | Spin w' => exists ths', I (ths', w')
  end.
Proof.
  intros Hinv Hruns HI.
  assert (forall s s', sys_steps s s' -> I s -> I s') as Hinvs.
  { induction 1; eauto. }
  specialize (Hruns w). destruct (m w) as [a w'|e w'|w'].
  - destruct Hruns as (ths' & ? & ?). eauto.
  - destruct Hruns as (ths' & ?). eauto.
  - destruct Hruns as (_ & ths' & ?). eauto.
Qed.

(** *** The lanes the manager's constructor builds *)

Lemma bind_Ok {A B} (m : M A) (k : A -> M B) w b w' :
  bind m k w = Ok b w' -> exists a w1, m w = Ok a w1 /\ k a w1 = Ok b w'.
Proof. unfold bind. destruct (m w) as [a w1| |]; [eauto|done..]. Qed.

Lemma BlenderThread__init__inv command0 jobs0 log_loc0 name0 timeout0 to_stdout0
    MAX_PER_JOB w th w' :
  BlenderThread__init__ command0 jobs0 log_loc0 name0 timeout0 to_stdout0 MAX_PER_JOB w
  = Ok th w' ->
  split_into_batches jobs0 MAX_PER_JOB = inr (jobs th)
  /\ njobs th = length (jobs th) /\ lane_size th = length jobs0
  /\ process th = None /\ job th = (-1)%Z /\ finished th = false /\ name th = name0
  /\ timeout th = timeout0 /\ prev_n th = 0 /\ timer th = perf E (instant w)
  /\ to_stdout th = to_stdout0.
Proof.
  intros Hinit.
  destruct (split_into_batches jobs0 MAX_PER_JOB) as [e|batches] eqn:Hb.
  - by rewrite (BlenderThread__init__raise _ _ _ _ _ _ _ _ _ Hb) in Hinit.
  - unfold BlenderThread__init__ in Hinit. rewrite Hb in Hinit.
    destruct to_stdout0, log_loc0; cbv [bind ret perf_counter open_append] in Hinit;
      by simplify_eq.
Qed.

Lemma make_threads_names command0 jsons logs print_to_stdout MAX_PER_JOB count :
  forall i w ths w',
    make_threads command0 jsons logs print_to_stdout MAX_PER_JOB i count w = Ok ths w' ->
    name <$> ths = pretty <$> seq i count.
Proof.
  induction count as [|count IH]; intros i w ths w' H; simpl in H.
  - by injection H as <- _.
  - destruct (jsons !! i) as [jobs_i|]; [|done].
    destruct (logs !! i) as [log_i|]; [|done].
    apply bind_Ok in H as (th & w1 & Hth & H).
    apply bind_Ok in H as (rest & w2 & Hrest & H).
    injection H as <- _. simpl. f_equal.
    + by apply BlenderThread__init__inv in Hth as (_&_&_&_&_&_&?&_).
    + by eapply IH.
Qed.

Lemma BlenderThreadManager__init__names command0 jsons output_directory print_to_stdout
    MAX_PER_JOB w m w' :
  BlenderThreadManager__init__ command0 jsons output_directory print_to_stdout MAX_PER_JOB w
  = Ok m w' ->
  name <$> threads m = pretty <$> seq 0 (length jsons).
Proof.
  unfold BlenderThreadManager__init__. intros H.
  apply bind_Ok in H as (? & ? & _ & H).
  apply bind_Ok in H as (? & ? & _ & H).
  apply bind_Ok in H as (? & ? & _ & H).
  apply bind_Ok in H as (ths & ? & Hths & H).
  injection H as <- _. simpl. by eapply make_threads_names.
Qed.

Lemma safe_initially command0 jsons output_directory print_to_stdout MAX_PER_JOB w m w' :
  procs w = [] ->
  BlenderThreadManager__init__ command0 jsons output_directory print_to_stdout MAX_PER_JOB w
  = Ok m w' ->
  Safe (threads m, w') /\ procs w' = [].
Proof.
  intros Hw Hinit.
  pose proof (quiet_BlenderThreadManager__init__ command0 jsons output_directory
                print_to_stdout MAX_PER_JOB w) as Hq.
  rewrite Hinit in Hq. destruct Hq as (_ & Hp & _). rewrite Hw in Hp.
  split; [|done]. split; [|split; [|split]]; simpl.
  - intros ? ? ? ? Hl. by rewrite Hp in Hl.
  - intros ? ? Hl. by rewrite Hp in Hl.
  - rewrite (BlenderThreadManager__init__names _ _ _ _ _ _ _ _ Hinit).
    apply NoDup_fmap_2; [apply _|apply NoDup_seq].
  - apply Forall_forall. intros th _ ? ? Hl. by rewrite Hp in Hl.
Qed.

(** C8: in a session run by a manager built by the constructor, the
    processes of one lane (those carrying the lane's name) run strictly
    one after the other: of two of them, the one started first has exited
    by the instant the other is started; so at no instant are two
    processes of one lane alive.  This holds of the process table at
    whatever point the session stands, whether [start] has returned,
    raised or is still polling. *)
Theorem lane_runs_one_process_at_a_time command0 jsons output_directory print_to_stdout
    MAX_PER_JOB w_init self w0 fuel progress_bars tick0 report_every :
  procs w_init = [] ->
  BlenderThreadManager__init__ command0 jsons output_directory print_to_stdout MAX_PER_JOB
    w_init = Ok self w0 ->
  let w := world_of (start fuel self progress_bars tick0 report_every w0) in
  forall pid1 pid2 p1 p2,
    procs w !! pid1 = Some p1 -> procs w !! pid2 = Some p2 ->
    p_owner p1 = p_owner p2 ->
    (pid1 < pid2 -> exists d, dies p1 = Some d /\ d <= born p2)
    /\ (forall t, live_at p1 t -> live_at p2 t -> pid1 = pid2).
Proof.
  intros Hw Hinit w.
  destruct (safe_initially command0 jsons output_directory print_to_stdout MAX_PER_JOB
              w_init self w0 Hw Hinit) as [Hsafe _].
  assert (sequential w) as Hseq.
  { pose proof (runs_invariant Safe true (threads self)
                  (start fuel self progress_bars tick0 report_every) _ w0
                  safe_step (runs_start fuel self progress_bars tick0 report_every)
                  Hsafe) as H.
    subst w. destruct (start _ _ _ _ _ _) as [a w'|e w'|w']; simpl.
    - by destruct H as (? & _ & (? & _)).
    - by destruct H as (? & (? & _)).
    - by destruct H as (? & (? & _)). }
  intros pid1 pid2 p1 p2 Hl1 Hl2 Hsame. split; [intros Hlt; by eapply Hseq|].
  intros t [Hb1 Hd1] [Hb2 Hd2].
  destruct (Nat.lt_trichotomy pid1 pid2) as [Hlt|[Heq|Hgt]]; [|done|].
  - destruct (Hseq pid1 pid2 p1 p2 Hl1 Hl2 Hlt Hsame) as (d & Hd & Hle).
    rewrite Hd in Hd1. lia.
  - destruct (Hseq pid2 pid1 p2 p1 Hl2 Hl1 Hgt (eq_sym Hsame)) as (d & Hd & Hle).
    rewrite Hd in Hd2. lia.
Qed.

(** ** The polling loop *)

(** *** The loop test *)

Lemma any_running_spec ths : forall w,
  exists b w',
    any_running ths w = Ok b w' /\ quiet_rel w w'
    /\ (b = false ->
        forall th pid, th ∈ ths -> process th = Some pid -> exited w' pid = true)
    /\ (b = true ->
        exists th pid p t,
          th ∈ ths /\ process th = Some pid /\ procs w !! pid = Some p
          /\ instant w <= t /\ t < instant w'
          /\ match dies p with Some d => t < d | None => True end).
Proof.
  induction ths as [|th rest IH]; intros w; simpl.
  - exists false, w. split; [done|]. split; [apply quiet_rel_refl|].
    split; [|done]. intros _ th pid Hin. by apply elem_of_nil in Hin.
  - unfold bind, is_running. destruct (process th) as [pid|] eqn:Hp.
    + unfold poll_is_None. destruct (exited w pid) eqn:He; simpl.
      * destruct (IH (next_instant w)) as (b & w' & Hrun & Hq & Hf & Ht).
        exists b, w'. split; [done|].
        split; [eapply quiet_rel_trans; [apply quiet_rel_next|done]|].
        split.
        -- intros Hb th' pid' [->|Hin]%elem_of_cons Hp'.
           ++ assert (pid' = pid) as -> by congruence.
              eapply exited_mono; [|done].
              eapply quiet_rel_trans; [apply quiet_rel_next|done].
           ++ by eapply Hf.
        -- intros Hb. destruct (Ht Hb) as (th' & pid' & p & t & Hin & ? & ? & ? & ? & ?).
           exists th', pid', p, t. simpl in *.
           repeat split; try done; [apply elem_of_cons; by right|lia].
      * exists true, (next_instant w). split; [done|].
        split; [apply quiet_rel_next|]. split; [done|]. intros _.
        unfold exited in He. destruct (procs w !! pid) as [p|] eqn:Hl; [|done].
        exists th, pid, p, (instant w).
        repeat split; try done; [apply elem_of_cons; by left|simpl; lia|].
        destruct (dies p) as [d|]; [|done].
        apply bool_decide_eq_false in He. lia.
    + destruct (IH w) as (b & w' & Hrun & Hq & Hf & Ht).
      exists b, w'. unfold ret. split; [done|]. split; [done|]. split.
      * intros Hb th' pid' [->|Hin]%elem_of_cons Hp'; [congruence|by eapply Hf].
      * intros Hb. destruct (Ht Hb) as (th' & pid' & p & t & Hin & ?).
        exists th', pid', p, t. split; [apply elem_of_cons; by right|done].
Qed.

(** When the loop is left, no lane has a running process. *)
Lemma poll_loop_exit fuel tick0 report_every : forall st w st' w',
  poll_loop fuel tick0 report_every st w = Ok st' w' ->
  forall th pid, th ∈ threads (l_self st') -> process th = Some pid ->
                 exited w' pid = true.
Proof.
  induction fuel as [|fuel IH]; intros st w st' w' H; simpl in H; [done|].
  apply bind_Ok in H as (b & w1 & Hrun & H).
  destruct (any_running_spec (threads (l_self st)) w) as (b' & w1' & Hrun' & _ & Hf & _).
  rewrite Hrun in Hrun'. injection Hrun' as <- <-.
  destruct b.
  - apply bind_Ok in H as (st1 & w2 & _ & H). by eapply IH.
  - injection H as <- <-. by apply Hf.
Qed.

Lemma start_exit fuel self tick0 report_every w self' w' :
  start fuel self true tick0 report_every w = Ok self' w' ->
  forall th pid, th ∈ threads self' -> process th = Some pid -> exited w' pid = true.
Proof.
  unfold start. intros H.
  apply bind_Ok in H as (? & ? & _ & H).
  apply bind_Ok in H as (? & ? & _ & H).
  apply bind_Ok in H as (? & ? & _ & H).
  apply bind_Ok in H as (? & ? & _ & H).
  apply bind_Ok in H as (? & ? & _ & H).
  apply bind_Ok in H as (? & ? & _ & H).
  apply bind_Ok in H as (st & w1 & Hloop & H).
  apply bind_Ok in H as ([] & w2 & Hclose & H).
  apply bind_Ok in H as ([] & w3 & Hrep & H).
  injection H as <- <-.
  intros th pid Hin Hp.
  pose proof (quiet_pb_close (l_pbar st) w1) as Hq1. rewrite Hclose in Hq1.
  pose proof (quiet_update_report (l_self st) w2) as Hq2. rewrite Hrep in Hq2.
  eapply exited_mono; [exact (quiet_rel_trans _ _ _ Hq1 Hq2)|].
  by eapply poll_loop_exit.
Qed.

(** A test made when every lane's process has exited ends the loop. *)
Lemma any_running_all_exited ths : forall w,
  (forall th pid, th ∈ ths -> process th = Some pid -> exited w pid = true) ->
  exists w', any_running ths w = Ok false w' /\ quiet_rel w w'.
Proof.
  induction ths as [|th rest IH]; intros w Hex; simpl.
  - exists w. split; [done|apply quiet_rel_refl].
  - unfold bind, is_running. destruct (process th) as [pid|] eqn:Hp.
    + unfold poll_is_None. rewrite (Hex th pid); [|apply elem_of_cons; by left|done].
      simpl. destruct (IH (next_instant w)) as (w' & Hrun & Hq).
      { intros th' pid' Hin Hp'. eapply exited_mono; [apply quiet_rel_next|].
        eapply Hex; [apply elem_of_cons; by right|done]. }
      exists w'. split; [done|]. eapply quiet_rel_trans; [apply quiet_rel_next|done].
    + unfold ret. apply IH. intros th' pid' Hin Hp'.
      eapply Hex; [apply elem_of_cons; by right|done].
Qed.

Lemma poll_loop_stops fuel tick0 report_every st w :
  (forall th pid, th ∈ threads (l_self st) -> process th = Some pid ->
                  exited w pid = true) ->
  exists w', poll_loop (S fuel) tick0 report_every st w = Ok st w' /\ quiet_rel w w'.
Proof.
  intros Hex. destruct (any_running_all_exited _ w Hex) as (w' & Hrun & Hq).
  exists w'. split; [|done]. simpl. unfold bind. by rewrite Hrun.
Qed.

(** A lane keeps a process that never exits, and the loop is never left
    while a lane holds one. *)
Lemma holds_immortal_step s s' : sys_step s s' -> holds_immortal s -> holds_immortal s'.
Proof.
  intros Hstep (th & pid & p & Hin & Hp & Hl & Hd).
  destruct Hstep as [ths w w' (_ & Hprocs & _)|pre th0 post w th0' w' Hlane]; simpl in *.
  - exists th, pid, p. simpl. by rewrite Hprocs.
  - assert (th = th0 \/ th ∈ pre ++ post) as [->|Hother].
    { apply elem_of_app in Hin as [?|[->|?]%elem_of_cons]; [right|by left|right];
        apply elem_of_app; eauto. }
    + destruct Hlane as [_ _ Hpr _ (_ & Hprocs & _)|q _ _ _ _ _ _ _ _ _ _ Hdead].
      * exists th0', pid, p. simpl. rewrite Hprocs, Hpr.
        split; [|done]. apply elem_of_app. right. apply elem_of_cons. by left.
      * destruct (Hdead pid p Hp Hl) as (d & ? & _). congruence.
    + assert (th ∈ pre ++ th0' :: post) as Hin'.
      { apply elem_of_app in Hother as [?|?]; apply elem_of_app; [by left|right].
        apply elem_of_cons. by right. }
      exists th, pid, p. simpl. split; [done|]. split; [done|]. split; [|done].
      destruct Hlane as [_ _ _ _ (_ & Hprocs & _)|q _ _ _ Hprocs _ _ _ _ _ _ _].
      * by rewrite Hprocs.
      * rewrite Hprocs. by apply lookup_app_l_Some.
Qed.

Lemma poll_loop_never_left fuel tick0 report_every st w st' w' :
  holds_immortal (threads (l_self st), w) ->
  poll_loop fuel tick0 report_every st w <> Ok st' w'.
Proof.
  intros HJ Hloop.
  pose proof (runs_invariant holds_immortal true (threads (l_self st))
                (poll_loop fuel tick0 report_every st) _ w
                holds_immortal_step (runs_poll_loop fuel tick0 report_every st) HJ) as H.
  rewrite Hloop in H. destruct H as (? & -> & th & pid & p & Hin & Hp & Hl & Hd).
  pose proof (poll_loop_exit fuel tick0 report_every st w st' w' Hloop th pid Hin Hp) as He.
  simpl in Hl. unfold exited in He. by rewrite Hl, Hd in He.
Qed.

Lemma holds_immortal_quiet {A} (m : M A) ths w a w' :
  quiet m -> m w = Ok a w' -> holds_immortal (ths, w) -> holds_immortal (ths, w').
Proof.
  intros Hq Hm. specialize (Hq w). rewrite Hm in Hq.
  apply holds_immortal_step. by apply sys_quiet.
Qed.

(** If the seeding of the lanes leaves some lane with a process that
    never exits, [start] never returns. *)
Lemma start_never_returns fuel self tick0 report_every w :
  (forall ths w1,
      check_in_all (threads self) (next_instant (next_instant w)) = Ok ths w1 ->
      holds_immortal (ths, w1)) ->
  forall self' w', start fuel self true tick0 report_every w <> Ok self' w'.
Proof.
  intros Hseed self' w' H. unfold start in H.
  apply bind_Ok in H as (t & w1 & Ht & H). injection Ht as <- <-.
  apply bind_Ok in H as (d & w2 & Hd & H). injection Hd as <- <-.
  apply bind_Ok in H as (ths & w3 & Hths & H).
  apply Hseed in Hths.
  apply bind_Ok in H as (last & w4 & Hlast & H).
  apply (holds_immortal_quiet _ _ _ _ _ quiet_perf_counter Hlast) in Hths.
  apply bind_Ok in H as (pbars & w5 & Hpbars & H).
  apply (holds_immortal_quiet _ _ _ _ _ (quiet_make_pbars _) Hpbars) in Hths.
  apply bind_Ok in H as (pbar & w6 & Hpbar & H).
  apply (holds_immortal_quiet _ _ _ _ _ (quiet_tqdm _ _) Hpbar) in Hths.
  apply bind_Ok in H as (st & w7 & Hloop & _).
  by eapply poll_loop_never_left in Hloop.
Qed.

(** *** The measure decreases *)

Lemma max_list_le_bound (l : list nat) b :
  (forall x, x ∈ l -> x <= b) -> max_list l <= b.
Proof.
  induction l as [|x l IH]; intros H; simpl; [lia|].
  apply Nat.max_lub.
  - apply H, elem_of_cons. by left.
  - apply IH. intros y Hy. apply H, elem_of_cons. by right.
Qed.

Lemma deadline_ge w pid p d :
  procs w !! pid = Some p -> dies p = Some d -> d <= deadline w.
Proof.
  intros Hl Hd. apply max_list_elem_of_le, list_elem_of_omap.
  exists p. split; [by eapply list_elem_of_lookup_2|done].
Qed.

Lemma mortal_gap D w : mortal D w -> gap w <= D.
Proof.
  intros Hm. unfold gap, deadline.
  assert (max_list (omap dies (procs w)) <= instant w + D); [|lia].
  apply max_list_le_bound. intros d (p & Hin & Hd)%list_elem_of_omap.
  apply list_elem_of_lookup in Hin as [pid Hl].
  destruct (Hm pid p Hl) as (Hb & d' & Hd' & Hle). simplify_eq. lia.
Qed.

Lemma mortal_quiet D w w' : quiet_rel w w' -> mortal D w -> mortal D w'.
Proof.
  intros (Hi & Hp & _) Hm pid p Hl. rewrite Hp in Hl.
  destruct (Hm pid p Hl) as (? & d & ? & ?). split; [lia|eauto].
Qed.

Lemma gap_quiet w w' : quiet_rel w w' -> gap w' <= gap w.
Proof. intros (Hi & Hp & _). unfold gap, deadline. rewrite Hp. lia. Qed.

Lemma sum_remaining_middle pre (th : BlenderThread) post :
  sum_list (remaining <$> (pre ++ th :: post))
  = sum_list (remaining <$> pre) + remaining th + sum_list (remaining <$> post).
Proof. rewrite fmap_app, sum_list_app, fmap_cons. simpl. lia. Qed.

Section Liveness.

(** Every worker process exits within [D] instants of its start. *)
Variable D : nat.
Hypothesis workers_exit : forall pid, exists d, proc_life E pid = Some d /\ d <= D.

Lemma potential_step s s' :
  sys_step s s' -> mortal D s.2 -> mortal D s'.2 /\ potential D s' <= potential D s.
Proof.
  intros Hstep Hm.
  destruct Hstep as [ths w w' Hq|pre th post w th' w' Hlane]; simpl in *.
  - split; [by eapply mortal_quiet|].
    unfold potential; simpl. pose proof (gap_quiet w w' Hq). lia.
  - destruct Hlane as [Hn Hnj Hpr Hrem Hq
                      |p Hn Hnj Hrem Hprocs Hk Ho Hb1 Hb2 Hd Hpr Hdead].
    + split; [by eapply mortal_quiet|].
      unfold potential; simpl. rewrite !sum_remaining_middle.
      pose proof (gap_quiet w w' Hq). nia.
    + assert (mortal D w') as Hm'.
      { intros pid q Hl. rewrite Hprocs in Hl.
        apply lookup_snoc_inv in Hl as [[_ Hl]|[_ ->]].
        - destruct (Hm pid q Hl) as (? & d & ? & ?). split; [lia|eauto].
        - split; [lia|]. destruct (workers_exit (length (procs w))) as (d & Hlife & Hle).
          rewrite Hlife in Hd. simpl in Hd. exists (born p + d). split; [done|lia]. }
      split; [done|].
      unfold potential; simpl. rewrite !sum_remaining_middle.
      pose proof (mortal_gap D w' Hm'). nia.
Qed.

Lemma potential_steps s s' :
  sys_steps s s' -> mortal D s.2 -> mortal D s'.2 /\ potential D s' <= potential D s.
Proof.
  induction 1 as [|s1 s2 s3 Hstep _ IH]; intros Hm; [split; [done|lia]|].
  destruct (potential_step _ _ Hstep Hm) as [Hm2 Hle].
  destruct (IH Hm2) as [Hm3 Hle']. split; [done|lia].
Qed.

(** A test that finds a running process uses up some of the time left
    to the processes started so far. *)
Lemma any_running_true_gap ths w w' :
  mortal D w -> any_running ths w = Ok true w' -> quiet_rel w w' /\ gap w' < gap w.
Proof.
  intros Hm Hrun.
  destruct (any_running_spec ths w) as (b & w1 & Hrun' & Hq & _ & Ht).
  rewrite Hrun in Hrun'. injection Hrun' as <- <-. split; [done|].
  destruct (Ht eq_refl) as (th & pid & p & t & _ & _ & Hl & Ht1 & Ht2 & Hlive).
  destruct (Hm pid p Hl) as (_ & d & Hd & _). rewrite Hd in Hlive.
  pose proof (deadline_ge w pid p d Hl Hd) as Hdl.
  destruct Hq as (_ & Hp & _). unfold gap, deadline in *. rewrite Hp. lia.
Qed.

Lemma poll_loop_terminates fuel tick0 report_every : forall st w,
  mortal D w -> potential D (threads (l_self st), w) < fuel ->
  forall w', poll_loop fuel tick0 report_every st w <> Spin w'.
Proof.
  induction fuel as [|fuel IH]; intros st w Hm Hpot w'; [lia|]. simpl.
  unfold bind at 1.
  destruct (any_running_spec (threads (l_self st)) w) as (b & w1 & Hrun & Hq & _).
  rewrite Hrun. destruct b; [|done].
  destruct (any_running_true_gap _ _ _ Hm Hrun) as [_ Hgap].
  pose proof (mortal_quiet D w w1 Hq Hm) as Hm1.
  set (I := fun s : Sys =>
              mortal D s.2 /\ potential D s <= potential D (threads (l_self st), w1)).
  assert (forall s s', sys_step s s' -> I s -> I s') as Hinv.
  { intros s s' Hstep [Hms Hles].
    destruct (potential_step _ _ Hstep Hms). split; [done|lia]. }
  assert (I (threads (l_self st), w1)) as HI by (split; [done|lia]).
  pose proof (runs_invariant I false (threads (l_self st))
                (loop_body tick0 report_every st) _ w1 Hinv
                (runs_loop_body false tick0 report_every st) HI) as Hbody.
  pose proof (runs_loop_body false tick0 report_every st w1) as Hr.
  unfold bind.
  destruct (loop_body tick0 report_every st w1) as [st2 w2|e w2|w2] eqn:Hb.
  - destruct Hbody as (ths2 & -> & Hm2 & Hle).
    apply IH; [done|]. unfold potential in *. simpl in *. lia.
  - done.
  - by destruct Hr.
Qed.

Lemma quiet_no_spin {A} (m : M A) w w' : quiet m -> m w <> Spin w'.
Proof. intros Hq Heq. specialize (Hq w). by rewrite Heq in Hq. Qed.

Lemma bind_no_spin {A B} (I : Sys -> Prop) ths (m : M A) (k : A -> M B) post w :
  (forall s s', sys_step s s' -> I s -> I s') ->
  runs false ths m post -> I (ths, w) ->
  (forall a ths' w1, post a ths' -> I (ths', w1) -> forall w', k a w1 <> Spin w') ->
  forall w', bind m k w <> Spin w'.
Proof.
  intros Hinv Hruns HI Hk w'.
  pose proof (runs_invariant I false ths m post w Hinv Hruns HI) as H.
  specialize (Hruns w). unfold bind.
  destruct (m w) as [a w1|e w1|w1]; [|done|by destruct Hruns].
  destruct H as (ths' & Hpost & HI'). by eapply Hk.
Qed.

Lemma start_terminates self progress_bars tick0 report_every w :
  mortal D w ->
  forall fuel, potential D (threads self, w) < fuel ->
  forall w', start fuel self progress_bars tick0 report_every w <> Spin w'.
Proof.
  intros Hm fuel Hfuel.
  set (I := fun s : Sys =>
              mortal D s.2 /\ potential D s <= potential D (threads self, w)).
  assert (forall s s', sys_step s s' -> I s -> I s') as Hinv.
  { intros s s' Hstep [Hms Hles].
    destruct (potential_step _ _ Hstep Hms). split; [done|lia]. }
  assert (I (threads self, w)) as HI by (split; [done|lia]).
  unfold start.
  eapply (bind_no_spin I); [done|apply runs_quiet, quiet_perf_counter|done|].
  intros t ? w1 -> HI1.
  eapply (bind_no_spin I); [done|apply runs_quiet, quiet_datetime_now|done|].
  intros d ? w2 -> HI2.
  eapply (bind_no_spin I); [done|apply (runs_check_in_all false _ [])|done|].
  intros ths ? w3 -> HI3. simpl in HI3.
  eapply (bind_no_spin I); [done|apply runs_quiet, quiet_perf_counter|done|].
  intros last ? w4 -> HI4.
  destruct progress_bars; [|done].
  eapply (bind_no_spin I); [done|apply runs_quiet, quiet_make_pbars|done|].
  intros pbars ? w5 -> HI5.
  eapply (bind_no_spin I); [done|apply runs_quiet, quiet_tqdm|done|].
  intros pbar ? w6 -> [Hm6 Hpot6] w'.
  unfold bind at 1.
  destruct (poll_loop _ _ _ _ w6) as [st w7|e w7|w7] eqn:Hloop; [|done|].
  - apply quiet_no_spin. quiet_tac.
  - exfalso. eapply poll_loop_terminates; [exact Hm6| |exact Hloop].
    simpl in *. lia.
Qed.

End Liveness.

(** *** The test does not end the loop while a process runs *)

(** A lane whose process is running at every instant of the test makes
    the test succeed. *)
Lemma any_running_finds ths : forall w th pid,
  th ∈ ths -> process th = Some pid ->
  (forall w', quiet_rel w w' -> instant w' < instant w + length ths ->
              exited w' pid = false) ->
  exists w', any_running ths w = Ok true w' /\ quiet_rel w w'.
Proof.
  induction ths as [|th0 rest IH]; intros w th pid Hin Hp Hlive.
  { by apply elem_of_nil in Hin. }
  simpl. unfold bind, is_running.
  destruct (process th0) as [pid0|] eqn:Hp0.
  - unfold poll_is_None. destruct (exited w pid0) eqn:He; simpl.
    + apply elem_of_cons in Hin as [->|Hin].
      { assert (pid0 = pid) as -> by congruence.
        rewrite (Hlive w) in He; [done|apply quiet_rel_refl|simpl; lia]. }
      destruct (IH (next_instant w) th pid Hin Hp) as (w' & Hrun & Hq).
      { intros w' Hq Hi. apply Hlive.
        - eapply quiet_rel_trans; [apply quiet_rel_next|done].
        - simpl in *. lia. }
      exists w'. split; [done|]. eapply quiet_rel_trans; [apply quiet_rel_next|done].
    + exists (next_instant w). split; [done|apply quiet_rel_next].
  - apply elem_of_cons in Hin as [->|Hin]; [congruence|].
    unfold ret. apply (IH w th pid Hin Hp).
    intros w' Hq Hi. apply Hlive; [done|simpl; lia].
Qed.

(** An exception that ends the loop was raised in the body of a pass,
    after a test that found a running process. *)
Lemma poll_loop_raise fuel tick0 report_every : forall st w e w',
  poll_loop fuel tick0 report_every st w = Raise e w' ->
  exists st1 w1 w2,
    any_running (threads (l_self st1)) w1 = Ok true w2
    /\ loop_body tick0 report_every st1 w2 = Raise e w'.
Proof.
  induction fuel as [|fuel IH]; intros st w e w' H; simpl in H; [done|].
  unfold bind at 1 in H.
  destruct (any_running_spec (threads (l_self st)) w) as (b & w1 & Hrun & _).
  rewrite Hrun in H. destruct b; [|done].
  unfold bind in H.
  destruct (loop_body tick0 report_every st w1) as [st2 w2|e2 w2|w2] eqn:Hbody; [| |done].
  - by eapply IH.
  - injection H as <- <-. by exists st, w, w1.
Qed.

(** C4, as the code has it: the polling loop of [start] is left normally
    exactly when its test finds no lane with a running process.  A test
    made when every lane's process has exited ends the loop at once, with
    the lanes as they are.  A test made while the process of some lane
    runs does not end it: the body is run for another pass and the loop
    goes on from the state the body returns.  So whenever the loop is
    left normally, and whenever [start] returns, every lane's process has
    exited (the lane's [finished] flag need not be set).  The only other
    way out of the loop is an exception raised in the body of a pass,
    after a test that found a running process.  And when every worker
    process exits within [D] instants of being started, the loop is not
    run for ever: [start] has left it after at most as many passes as the
    measure of the initial state. *)
Theorem loop_ends_when_no_process_runs tick0 report_every :
  (forall fuel st w1,
      (forall th pid, th ∈ threads (l_self st) -> process th = Some pid ->
                      exited w1 pid = true) ->
      exists w2, poll_loop (S fuel) tick0 report_every st w1 = Ok st w2
                 /\ quiet_rel w1 w2)
  /\ (forall fuel st w1 th pid,
        th ∈ threads (l_self st) -> process th = Some pid ->
        (forall w', quiet_rel w1 w' ->
                    instant w' < instant w1 + length (threads (l_self st)) ->
                    exited w' pid = false) ->
        exists w2,
          quiet_rel w1 w2
          /\ any_running (threads (l_self st)) w1 = Ok true w2
          /\ poll_loop (S fuel) tick0 report_every st w1
             = (let* st' := loop_body tick0 report_every st in
                poll_loop fuel tick0 report_every st') w2)
  /\ (forall fuel st w1 st' w2,
        poll_loop fuel tick0 report_every st w1 = Ok st' w2 ->
        forall th pid, th ∈ threads (l_self st') -> process th = Some pid ->
                       exited w2 pid = true)
  /\ (forall fuel self w self' w',
        start fuel self true tick0 report_every w = Ok self' w' ->
        forall th pid, th ∈ threads self' -> process th = Some pid ->
                       exited w' pid = true)
  /\ (forall fuel st w1 e w2,
        poll_loop fuel tick0 report_every st w1 = Raise e w2 ->
        exists st1 w3 w4,
          any_running (threads (l_self st1)) w3 = Ok true w4
          /\ loop_body tick0 report_every st1 w4 = Raise e w2)
  /\ (forall (D : nat) self w,
        (forall pid, exists d, proc_life E pid = Some d /\ d <= D) ->
        procs w = [] ->
        forall fuel,
          sum_list (remaining <$> threads self) * S D < fuel ->
          forall w', start fuel self true tick0 report_every w <> Spin w').
Proof.
  split; [|split; [|split; [|split; [|split]]]].
  - intros fuel st w1 Hex.
    destruct (poll_loop_stops fuel tick0 report_every st w1 Hex) as (w2 & ? & ?). eauto.
  - intros fuel st w1 th pid Hin Hp Hlive.
    destruct (any_running_finds _ w1 th pid Hin Hp Hlive) as (w2 & Hrun & Hq).
    exists w2. split; [done|]. split; [done|].
    simpl. unfold bind at 1. by rewrite Hrun.
  - intros fuel st w1 st' w2. apply poll_loop_exit.
  - intros fuel self w self' w'. apply start_exit.
  - intros fuel st w1 e w2. apply poll_loop_raise.
  - intros D self w HD Hw fuel Hfuel. apply (start_terminates D HD).
    + intros pid p Hl. by rewrite Hw in Hl.
    + unfold potential, gap, deadline. simpl. rewrite Hw. simpl. lia.
Qed.

(** ** The lane state machine *)

(** The outcomes of [check_in] that return. *)
Lemma check_in_cases th w th' w' :
  check_in th w = Ok th' w' ->
  (th' = th /\ procs w' = procs w)
  \/ (finished th' = true /\ (Z.of_nat (njobs th) <= job th + 1)%Z
      /\ job th' = (job th + 1)%Z /\ njobs th' = njobs th /\ procs w' = procs w)
  \/ ((job th + 1 < Z.of_nat (njobs th))%Z
      /\ job th' = (job th + 1)%Z /\ njobs th' = njobs th
      /\ finished th' = finished th /\ process th' = Some (length (procs w))
      /\ length (procs w') = S (length (procs w))).
Proof.
  intros H.
  assert ((exists pid, process th = Some pid /\ exited w pid = false)
          \/ (forall pid, process th = Some pid -> exited w pid = true)) as [(pid & Hp & He)|Hex].
  { destruct (process th) as [pid|]; [|right; done].
    destruct (exited w pid) eqn:He; [right|left; eauto].
    by intros ? [= <-]. }
  - rewrite (check_in_running th w pid Hp He) in H. injection H as <- <-. by left.
  - pose proof (check_in_idle th w Hex) as Hidle. cbv zeta in Hidle.
    destruct (Z.leb_spec (Z.of_nat (njobs th)) (job th + 1)).
    + rewrite Hidle in H. injection H as <- <-. right; left.
      repeat split; try done. by destruct (process th).
    + destruct (py_index (jobs th) (job th + 1)); [|by rewrite Hidle in H].
      destruct Hidle as (th1 & w1 & Hc & Hpr & Hj & _ & Hnj & _ & Hf & _ & _ & _ & _ & Hprocs).
      rewrite Hc in H. injection H as <- <-. right; right.
      repeat split; try done. rewrite Hprocs, length_app. simpl. lia.
Qed.

Lemma reachable_past_last_batch th : reachable th -> past_last_batch th.
Proof.
  induction 1 as [c j l n t s M w th w' Hinit|th w th' w' _ IH Hc|th w b th' w' _ IH Hc].
  - apply BlenderThread__init__inv in Hinit as (_&_&_&_&_&Hf&_). intros ?. congruence.
  - apply check_in_cases in Hc as [[-> _]|[(_ & ? & ? & ? & _)|(? & ? & Hnj & Hf & _)]].
    + done.
    + intros _. lia.
    + intros Hfin. rewrite Hf in Hfin. specialize (IH Hfin). lia.
  - apply check_status_fields in Hc as (_ & Hnj & _ & Hj & Hf & _).
    intros Hfin. rewrite Hf in Hfin. specialize (IH Hfin). lia.
Qed.

(** C9: the finished state is absorbing.  For a thread obtained from the
    constructor by calls of its methods, once [finished] is set a further
    [check_in] returns normally, leaves [finished] set, keeps the process
    handle and starts no process (the process table is as before); the
    resulting thread is again such a thread, so the same holds of every
    later call. *)
Theorem finished_is_absorbing th w :
  reachable th -> finished th = true ->
  exists th' w',
    check_in th w = Ok th' w'
    /\ finished th' = true /\ process th' = process th
    /\ procs w' = procs w /\ kills w' = kills w
    /\ reachable th'.
Proof.
  intros Hreach Hfin.
  pose proof (reachable_past_last_batch th Hreach Hfin) as Hpast.
  assert (exists th' w', check_in th w = Ok th' w' /\ finished th' = true
                         /\ process th' = process th
                         /\ procs w' = procs w /\ kills w' = kills w)
    as (th' & w' & Hc & ?).
  { assert ((exists pid, process th = Some pid /\ exited w pid = false)
            \/ (forall pid, process th = Some pid -> exited w pid = true))
      as [(pid & Hp & He)|Hex].
    { destruct (process th) as [pid|]; [|right; done].
      destruct (exited w pid) eqn:He; [right|left; eauto].
      by intros ? [= <-]. }
    - rewrite (check_in_running th w pid Hp He). by eexists _, _.
    - pose proof (check_in_idle th w Hex) as Hidle. cbv zeta in Hidle.
      destruct (Z.leb_spec (Z.of_nat (njobs th)) (job th + 1)); [|lia].
      rewrite Hidle. eexists _, _. split; [done|]. simpl.
      by destruct (process th). }
  exists th', w'. split; [done|]. repeat split; try tauto.
  by eapply reach_check_in.
Qed.

(** ** The stall detector *)

Lemma check_status_unfold th w n w1 :
  num_rendered th w = Ok n w1 ->
  check_status th w
  = Ok (if prev_n th <? n then (true, with_progress n (perf E (instant w1)) th)
        else if Qle_bool (timeout th) (float_sub (perf E (instant w1)) (timer th))
             then (false, th)
             else (true, th))
       (next_instant w1).
Proof.
  intros Hn. unfold check_status, bind. rewrite Hn.
  destruct (prev_n th <? n); [done|].
  unfold perf_counter. by destruct (Qle_bool _ _).
Qed.

Lemma status_polls_stalled th ws :
  (forall w, w ∈ ws -> exists n w1, num_rendered th w = Ok n w1 /\ n <= prev_n th) ->
  status_polls th ws
  = (fun w => negb (Qle_bool (timeout th) (float_sub (observed_time th w) (timer th))))
      <$> ws.
Proof.
  induction ws as [|w ws IH]; intros Hws; [done|]. simpl.
  destruct (Hws w) as (n & w1 & Hn & Hle); [apply elem_of_cons; by left|].
  rewrite (check_status_unfold th w n w1 Hn).
  destruct (Nat.ltb_spec (prev_n th) n); [lia|].
  unfold observed_time. rewrite Hn. simpl.
  destruct (Qle_bool _ _); simpl; f_equal; apply IH;
    intros w' Hin; apply Hws, elem_of_cons; by right.
Qed.

(** What [check_status] does.  One call that reads the count [n] and
    then the clock: if [n] exceeds the highest count seen before, the
    call returns true, records [n] and resets the stall timer to the
    clock reading; otherwise the thread is left as it is and the call
    returns false exactly when the float difference of the clock reading
    and the timer (set at construction, if the count never rose) is
    greater than or equal to the timeout.  Hence, for a log that has
    stopped advancing, each poll returns false exactly when that
    difference has reached the timeout, and true before. *)
Lemma stall_detection th :
  (forall w n w1,
      num_rendered th w = Ok n w1 ->
      exists b th',
        check_status th w = Ok (b, th') (next_instant w1)
        /\ (prev_n th < n ->
            b = true /\ prev_n th' = n /\ timer th' = perf E (instant w1))
        /\ (n <= prev_n th ->
            th' = th
            /\ (b = false
                <-> (timeout th <= float_sub (perf E (instant w1)) (timer th))%Q)))
  /\ (forall ws,
        (forall w, w ∈ ws -> exists n w1, num_rendered th w = Ok n w1 /\ n <= prev_n th) ->
        status_polls th ws
        = (fun w => negb (Qle_bool (timeout th)
                            (float_sub (observed_time th w) (timer th)))) <$> ws).
Proof.
  split; [|apply status_polls_stalled].
  intros w n w1 Hn. rewrite (check_status_unfold th w n w1 Hn).
  destruct (Nat.ltb_spec (prev_n th) n) as [Hlt|Hge].
  - eexists _, _. split; [done|]. split; [done|lia].
  - destruct (Qle_bool (timeout th) (float_sub (perf E (instant w1)) (timer th))) eqn:Hq.
    + eexists _, _. split; [done|]. split; [lia|]. intros _. split; [done|].
      split; [intros _; by apply Qle_bool_iff|done].
    + eexists _, _. split; [done|]. split; [lia|]. intros _. split; [done|].
      split; [done|]. intros Hle%Qle_bool_iff. congruence.
Qed.

(** ** The report *)

Lemma num_rendered_keeps_files th w :
  files (world_of (num_rendered th w)) = files w.
Proof.
  unfold num_rendered. destruct (process th); [|done].
  destruct (to_stdout th); [done|]. by destruct (log_loc th).
Qed.

Lemma sum_num_rendered_keeps_files ths : forall w,
  files (world_of (sum_num_rendered ths w)) = files w.
Proof.
  induction ths as [|th rest IH]; intros w; simpl; [done|].
  unfold bind. pose proof (num_rendered_keeps_files th w) as Hth.
  destruct (num_rendered th w) as [n w1|e w1|w1]; [|done..]. simpl in Hth.
  specialize (IH w1). destruct (sum_num_rendered rest w1); simpl in *; congruence.
Qed.

Lemma manager_num_rendered_files m w n w' :
  manager_num_rendered m w = Ok n w' -> files w' = files w.
Proof.
  intros H. pose proof (sum_num_rendered_keeps_files (threads m) w) as Hf.
  unfold manager_num_rendered in H. by rewrite H in Hf.
Qed.

Lemma update_report_unfold_0 m w w2 :
  manager_num_rendered m (next_instant w) = Ok 0 w2 ->
  update_report m w
  = Ok tt {| instant := S (instant w2); procs := procs w2; kills := kills w2;
             files := <[report_loc m := ""]> (files w2); console := console w2 |}.
Proof. intros H. unfold update_report, bind, perf_counter. by rewrite H. Qed.

(** Every outcome of [update_report] other than a return leaves the
    files as they were: the report file is opened only after the report
    lines have been built. *)
Lemma update_report_unwritten m w :
  match update_report m w with
  | Ok _ _ => True
  | Raise _ w' => files w' = files w
  | Spin _ => False
  end.
Proof.
  pose proof (quiet_update_report m w) as Hq.
  destruct (update_report m w) as [[] w'|e w'|w'] eqn:H; [done| |done].
  clear Hq. unfold update_report, bind at 1, perf_counter in H.
  assert (forall w1, match manager_num_rendered m w1 with
                     | Ok _ w2 | Raise _ w2 | Spin w2 => files w2 = files w1
                     end) as Hread.
  { intros w1. pose proof (sum_num_rendered_keeps_files (threads m) w1) as Hf.
    unfold manager_num_rendered. by destruct (sum_num_rendered (threads m) w1). }
  unfold bind at 1 in H.
  pose proof (Hread (next_instant w)) as H0.
  destruct (manager_num_rendered m (next_instant w)) as [n w2|e2 w2|w2];
    [|by injection H as <- <-|done].
  unfold bind at 1 in H. destruct (0 <? n); [|done].
  unfold bind at 1 in H. pose proof (Hread w2) as H1.
  destruct (manager_num_rendered m w2) as [n1 w3|e3 w3|w3];
    [|injection H as <- <-; simpl in *; congruence|done].
  unfold bind at 1 in H. pose proof (Hread w3) as H2.
  destruct (manager_num_rendered m w3) as [n2 w4|e4 w4|w4];
    [|injection H as <- <-; simpl in *; congruence|done].
  destruct (n2 =? 0); [injection H as <- <-; simpl in *; congruence|].
  unfold bind at 1, datetime_now in H.
  unfold bind at 1 in H. pose proof (Hread (next_instant w4)) as H3.
  destruct (manager_num_rendered m (next_instant w4)) as [n3 w5|e5 w5|w5];
    [|injection H as <- <-; simpl in *; congruence|done].
  unfold bind at 1 in H. pose proof (Hread w5) as H4.
  destruct (manager_num_rendered m w5) as [n4 w6|e6 w6|w6];
    [|injection H as <- <-; simpl in *; congruence|done].
  destruct (n4 =? 0); [injection H as <- <-; simpl in *; congruence|].
  destruct (session_start m); [done|].
  injection H as <- <-. simpl in *. congruence.
Qed.

(** C7, as the code has it: a call of [update_report] that returns has
    opened the report file for writing and replaced its content,
    whatever the completed count is.  When the count read by the guard is
    0 the call returns and writes no line, so the file is created empty
    or truncated to empty (whatever it held before is lost) and no other
    file is touched.  When the count read by the guard is positive and
    the call returns, the file holds exactly the five report lines, the
    first of which is the label followed by the rendered count as it was
    read for that line; and the call does return whenever the counts
    can be read, the two counts it divides by are not 0 and the session
    has been started.  A call that raises has done so before the file
    was opened, while a count was read or the report lines were built: it
    leaves every file as it was. *)
Theorem report_written_on_every_update m w :
  let elapsed := float_sub (perf E (instant w)) (t0 m) in
  let report_text (n1 n2 n3 n4 : nat) (now started : Q) : string :=
    let s_remaining :=
      float_mul (inject_Z (Z.of_nat (BlenderThreadManager__len__ m) - Z.of_nat n1))
                (float_div elapsed (inject_Z (Z.of_nat n2))) in
    let eta := (now + s_remaining)%Q in
    ("Number of images rendered: " +:+ pretty n3 +:+ nl)
    +:+ ("Total session quota: " +:+ pretty (BlenderThreadManager__len__ m) +:+ nl)
    +:+ ("Time elapsed: " +:+ str_timedelta E elapsed +:+ nl)
    +:+ ("Time per render (s): " +:+ str_2f E (float_div elapsed (inject_Z (Z.of_nat n4)))
         +:+ nl +:+ nl)
    +:+ ("Session start: " +:+ strftime E "%I:%M %p %d/%m/%y" started +:+ nl
         +:+ "Estimated End: " +:+ strftime E "%I:%M %p %d/%m/%y" eta) in
  (forall w2,
      manager_num_rendered m (next_instant w) = Ok 0 w2 ->
      exists w',
        update_report m w = Ok tt w'
        /\ files w' = <[report_loc m := ""]> (files w))
  /\ (forall n w2 w',
        manager_num_rendered m (next_instant w) = Ok n w2 -> 0 < n ->
        update_report m w = Ok tt w' ->
        exists n1 w3 n2 w4 n3 w5 n4 w6 started,
          manager_num_rendered m w2 = Ok n1 w3
          /\ manager_num_rendered m w3 = Ok n2 w4
          /\ manager_num_rendered m (next_instant w4) = Ok n3 w5
          /\ manager_num_rendered m w5 = Ok n4 w6
          /\ n2 <> 0 /\ n4 <> 0 /\ session_start m = Some started
          /\ files w'
             = <[report_loc m := report_text n1 n2 n3 n4 (wall E (instant w4)) started]>
                 (files w))
  /\ (forall n w2 n1 w3 n2 w4 n3 w5 n4 w6 started,
        manager_num_rendered m (next_instant w) = Ok n w2 -> 0 < n ->
        manager_num_rendered m w2 = Ok n1 w3 ->
        manager_num_rendered m w3 = Ok n2 w4 ->
        manager_num_rendered m (next_instant w4) = Ok n3 w5 ->
        manager_num_rendered m w5 = Ok n4 w6 ->
        n2 <> 0 -> n4 <> 0 -> session_start m = Some started ->
        exists w',
          update_report m w = Ok tt w'
          /\ files w'
             = <[report_loc m := report_text n1 n2 n3 n4 (wall E (instant w4)) started]>
                 (files w))
  /\ (forall e w', update_report m w = Raise e w' -> files w' = files w)
  /\ (forall w', update_report m w <> Spin w').
Proof.
  intros elapsed report_text. split; [|split; [|split; [|split]]].
  - intros w2 H0. rewrite (update_report_unfold_0 m w w2 H0). eexists. split; [done|].
    simpl. apply manager_num_rendered_files in H0. by rewrite H0.
  - intros n w2 w' Hn Hpos H. unfold update_report in H.
    unfold bind at 1 in H. unfold perf_counter at 1 in H.
    unfold bind at 1 in H. rewrite Hn in H.
    destruct (Nat.ltb_spec 0 n) as [_|]; [|lia].
    apply bind_Ok in H as (report & wr & Hrep & H).
    apply bind_Ok in Hrep as (n1 & w3 & Hn1 & Hrep).
    apply bind_Ok in Hrep as (n2 & w4 & Hn2 & Hrep).
    destruct (Nat.eqb_spec n2 0) as [|Hn20]; [done|].
    apply bind_Ok in Hrep as (now & w4' & Hnow & Hrep).
    unfold datetime_now in Hnow. injection Hnow as <- <-.
    apply bind_Ok in Hrep as (n3 & w5 & Hn3 & Hrep).
    apply bind_Ok in Hrep as (n4 & w6 & Hn4 & Hrep).
    destruct (Nat.eqb_spec n4 0) as [|Hn40]; [done|].
    destruct (session_start m) as [started|]; [|done].
    injection Hrep as <- <-. injection H as <-.
    exists n1, w3, n2, w4, n3, w5, n4, w6, started.
    repeat (split; [done|]). subst report_text elapsed. simpl.
    pose proof (manager_num_rendered_files _ _ _ _ Hn) as F0.
    pose proof (manager_num_rendered_files _ _ _ _ Hn1) as F1.
    pose proof (manager_num_rendered_files _ _ _ _ Hn2) as F2.
    pose proof (manager_num_rendered_files _ _ _ _ Hn3) as F3.
    pose proof (manager_num_rendered_files _ _ _ _ Hn4) as F4.
    simpl in *. f_equal. congruence.
  - intros n w2 n1 w3 n2 w4 n3 w5 n4 w6 started Hn Hpos Hn1 Hn2 Hn3 Hn4 Hn20 Hn40 Hs.
    unfold update_report, bind at 1, perf_counter.
    unfold bind at 1. rewrite Hn.
    destruct (Nat.ltb_spec 0 n) as [_|]; [|lia].
    unfold bind at 1. unfold bind at 1. rewrite Hn1.
    unfold bind at 1. rewrite Hn2.
    destruct (Nat.eqb_spec n2 0) as [|_]; [done|].
    unfold bind at 1, datetime_now. unfold bind at 1. rewrite Hn3.
    unfold bind at 1. rewrite Hn4.
    destruct (Nat.eqb_spec n4 0) as [|_]; [done|].
    rewrite Hs. eexists. split; [reflexivity|].
    subst report_text elapsed. simpl.
    pose proof (manager_num_rendered_files _ _ _ _ Hn) as F0.
    pose proof (manager_num_rendered_files _ _ _ _ Hn1) as F1.
    pose proof (manager_num_rendered_files _ _ _ _ Hn2) as F2.
    pose proof (manager_num_rendered_files _ _ _ _ Hn3) as F3.
    pose proof (manager_num_rendered_files _ _ _ _ Hn4) as F4.
    simpl in *. f_equal. congruence.
  - intros e w' H. pose proof (update_report_unwritten m w) as Hu. by rewrite H in Hu.
  - intros w' H. pose proof (update_report_unwritten m w) as Hu. by rewrite H in Hu.
Qed.

(** ** The manager's constructor *)

Lemma make_threads_ok command0 jsons logs print_to_stdout (MAX_PER_JOB : Z) count :
  (0 < MAX_PER_JOB)%Z ->
  forall i w,
    i + count <= length jsons -> i + count <= length logs ->
    Forall (fun lane => lane <> []) jsons ->
    exists ths w',
      make_threads command0 jsons logs print_to_stdout MAX_PER_JOB i count w = Ok ths w'
      /\ length ths = count.
Proof.
  intros HM. induction count as [|count IH]; intros i w Hj Hl Hne; simpl.
  - by eexists _, _.
  - destruct (lookup_lt_is_Some_2 jsons i) as [jobs_i Hji]; [lia|].
    destruct (lookup_lt_is_Some_2 logs i) as [log_i Hli]; [lia|].
    rewrite Hji, Hli.
    assert (jobs_i <> []) as Hnei.
    { eapply Forall_forall in Hne; [done|]. by eapply list_elem_of_lookup_2. }
    destruct (split_into_batches_spec jobs_i MAX_PER_JOB Hnei HM) as (batches & Hb & _).
    destruct (BlenderThread__init__ok command0 jobs_i (Some log_i) (pretty i) 100
                print_to_stdout MAX_PER_JOB batches w Hb) as (th & w1 & Hth & _).
    unfold bind at 1. rewrite Hth.
    destruct (IH (S i) w1) as (rest & w2 & Hrest & Hlen); [lia|lia|done|].
    unfold bind. rewrite Hrest. eexists _, _. split; [done|]. simpl. lia.
Qed.

Lemma split_into_batches_nonpositive {A} `{!Numpy A} (jobs0 : list A) (MAX_PER_JOB : Z) :
  (MAX_PER_JOB <= 0)%Z ->
  split_into_batches jobs0 MAX_PER_JOB
  = inl (if (MAX_PER_JOB =? 0)%Z then ZeroDivisionError else ValueError).
Proof.
  intros HM. unfold split_into_batches.
  destruct (Z.eqb_spec MAX_PER_JOB 0) as [|Hne]; [done|].
  pose proof (np_ceil_div_neg (length jobs0) MAX_PER_JOB ltac:(lia)) as Hk.
  unfold list_split, array_split.
  by destruct (Z.leb_spec (np_ceil_div (length jobs0) MAX_PER_JOB) 0) as [_|]; [|lia].
Qed.

Lemma BlenderThreadManager__init__unfold command0 jsons output_directory print_to_stdout
    MAX_PER_JOB w :
  exists logs,
    length logs = length jsons
    /\ BlenderThreadManager__init__ command0 jsons output_directory print_to_stdout
         MAX_PER_JOB w
       = bind (make_threads command0 jsons logs print_to_stdout MAX_PER_JOB 0 (length jsons))
           (fun ths =>
              ret {| num_threads := length jsons; m_command := command0; log_locs := logs;
                     report_loc :=
                       path_join E
                         [output_directory;
                          "report_"
                            +:+ fmt_02d
                                  (length
                                     (filter (fun f => mentions_report f = true)
                                        (dir_entries E (S (S (instant w)))
                                           output_directory)))
                            +:+ ".txt"];
                     t0 := 0; session_start := None; threads := ths |})
           (next_instant (next_instant (next_instant w))).
Proof.
  exists ((fun i =>
             path_join E
               [path_join E [output_directory; "logs";
                             strftime E "%y%m%d-%H%M%S" (wall E (instant w))];
                "log_" +:+ fmt_02d i +:+ ".txt"])
            <$> seq 0 (length jsons)).
  split; [by rewrite length_fmap, length_seq|reflexivity].
Qed.

(** C3, as the code has it: the constructor validates nothing itself.
    With no lane at all it returns a manager without threads, whatever
    [MAX_PER_JOB] is.  With at least one lane and [MAX_PER_JOB <= 0] the
    construction of the first lane raises ([ZeroDivisionError] for 0,
    [ValueError] from [array_split] below 0), before any process is
    started.  With [MAX_PER_JOB > 0] and no empty lane it returns a
    manager with one thread per lane. *)
Theorem manager_construction command0 jsons output_directory print_to_stdout
    (MAX_PER_JOB : Z) w :
  (jsons = [] ->
   exists m w',
     BlenderThreadManager__init__ command0 jsons output_directory print_to_stdout
       MAX_PER_JOB w = Ok m w'
     /\ threads m = [])
  /\ (jsons <> [] -> (MAX_PER_JOB <= 0)%Z ->
      exists w',
        BlenderThreadManager__init__ command0 jsons output_directory print_to_stdout
          MAX_PER_JOB w
        = Raise (if (MAX_PER_JOB =? 0)%Z then ZeroDivisionError else ValueError) w'
        /\ procs w' = procs w)
  /\ ((0 < MAX_PER_JOB)%Z -> Forall (fun lane => lane <> []) jsons ->
      exists m w',
        BlenderThreadManager__init__ command0 jsons output_directory print_to_stdout
          MAX_PER_JOB w = Ok m w'
        /\ length (threads m) = length jsons).
Proof.
  destruct (BlenderThreadManager__init__unfold command0 jsons output_directory
              print_to_stdout MAX_PER_JOB w) as (logs & Hlogs & ->).
  split; [|split].
  - intros ->. by eexists _, _.
  - intros Hne HM. destruct jsons as [|jobs_0 rest]; [done|].
    destruct logs as [|log_0 logs]; [done|]. simpl.
    unfold bind.
    rewrite (BlenderThread__init__raise _ _ _ _ _ _ _ _ _
               (split_into_batches_nonpositive jobs_0 MAX_PER_JOB HM)).
    by eexists.
  - intros HM Hne.
    destruct (make_threads_ok command0 jsons logs print_to_stdout MAX_PER_JOB (length jsons)
                HM 0 (next_instant (next_instant (next_instant w))))
      as (ths & w' & Hmk & Hlen); [simpl; lia|simpl; lia|done|].
    unfold bind. rewrite Hmk. by eexists _, _.
Qed.

(** ** Nothing in [start] terminates a worker *)

Lemma kills_steps s s' : sys_steps s s' -> kills s'.2 = kills s.2.
Proof.
  induction 1 as [|s1 s2 s3 Hstep _ IH]; [done|]. rewrite IH.
  destruct Hstep as [ths w w' (_ & _ & Hk)|pre th post w th' w' Hlane]; [done|].
  by destruct Hlane as [_ _ _ _ (_ & _ & Hk)|].
Qed.

Lemma start_kills_nothing fuel self progress_bars tick0 report_every w :
  kills (world_of (start fuel self progress_bars tick0 report_every w)) = kills w.
Proof.
  pose proof (runs_start fuel self progress_bars tick0 report_every w) as H.
  destruct (start _ _ _ _ _ _) as [a w'|e w'|w']; simpl.
  - destruct H as (? & _ & H). by apply kills_steps in H.
  - destruct H as (? & H). by apply kills_steps in H.
  - destruct H as (_ & ? & H). by apply kills_steps in H.
Qed.
(** * Further properties

    ** Which jobs each lane receives *)

Lemma section_sizes_offset n k i :
  0 < k -> i <= k ->
  sum_list (take i (section_sizes n k)) = i * (n / k) + i `min` (n mod k).
Proof.
  intros Hk Hi. unfold section_sizes.
  pose proof (Nat.mod_upper_bound n k ltac:(lia)).
  rewrite take_app, sum_list_app, !take_replicate, !sum_list_replicate, length_replicate.
  nia.
Qed.

Lemma reshape_singletons {A} (l : list A) m :
  reshape (replicate (length l) 1 ++ replicate m 0) l
  = ((fun x => [x]) <$> l) ++ replicate m [].
Proof.
  induction l as [|x l IH]; simpl.
  - induction m as [|m IHm]; simpl; [done|]. by rewrite IHm.
  - by rewrite drop_0, IH.
Qed.

(** X1: lane [i] of [list_split l k] is the run of
    [len(l) // k] elements, one more for the first [len(l) % k] lanes,
    that starts at offset [i * (len(l) // k) + min(i, len(l) % k)] of the
    array numpy makes of the list; it is that run of the list itself when
    numpy stores the list's elements as they are given. *)
Theorem list_split_lane_contents {A} `{!Numpy A} (l : list A) (k : Z) (i : nat) :
  (0 < k)%Z -> i < Z.to_nat k ->
  let each := length l / Z.to_nat k in
  let extras := length l mod Z.to_nat k in
  let size := each + (if decide (i < extras) then 1 else 0) in
  exists lanes lane,
    list_split l k = inr lanes
    /\ lanes !! i = Some lane
    /\ lane = take size (drop (i * each + i `min` extras) (asarray l))
    /\ (stored_unchanged l -> lane = take size (drop (i * each + i `min` extras) l))
    /\ length lane = size.
Proof.
  intros Hk Hi each extras size.
  assert (0 < Z.to_nat k) as Hk' by lia.
  pose proof (section_sizes_lookup (length l) (Z.to_nat k) i Hi) as Hs.
  pose proof (reshape_lookup _ (asarray l) i _ Hs) as Hl.
  rewrite section_sizes_offset in Hl by lia.
  eexists _, _. split; [by apply list_split_reshape|].
  split; [exact Hl|]. split; [reflexivity|].
  split; [intros Hsame; by rewrite Hsame|].
  rewrite length_take, length_drop, length_asarray. fold each extras size.
  pose proof (Nat.div_mod_eq (length l) (Z.to_nat k)) as Hdm.
  pose proof (Nat.mod_upper_bound (length l) (Z.to_nat k) ltac:(lia)) as Hmod.
  fold each extras in Hdm, Hmod. subst size.
  destruct (decide (i < extras)); nia.
Qed.

(** X2: when more lanes are asked for than there are jobs, the first
    [len(l)] lanes hold one element each of the array numpy makes of the
    list, in order, and all the other lanes are empty; the first lanes
    hold the jobs themselves when numpy stores them as they are given. *)
Theorem list_split_more_lanes_than_jobs {A} `{!Numpy A} (l : list A) (k : Z) :
  (Z.of_nat (length l) < k)%Z ->
  list_split l k
  = inr (((fun x => [x]) <$> asarray l) ++ replicate (Z.to_nat k - length l) [])
  /\ (stored_unchanged l ->
      list_split l k = inr (((fun x => [x]) <$> l) ++ replicate (Z.to_nat k - length l) [])).
Proof.
  intros Hk.
  assert (list_split l k
          = inr (((fun x => [x]) <$> asarray l) ++ replicate (Z.to_nat k - length l) []))
    as Heq.
  { rewrite list_split_reshape by lia. f_equal.
    unfold section_sizes.
    rewrite Nat.div_small, Nat.mod_small by lia. simpl.
    rewrite <- (length_asarray l) at 1. apply reshape_singletons. }
  split; [exact Heq|]. intros Hsame. by rewrite Heq, Hsame.
Qed.

(** ** The outcome of the constructors *)

Lemma split_into_batches_cases {A} `{!Numpy A} (jobs0 : list A) (MAX_PER_JOB : Z) :
  (jobs0 <> [] /\ (0 < MAX_PER_JOB)%Z
   /\ exists batches,
        split_into_batches jobs0 MAX_PER_JOB = inr batches
        /\ batches <> [] /\ concat batches = asarray jobs0
        /\ Forall (fun batch => batch <> []) batches)
  \/ ((jobs0 = [] \/ (MAX_PER_JOB <= 0)%Z)
      /\ split_into_batches jobs0 MAX_PER_JOB
         = inl (if (MAX_PER_JOB =? 0)%Z then ZeroDivisionError else ValueError)).
Proof.
  destruct jobs0 as [|x jobs0].
  { right. split; [by left|apply split_into_batches_empty]. }
  destruct (Z.le_gt_cases MAX_PER_JOB 0) as [HM|HM].
  { right. split; [by right|by apply split_into_batches_nonpositive]. }
  left. split; [done|]. split; [lia|].
  destruct (split_into_batches_spec (x :: jobs0) MAX_PER_JOB ltac:(done) ltac:(lia))
    as (batches & Hb & _ & Hcat & Hne & _).
  exists batches. split; [done|].
  split; [intros ->; simpl in Hcat; by apply eq_sym, asarray_eq_nil in Hcat|].
  split; [done|].
  apply Forall_forall. intros b Hin Heq. apply Hne in Hin. subst b. simpl in Hin. lia.
Qed.

Lemma BlenderThread__init__log command0 jobs0 log_loc0 name0 timeout0 to_stdout0
    MAX_PER_JOB w th w' :
  BlenderThread__init__ command0 jobs0 log_loc0 name0 timeout0 to_stdout0 MAX_PER_JOB w
  = Ok th w' ->
  log_loc th = (if to_stdout0 then None else log_loc0) /\ command th = command0
  /\ files w' = files w /\ console w' = console w.
Proof.
  unfold BlenderThread__init__.
  destruct (split_into_batches jobs0 MAX_PER_JOB) as [e|batches]; [done|].
  destruct to_stdout0, log_loc0; cbv [bind ret perf_counter open_append];
    intros; by simplify_eq.
Qed.

(** X3: [BlenderThread.__init__] returns exactly when the job list is not
    empty and [MAX_PER_JOB] is positive.  Otherwise it raises before it
    has read the clock or opened the log: [ZeroDivisionError] when
    [MAX_PER_JOB] is 0, and [ValueError] from [array_split] in every other
    case. *)
Theorem BlenderThread__init__outcome command0 (jobs0 : list Job) log_loc0 name0 timeout0
    to_stdout0 (MAX_PER_JOB : Z) w :
  ((exists th w',
       BlenderThread__init__ command0 jobs0 log_loc0 name0 timeout0 to_stdout0
         MAX_PER_JOB w = Ok th w')
   <-> jobs0 <> [] /\ (0 < MAX_PER_JOB)%Z)
  /\ (forall e w',
        BlenderThread__init__ command0 jobs0 log_loc0 name0 timeout0 to_stdout0
          MAX_PER_JOB w = Raise e w' ->
        w' = w
        /\ e = if (MAX_PER_JOB =? 0)%Z then ZeroDivisionError else ValueError)
  /\ (forall w',
        BlenderThread__init__ command0 jobs0 log_loc0 name0 timeout0 to_stdout0
          MAX_PER_JOB w <> Spin w').
Proof.
  destruct (split_into_batches_cases jobs0 MAX_PER_JOB)
    as [(Hne & HM & batches & Hb & _)|[Hbad Hb]].
  - destruct (BlenderThread__init__ok command0 jobs0 log_loc0 name0 timeout0 to_stdout0
                MAX_PER_JOB batches w Hb) as (th & w' & Hinit & _).
    rewrite Hinit. split; [|split]; [|done..].
    split; [done|]. intros _. by eexists _, _.
  - rewrite (BlenderThread__init__raise _ _ _ _ _ _ _ _ _ Hb).
    split; [|split]; [| |done].
    + split; [by intros (? & ? & ?)|]. intros [? ?]. destruct Hbad; [done|lia].
    + intros e w' [= <- <-]. done.
Qed.

Lemma make_threads_cases command0 jsons logs print_to_stdout (MAX_PER_JOB : Z) count :
  forall i w,
    i + count <= length jsons -> i + count <= length logs ->
    match make_threads command0 jsons logs print_to_stdout MAX_PER_JOB i count w with
    | Ok ths w' =>
        length ths = count
        /\ (count = 0
            \/ ((0 < MAX_PER_JOB)%Z
                /\ forall j lane, i <= j < i + count -> jsons !! j = Some lane -> lane <> []))
    | Raise e w' =>
        0 < count
        /\ ((MAX_PER_JOB <= 0)%Z \/ exists j, i <= j < i + count /\ jsons !! j = Some [])
        /\ e = (if (MAX_PER_JOB =? 0)%Z then ZeroDivisionError else ValueError)
    | Spin _ => False
    end.
Proof.
  induction count as [|count IH]; intros i w Hj Hl; simpl.
  { split; [done|by left]. }
  destruct (lookup_lt_is_Some_2 jsons i) as [jobs_i Hji]; [lia|].
  destruct (lookup_lt_is_Some_2 logs i) as [log_i Hli]; [lia|].
  rewrite Hji, Hli. unfold bind at 1.
  destruct (split_into_batches_cases jobs_i MAX_PER_JOB)
    as [(Hne & HM & batches & Hb & _)|[Hbad Hb]].
  - destruct (BlenderThread__init__ok command0 jobs_i (Some log_i) (pretty i) 100
                print_to_stdout MAX_PER_JOB batches w Hb) as (th & w1 & -> & _).
    specialize (IH (S i) w1 ltac:(lia) ltac:(lia)). unfold bind.
    destruct (make_threads _ _ _ _ _ (S i) count w1) as [rest w2|e w2|w2]; [| |done].
    + destruct IH as [Hlen Hrest]. simpl. split; [lia|]. right. split; [done|].
      intros j lane Hij Hlane.
      destruct (decide (j = i)) as [->|]; [congruence|].
      destruct Hrest as [->|[_ Hrest]]; [lia|]. eapply Hrest; [|done]. lia.
    + destruct IH as (Hpos & Hwhy & ->). split; [lia|]. split; [|done].
      destruct Hwhy as [|(j & ? & ?)]; [by left|]. right. exists j. split; [lia|done].
  - rewrite (BlenderThread__init__raise _ _ _ _ _ _ _ _ _ Hb).
    split; [lia|]. split; [|done].
    destruct Hbad as [->|]; [|by left]. right. exists i. split; [lia|done].
Qed.

(** X4: the manager's constructor returns exactly when there is no lane
    at all, or [MAX_PER_JOB] is positive and no lane is empty.  When it
    raises, the error is [ZeroDivisionError] for [MAX_PER_JOB = 0] and
    [ValueError] otherwise, and no process has been started or killed.
    It never loops. *)
Theorem manager_construction_outcome command0 jsons output_directory print_to_stdout
    (MAX_PER_JOB : Z) w :
  ((exists m w',
       BlenderThreadManager__init__ command0 jsons output_directory print_to_stdout
         MAX_PER_JOB w = Ok m w')
   <-> jsons = [] \/ ((0 < MAX_PER_JOB)%Z /\ Forall (fun lane => lane <> []) jsons))
  /\ (forall e w',
        BlenderThreadManager__init__ command0 jsons output_directory print_to_stdout
          MAX_PER_JOB w = Raise e w' ->
        e = (if (MAX_PER_JOB =? 0)%Z then ZeroDivisionError else ValueError)
        /\ procs w' = procs w /\ kills w' = kills w)
  /\ (forall w',
        BlenderThreadManager__init__ command0 jsons output_directory print_to_stdout
          MAX_PER_JOB w <> Spin w').
Proof.
  pose proof (quiet_BlenderThreadManager__init__ command0 jsons output_directory
                print_to_stdout MAX_PER_JOB w) as Hq.
  destruct (BlenderThreadManager__init__unfold command0 jsons output_directory
              print_to_stdout MAX_PER_JOB w) as (logs & Hlogs & Heq).
  rewrite Heq in *. clear Heq.
  pose proof (make_threads_cases command0 jsons logs print_to_stdout MAX_PER_JOB
                (length jsons) 0 (next_instant (next_instant (next_instant w)))
                ltac:(simpl; lia) ltac:(simpl; lia)) as Hmk.
  unfold bind in *.
  destruct (make_threads _ _ _ _ _ _ _ _) as [ths w1|e w1|w1]; [| |done].
  - split; [|split]; [|done..]. split; [|intros _; by eexists _, _].
    intros _. destruct Hmk as [_ [Hz|[HM Hne]]].
    + left. by apply length_zero_iff_nil.
    + right. split; [done|]. apply Forall_lookup. intros j lane Hl.
      eapply Hne; [|done]. apply lookup_lt_Some in Hl. lia.
  - destruct Hmk as (Hpos & Hwhy & ->). split; [|split]; [| |done].
    + split; [by intros (? & ? & ?)|].
      intros [->|[HM Hne]]; [simpl in Hpos; lia|].
      destruct Hwhy as [|(j & _ & Hl)]; [lia|].
      rewrite Forall_lookup in Hne. exfalso. by eapply Hne.
    + intros e w' [= <- <-]. split; [done|]. by destruct Hq as (_ & ? & ?).
Qed.

(** ** The lanes of a manager *)

Lemma make_threads_lanes command0 jsons logs print_to_stdout (MAX_PER_JOB : Z) count :
  forall i w ths w',
    make_threads command0 jsons logs print_to_stdout MAX_PER_JOB i count w = Ok ths w' ->
    length ths = count
    /\ files w' = files w /\ console w' = console w
    /\ forall k th, ths !! k = Some th ->
         exists lane log,
           jsons !! (i + k) = Some lane /\ logs !! (i + k) = Some log
           /\ split_into_batches lane MAX_PER_JOB = inr (jobs th)
           /\ njobs th = length (jobs th) /\ lane_size th = length lane
           /\ process th = None /\ job th = (-1)%Z /\ finished th = false
           /\ name th = pretty (i + k) /\ to_stdout th = print_to_stdout
           /\ log_loc th = (if print_to_stdout then None else Some log)
           /\ command th = command0.
Proof.
  induction count as [|count IH]; intros i w ths w' H; simpl in H.
  { injection H as <- <-. by repeat split. }
  destruct (jsons !! i) as [jobs_i|] eqn:Hji; [|done].
  destruct (logs !! i) as [log_i|] eqn:Hli; [|done].
  apply bind_Ok in H as (th0 & w1 & Hth & H).
  apply bind_Ok in H as (rest & w2 & Hrest & H).
  injection H as <- <-.
  destruct (IH _ _ _ _ Hrest) as (Hlen & Hf & Hc & Hlanes).
  pose proof (BlenderThread__init__inv _ _ _ _ _ _ _ _ _ _ Hth)
    as (?&?&?&?&?&?&?&?&?&?&?).
  pose proof (BlenderThread__init__log _ _ _ _ _ _ _ _ _ _ Hth) as (Hlog & ? & Hf1 & Hc1).
  split; [simpl; lia|]. split; [congruence|]. split; [congruence|].
  intros [|k] th Hk; simpl in Hk.
  - injection Hk as <-. rewrite Nat.add_0_r. exists jobs_i, log_i.
    by repeat split.
  - destruct (Hlanes k th Hk) as (lane & log & Hl).
    exists lane, log. by replace (i + S k) with (S i + k) by lia.
Qed.

Lemma split_into_batches_concat {A} `{!Numpy A} (lane : list A) (MAX_PER_JOB : Z) batches :
  split_into_batches lane MAX_PER_JOB = inr batches ->
  concat batches = asarray lane /\ batches <> []
  /\ Forall (fun batch => batch <> []) batches.
Proof.
  intros Hb.
  destruct (split_into_batches_cases lane MAX_PER_JOB)
    as [(_ & _ & batches' & Hb' & ? & ? & ?)|[_ Hb']]; [|congruence].
  rewrite Hb in Hb'. by simplify_eq.
Qed.

Lemma BlenderThreadManager__init__lanes command0 jsons output_directory print_to_stdout
    MAX_PER_JOB w m w' :
  BlenderThreadManager__init__ command0 jsons output_directory print_to_stdout MAX_PER_JOB w
  = Ok m w' ->
  num_threads m = length jsons /\ length (threads m) = length jsons
  /\ length (log_locs m) = length jsons
  /\ session_start m = None
  /\ files w' = files w /\ console w' = console w
  /\ forall i th, threads m !! i = Some th ->
       exists lane log,
         jsons !! i = Some lane /\ log_locs m !! i = Some log
         /\ split_into_batches lane MAX_PER_JOB = inr (jobs th)
         /\ njobs th = length (jobs th) /\ lane_size th = length lane
         /\ process th = None /\ job th = (-1)%Z /\ finished th = false
         /\ name th = pretty i /\ to_stdout th = print_to_stdout
         /\ log_loc th = (if print_to_stdout then None else Some log)
         /\ command th = command0.
Proof.
  unfold BlenderThreadManager__init__. intros H.
  apply bind_Ok in H as (now & w1 & Hnow & H).
  apply bind_Ok in H as ([] & w2 & Hmk & H).
  apply bind_Ok in H as (entries & w3 & Hls & H).
  apply bind_Ok in H as (ths & w4 & Hths & H).
  injection H as <- <-.
  destruct (make_threads_lanes _ _ _ _ _ _ _ _ _ _ Hths) as (Hlen & Hf & Hc & Hlanes).
  cbn [num_threads threads log_locs session_start].
  split; [done|]. split; [done|].
  split; [by rewrite length_fmap, length_seq|]. split; [done|].
  unfold datetime_now in Hnow. unfold makedirs, tick in Hmk. unfold listdir in Hls.
  simplify_eq. split; [done|]. split; [done|]. exact Hlanes.
Qed.

Lemma manager_lanes_concat command0 jsons output_directory print_to_stdout
    MAX_PER_JOB w m w' :
  BlenderThreadManager__init__ command0 jsons output_directory print_to_stdout MAX_PER_JOB w
  = Ok m w' ->
  lane_jobs <$> threads m = asarray <$> jsons
  /\ BlenderThread__len__ <$> threads m = length <$> jsons.
Proof.
  intros Hinit.
  destruct (BlenderThreadManager__init__lanes _ _ _ _ _ _ _ _ Hinit)
    as (_ & Hlen & _ & _ & _ & _ & Hlanes).
  split; apply list_eq; intros i; rewrite !list_lookup_fmap.
  - destruct (threads m !! i) as [th|] eqn:Hth; simpl.
    + destruct (Hlanes i th Hth) as (lane & log & -> & _ & Hb & _).
      unfold lane_jobs. by apply split_into_batches_concat in Hb as [-> _].
    + apply lookup_ge_None in Hth.
      rewrite (lookup_ge_None_2 jsons i) by lia. done.
  - destruct (threads m !! i) as [th|] eqn:Hth; simpl.
    + destruct (Hlanes i th Hth) as (lane & log & -> & _ & _ & _ & Hsz & _).
      simpl. unfold BlenderThread__len__. by rewrite Hsz.
    + apply lookup_ge_None in Hth.
      rewrite (lookup_ge_None_2 jsons i) by lia. done.
Qed.

Lemma sum_list_lengths {A} (ls : list (list A)) :
  sum_list (length <$> ls) = length (concat ls).
Proof. induction ls as [|l ls IH]; csimpl; [done|]. rewrite length_app, <- IH. done. Qed.

(** X5: the threads of a manager are its lanes, in order: thread [i] is
    named [str(i)], its batches concatenate to the array numpy makes of
    lane [i], it has as many jobs as lane [i], it has no process yet, and
    it logs to the [i]-th log file unless output goes to the console.  So
    the batches of all threads, concatenated, are the lanes as numpy
    stores them -- the lanes themselves when numpy stores every lane's
    jobs as they are given -- and [len(manager)] is the total number of
    jobs. *)
Theorem manager_lanes command0 jsons output_directory print_to_stdout MAX_PER_JOB w m w' :
  BlenderThreadManager__init__ command0 jsons output_directory print_to_stdout MAX_PER_JOB w
  = Ok m w' ->
  length (threads m) = length jsons
  /\ (forall i th, threads m !! i = Some th ->
        name th = pretty i
        /\ (exists lane, jsons !! i = Some lane /\ concat (jobs th) = asarray lane)
        /\ BlenderThread__len__ th = length (concat (jobs th))
        /\ process th = None /\ finished th = false
        /\ log_loc th = (if print_to_stdout then None else log_locs m !! i))
  /\ lane_jobs <$> threads m = asarray <$> jsons
  /\ (Forall stored_unchanged jsons -> lane_jobs <$> threads m = jsons)
  /\ BlenderThreadManager__len__ m = length (concat jsons).
Proof.
  intros Hinit.
  destruct (BlenderThreadManager__init__lanes _ _ _ _ _ _ _ _ Hinit)
    as (_ & Hlen & _ & _ & _ & _ & Hlanes).
  destruct (manager_lanes_concat _ _ _ _ _ _ _ _ Hinit) as [Hcat Hsz].
  split; [done|]. split; [|split; [|split]].
  - intros i th Hth.
    destruct (Hlanes i th Hth)
      as (lane & log & Hl & Hlog & Hb & _ & Hsize & Hp & _ & Hf & Hn & _ & Hloc & _).
    apply split_into_batches_concat in Hb as [Hb _].
    unfold BlenderThread__len__. rewrite Hb, Hlog, length_asarray.
    split; [done|]. split; [by exists lane|]. by repeat split.
  - done.
  - intros Hsame. rewrite Hcat. clear -Hsame.
    induction Hsame as [|lane rest Hl _ IH]; [done|]. by rewrite fmap_cons, Hl, IH.
  - unfold BlenderThreadManager__len__. rewrite Hsz. apply sum_list_lengths.
Qed.

(** ** A session built from [list_split] *)

Lemma list_split_nonempty_lanes {A} `{!Numpy A} (l : list A) (L : Z) :
  (0 < L <= Z.of_nat (length l))%Z ->
  exists lanes,
    list_split l L = inr lanes /\ length lanes = Z.to_nat L /\ concat lanes = asarray l
    /\ Forall (fun lane => lane <> []) lanes.
Proof.
  intros [HL Hle].
  destruct (list_split_parts l L HL) as (lanes & Hsplit & Hlen & Hcat & Hsz).
  exists lanes. repeat split; try done.
  apply Forall_forall. intros lane Hin ->. apply Hsz in Hin. simpl in Hin.
  apply list_elem_of_lookup in Hin as [i Hi].
  pose proof (lookup_lt_Some _ _ _ Hi) as Hlt.
  rewrite section_sizes_length in Hlt by lia.
  rewrite section_sizes_lookup in Hi by done.
  assert (1 <= length l / Z.to_nat L); [|simplify_eq; lia].
  apply Nat.div_le_lower_bound; lia.
Qed.

(** X6: a session for [L] lanes cut by [list_split] out of at least [L]
    jobs can always be constructed when [MAX_PER_JOB] is positive; it has
    [L] threads and its length is the number of jobs.  The lanes
    concatenate to the array numpy makes of the job list, and the batches
    of the threads, taken in lane order and batch order, to the arrays
    numpy makes of the lanes: they are the job list itself when numpy
    stores the job list and every lane as they are given. *)
Theorem session_from_list_split command0 (all_jobs : list Job) (L : Z) output_directory
    print_to_stdout (MAX_PER_JOB : Z) w :
  (0 < L <= Z.of_nat (length all_jobs))%Z -> (0 < MAX_PER_JOB)%Z ->
  exists lanes m w',
    list_split all_jobs L = inr lanes
    /\ BlenderThreadManager__init__ command0 lanes output_directory print_to_stdout
         MAX_PER_JOB w = Ok m w'
    /\ length (threads m) = Z.to_nat L
    /\ concat lanes = asarray all_jobs
    /\ concat (lane_jobs <$> threads m) = concat (asarray <$> lanes)
    /\ (stored_unchanged all_jobs -> Forall stored_unchanged lanes ->
        concat (lane_jobs <$> threads m) = all_jobs)
    /\ BlenderThreadManager__len__ m = length all_jobs.
Proof.
  intros HL HM.
  destruct (list_split_nonempty_lanes all_jobs L HL) as (lanes & Hsplit & Hlen & Hcat & Hne).
  destruct (BlenderThreadManager__init__unfold command0 lanes output_directory
              print_to_stdout MAX_PER_JOB w) as (logs & Hlogs & Heq).
  destruct (make_threads_ok command0 lanes logs print_to_stdout MAX_PER_JOB (length lanes)
              HM 0 (next_instant (next_instant (next_instant w))))
    as (ths & w' & Hmk & _); [simpl; lia|simpl; lia|done|].
  unfold bind in Heq. rewrite Hmk in Heq. unfold ret in Heq.
  eexists lanes, _, _. split; [done|]. split; [exact Heq|].
  destruct (BlenderThreadManager__init__lanes _ _ _ _ _ _ _ _ Heq) as (_ & Hl & _).
  destruct (manager_lanes_concat _ _ _ _ _ _ _ _ Heq) as [Hc Hsz].
  split; [lia|]. split; [done|]. split; [by rewrite Hc|]. split.
  - intros Hall Hsame. rewrite Hc, <- Hall, <- Hcat. f_equal. clear -Hsame.
    induction Hsame as [|lane rest Hl _ IH]; [done|]. by rewrite fmap_cons, Hl, IH.
  - unfold BlenderThreadManager__len__.
    by rewrite Hsz, sum_list_lengths, Hcat, length_asarray.
Qed.

(** X7: with more lanes than jobs [list_split] hands out empty lanes, and
    the manager cannot be constructed from them: the constructor raises
    [ValueError] (no process has been started). *)
Theorem more_lanes_than_jobs_raises command0 (all_jobs : list Job) (L : Z) output_directory
    print_to_stdout (MAX_PER_JOB : Z) w :
  (Z.of_nat (length all_jobs) < L)%Z -> (0 < MAX_PER_JOB)%Z ->
  exists lanes w',
    list_split all_jobs L = inr lanes
    /\ [] ∈ lanes
    /\ BlenderThreadManager__init__ command0 lanes output_directory print_to_stdout
         MAX_PER_JOB w = Raise ValueError w'
    /\ procs w' = procs w.
Proof.
  intros HL HM.
  set (lanes := ((fun x => [x]) <$> asarray all_jobs)
                  ++ replicate (Z.to_nat L - length all_jobs) []).
  assert (list_split all_jobs L = inr lanes) as Hsplit.
  { rewrite list_split_reshape by lia. f_equal. unfold section_sizes.
    rewrite Nat.div_small, Nat.mod_small by lia. simpl.
    rewrite <- (length_asarray all_jobs) at 1. apply reshape_singletons. }
  assert (lanes !! length all_jobs = Some []) as Hempty.
  { subst lanes. rewrite lookup_app_r by (rewrite length_fmap, length_asarray; lia).
    rewrite length_fmap, length_asarray, Nat.sub_diag. apply lookup_replicate_2. lia. }
  pose proof (quiet_BlenderThreadManager__init__ command0 lanes output_directory
                print_to_stdout MAX_PER_JOB w) as Hq.
  destruct (BlenderThreadManager__init__unfold command0 lanes output_directory
              print_to_stdout MAX_PER_JOB w) as (logs & Hlogs & Heq).
  rewrite Heq in Hq.
  pose proof (make_threads_cases command0 lanes logs print_to_stdout MAX_PER_JOB
                (length lanes) 0 (next_instant (next_instant (next_instant w)))
                ltac:(simpl; lia) ltac:(simpl; lia)) as Hmk.
  unfold bind in *.
  destruct (make_threads _ _ _ _ _ _ _ _) as [ths w1|e w1|w1]; [| |done].
  - exfalso. destruct Hmk as [_ [Hz|[_ Hne]]].
    + apply lookup_lt_Some in Hempty. lia.
    + eapply (Hne (length all_jobs) []); [|done|done].
      apply lookup_lt_Some in Hempty. lia.
  - destruct Hmk as (_ & _ & ->).
    destruct (Z.eqb_spec MAX_PER_JOB 0) as [|_]; [lia|].
    exists lanes, w1. split; [done|]. split; [by eapply list_elem_of_lookup_2|].
    split; [exact Heq|]. by destruct Hq as (_ & ? & _).
Qed.

(** ** The methods of a lane, one call at a time *)

(** Every way in which [check_in] returns. *)
Lemma check_in_inv th w th' w' :
  check_in th w = Ok th' w' ->
  same_config th th' /\ prev_n th' = prev_n th /\ timer th' = timer th
  /\ kills w' = kills w /\ files w' = files w /\ console w' = console w
  /\ instant w <= instant w'
  /\ (((exists pid, process th = Some pid /\ exited w pid = false)
       /\ th' = th /\ procs w' = procs w)
      \/ ((forall pid, process th = Some pid -> exited w pid = true)
          /\ job th' = (job th + 1)%Z
          /\ (((Z.of_nat (njobs th) <= job th + 1)%Z
               /\ finished th' = true /\ process th' = process th
               /\ procs w' = procs w)
              \/ ((job th + 1 < Z.of_nat (njobs th))%Z
                  /\ finished th' = finished th
                  /\ process th' = Some (length (procs w))
                  /\ exists batch p,
                       py_index (jobs th) (job th + 1) = Some batch
                       /\ procs w' = procs w ++ [p]
                       /\ p_owner p = name th
                       /\ p_argv p = set_job (command th) batch
                       /\ p_stdout p = (if to_stdout th then None else log_loc th)
                       /\ instant w <= born p < instant w'
                       /\ dies p
                          = (fun d => born p + d) <$> proc_life E (length (procs w)))))).
Proof.
  intros H.
  assert (exists w1,
             (w1 = w \/ w1 = next_instant w)
             /\ ((exists pid, process th = Some pid /\ exited w pid = false)
                 /\ th' = th /\ w' = next_instant w
                 \/ (forall pid, process th = Some pid -> exited w pid = true)
                    /\ (if (Z.of_nat (njobs th) <=? job th + 1)%Z
                        then ret (with_status ("✓ THREAD " +:+ name th +:+ " COMPLETED.")
                                    (with_finished (with_job (job th + 1) th)))
                        else start_job
                               (with_status ("THREAD " +:+ name th +:+ " RUNNING JOB "
                                               +:+ pretty (job th + 1 + 1)%Z +:+ "/"
                                               +:+ pretty (njobs th) +:+ "...")
                                  (with_job (job th + 1) th))
                               (job th + 1)%Z) w1
                       = Ok th' w'))
    as (w1 & Hw1 & [(Hrun & -> & ->)|(Hex & Htail)]).
  { unfold check_in, bind, is_running in H.
    destruct (process th) as [pid|] eqn:Hp.
    - unfold poll_is_None in H. destruct (exited w pid) eqn:He; simpl in H.
      + exists (next_instant w). split; [by right|]. right. split; [|exact H].
        by intros ? [= <-].
      + injection H as <- <-. exists w. split; [by left|]. left. eauto.
    - exists w. split; [by left|]. right. split; [done|exact H]. }
  - repeat split; try done. simpl. lia. by left.
  - assert (procs w1 = procs w /\ kills w1 = kills w /\ files w1 = files w
            /\ console w1 = console w /\ instant w <= instant w1 <= S (instant w))
      as (Hp1 & Hk1 & Hf1 & Hc1 & Hi1).
    { destruct Hw1 as [->| ->]; simpl; repeat split; lia. }
    destruct (Z.leb_spec (Z.of_nat (njobs th)) (job th + 1)) as [Hlast|Hmore].
    + injection Htail as <- <-. repeat split; try done; [lia|].
      right. split; [done|]. split; [done|]. left. by repeat split.
    + unfold start_job in Htail.
      cbn [jobs command name to_stdout log_loc with_status with_job] in Htail.
      destruct (py_index (jobs th) (job th + 1)) as [batch|] eqn:Hb; [|done].
      unfold bind, Popen, ret in Htail. injection Htail as <- <-.
      repeat split; try done; [simpl; lia|].
      right. split; [done|]. split; [done|]. right.
      split; [done|]. split; [done|]. simpl. rewrite Hp1. split; [done|].
      eexists batch, _. split; [done|]. split; [done|]. simpl.
      repeat split; try done; lia.
Qed.

Lemma BlenderThread__init__wf command0 jobs0 log_loc0 name0 timeout0 to_stdout0
    MAX_PER_JOB w th w' :
  BlenderThread__init__ command0 jobs0 log_loc0 name0 timeout0 to_stdout0 MAX_PER_JOB w
  = Ok th w' ->
  lane_wf th.
Proof.
  intros Hinit.
  pose proof (BlenderThread__init__inv _ _ _ _ _ _ _ _ _ _ Hinit)
    as (Hb & Hn & Hsz & Hp & Hj & Hf & _ & _ & _ & _ & Hto).
  pose proof (BlenderThread__init__log _ _ _ _ _ _ _ _ _ _ Hinit) as (Hlog & _).
  apply split_into_batches_concat in Hb as (Hcat & Hne & Hall).
  unfold lane_wf, lane_jobs. rewrite Hcat, length_asarray, Hn, Hsz, Hp, Hj, Hf, Hlog, Hto.
  repeat split; try done.
  - destruct (jobs th); [done|simpl; lia].
  - intros ?. lia.
  - by intros ->.
Qed.

Lemma check_in_wf th w th' w' :
  lane_wf th -> check_in th w = Ok th' w' -> lane_wf th'.
Proof.
  intros (Hn & Hpos & Hne & Hsz & Hj & Hp & Hf & Hto) Hc.
  apply check_in_inv in Hc
    as ((Hcmd & Hjobs & Hnj & Hls & _ & Hts & Hll & _) & _ & _ & _ & _ & _ & _ & Hcases).
  destruct Hcases as [(_ & -> & _)|(_ & Hj' & Hcases)]; [done|].
  unfold lane_wf, lane_jobs in *. rewrite Hjobs, Hnj, Hls, Hts, Hll, Hj'.
  destruct Hcases as [(Hlast & Hf' & Hp' & _)|(Hmore & Hf' & Hp' & _)];
    rewrite Hf', Hp'; repeat split; try done; try lia.
  - intros Hnone. apply Hp in Hnone. lia.
  - intros Hfin. apply Hf in Hfin. lia.
Qed.

Lemma check_status_config th w b th' w' :
  check_status th w = Ok (b, th') w' ->
  same_config th th' /\ process th' = process th /\ job th' = job th
  /\ finished th' = finished th
  /\ prev_n th <= prev_n th' /\ (prev_n th' = prev_n th -> th' = th)
  /\ (b = false -> th' = th)
  /\ procs w' = procs w /\ kills w' = kills w /\ files w' = files w
  /\ console w' = console w.
Proof.
  intros H.
  pose proof (quiet_num_rendered th w) as Hq.
  pose proof (num_rendered_keeps_files th w) as Hfiles.
  assert (console (world_of (num_rendered th w)) = console w) as Hcons.
  { unfold num_rendered. destruct (process th); [|done].
    destruct (to_stdout th); [done|]. by destruct (log_loc th). }
  unfold check_status, bind, perf_counter, ret in H.
  destruct (num_rendered th w) as [n w1|e w1|w1]; [|done..].
  destruct Hq as (_ & Hp & Hk). simpl in Hfiles, Hcons.
  destruct (Nat.ltb_spec (prev_n th) n).
  - injection H as <- <- <-. unfold same_config. simpl.
    repeat split; try done; [lia|].
    intros ?. lia.
  - destruct (Qle_bool _ _); injection H as <- <- <-; unfold same_config; simpl;
      by repeat split.
Qed.

Lemma check_status_wf th w b th' w' :
  lane_wf th -> check_status th w = Ok (b, th') w' -> lane_wf th'.
Proof.
  intros Hwf Hc.
  apply check_status_config in Hc
    as ((_ & Hjobs & Hnj & Hls & _ & Hts & Hll & _) & Hp & Hj & Hf & _).
  unfold lane_wf, lane_jobs in *. by rewrite Hjobs, Hnj, Hls, Hts, Hll, Hp, Hj, Hf.
Qed.

Lemma reachable_wf th : reachable th -> lane_wf th.
Proof.
  induction 1 as [c j l n t s M w th w' Hinit|th w th' w' _ IH Hc|th w b th' w' _ IH Hc].
  - by eapply BlenderThread__init__wf.
  - by eapply check_in_wf.
  - by eapply check_status_wf.
Qed.

(** X8: what holds of a lane at any time after its construction: it has
    at least one batch and no empty batch, the batches together hold as
    many jobs as [len(thread)] reports, [job] is at least -1 and is -1
    exactly as long as no process has been started, [finished] is set
    exactly when [job] has run past the last batch, and a lane that prints
    to the console has no log file. *)
Theorem lane_invariant th :
  reachable th ->
  njobs th = length (jobs th) /\ 0 < njobs th
  /\ (forall batch, batch ∈ jobs th -> batch <> [])
  /\ BlenderThread__len__ th = length (lane_jobs th)
  /\ (-1 <= job th)%Z
  /\ (process th = None <-> job th = (-1)%Z)
  /\ (finished th = true <-> (Z.of_nat (njobs th) <= job th)%Z)
  /\ (to_stdout th = true -> log_loc th = None).
Proof.
  intros Hr. destruct (reachable_wf th Hr) as (?&?&Hne&?&?&?&?&?).
  repeat split; try done; try tauto.
  intros batch Hin. by eapply Forall_forall in Hne.
Qed.

Lemma py_index_lookup {A} (l : list A) (i : Z) :
  (0 <= i < Z.of_nat (length l))%Z ->
  exists x, py_index l i = Some x /\ l !! Z.to_nat i = Some x.
Proof.
  intros Hi. unfold py_index. destruct (Z.leb_spec 0 i); [|lia].
  destruct (lookup_lt_is_Some_2 l (Z.to_nat i)) as [x Hx]; [lia|]. eauto.
Qed.

Lemma check_in_returns th w :
  lane_wf th -> exists th' w', check_in th w = Ok th' w'.
Proof.
  intros (Hn & _ & _ & _ & Hj & _).
  destruct (process th) as [pid|] eqn:Hp.
  - destruct (exited w pid) eqn:He.
    + pose proof (check_in_idle th w) as H. rewrite Hp in H.
      specialize (H ltac:(by intros ? [= <-])). cbv zeta in H.
      destruct (Z.leb_spec (Z.of_nat (njobs th)) (job th + 1)); [eauto|].
      destruct (py_index_lookup (jobs th) (job th + 1) ltac:(lia)) as (x & Hx & _).
      rewrite Hx in H. destruct H as (th' & w' & ? & _). eauto.
    + rewrite (check_in_running th w pid Hp He). eauto.
  - pose proof (check_in_idle th w) as H. rewrite Hp in H.
    specialize (H ltac:(done)). cbv zeta in H.
    destruct (Z.leb_spec (Z.of_nat (njobs th)) (job th + 1)); [eauto|].
    destruct (py_index_lookup (jobs th) (job th + 1) ltac:(lia)) as (x & Hx & _).
    rewrite Hx in H. destruct H as (th' & w' & ? & _). eauto.
Qed.

(** X9: on a lane obtained from the constructor by method calls,
    [check_in] always returns: the batch it looks up exists, so that
    [jobs[job]] never raises [IndexError]; and it leaves the lane's
    configuration, the files, the console and the record of kills as they
    are. *)
Theorem check_in_never_raises th w :
  reachable th ->
  exists th' w',
    check_in th w = Ok th' w'
    /\ reachable th' /\ same_config th th'
    /\ kills w' = kills w /\ files w' = files w /\ console w' = console w.
Proof.
  intros Hr.
  destruct (check_in_returns th w (reachable_wf th Hr)) as (th' & w' & Hc).
  exists th', w'. split; [done|]. split; [by eapply reach_check_in|].
  apply check_in_inv in Hc as (? & _ & _ & ? & ? & ? & _). done.
Qed.

(** X10: when the lane's process is not running and batches are left,
    [check_in] starts exactly one process, for the batch that follows the
    last one started: batch number [job + 1] of the lane's list, bound
    into the command by [set_job], with its output going to the lane's
    log; and [job] then is that batch's number. *)
Theorem check_in_starts_the_next_batch th w :
  reachable th ->
  (forall pid, process th = Some pid -> exited w pid = true) ->
  (job th + 1 < Z.of_nat (njobs th))%Z ->
  exists th' w' batch p,
    check_in th w = Ok th' w'
    /\ jobs th !! Z.to_nat (job th + 1) = Some batch
    /\ job th' = (job th + 1)%Z
    /\ procs w' = procs w ++ [p]
    /\ process th' = Some (length (procs w))
    /\ p_owner p = name th
    /\ p_argv p = set_job (command th) batch
    /\ p_stdout p = log_loc th
    /\ instant w <= born p < instant w'
    /\ finished th' = false.
Proof.
  intros Hr Hex Hmore.
  pose proof (reachable_wf th Hr) as Hwf.
  destruct (check_in_returns th w Hwf) as (th' & w' & Hc).
  destruct Hwf as (Hn & _ & _ & _ & Hj & _ & Hf & Hto).
  pose proof (check_in_inv _ _ _ _ Hc) as (_ & _ & _ & _ & _ & _ & _ & Hcases).
  destruct Hcases as [((pid & Hp & He) & _)|(_ & Hj' & Hcases)].
  { rewrite (Hex pid Hp) in He. done. }
  destruct Hcases as [(? & _)|(_ & Hf' & Hp' & batch & p & Hb & Hprocs & Ho & Ha & Hs & Hi & _)];
    [lia|].
  exists th', w', batch, p. split; [done|].
  split; [apply py_index_Some; [done|lia]|].
  repeat split; try done; try lia.
  - rewrite Hs. destruct (to_stdout th); [|done]. symmetry. by apply Hto.
  - rewrite Hf'. destruct (finished th); [|done]. destruct Hf as [Hf _].
    specialize (Hf eq_refl). lia.
Qed.

(** ** Killing a lane's process *)

Lemma exited_after_kill w pid w2 :
  quiet_rel (world_of (Popen_kill pid w)) w2 ->
  (S (instant w) + kill_lag E pid <= instant w2 -> exited w2 pid = true)
  /\ (forall p, procs w !! pid = Some p -> instant w2 < S (instant w) + kill_lag E pid ->
        exited w2 pid
        = match dies p with Some d => bool_decide (d <= instant w2) | None => false end).
Proof.
  intros (Hi & Hp & _). unfold exited. rewrite Hp. simpl in *.
  rewrite list_lookup_alter. destruct (decide (pid = pid)); [|done].
  split.
  - intros Hlag. destruct (procs w !! pid) as [p|]; [|done]. simpl.
    destruct (dies p) as [d|]; apply bool_decide_eq_true; lia.
  - intros p Hpid Hlag. rewrite Hpid. simpl.
    destruct (dies p) as [d|]; [|apply bool_decide_eq_false; lia].
    apply bool_decide_ext. lia.
Qed.

(** X11: [terminate] raises [AttributeError] on a lane that has not
    started a process.  Otherwise it sends the kill to the lane's own
    process, records it and returns at once, leaving every other process
    as it is.  The process is not waited for: until [kill_lag] instants
    after the call has returned it is seen exactly as if it had not been
    killed, so right after the call [is_running] can still be true and a
    [check_in] then leaves the lane on its batch.  Once the lag has
    passed the process has exited.  Whenever it is made, the next
    [check_in] returns: it leaves the lane as it is while the process is
    seen running, and moves the lane on to the following batch once the
    process has exited -- the batch that was killed is not started
    again. *)
Theorem terminate_moves_the_lane_on th w :
  reachable th ->
  (process th = None -> terminate th w = Raise AttributeError w)
  /\ (forall pid, process th = Some pid ->
        exists w1,
          terminate th w = Ok tt w1
          /\ instant w1 = S (instant w)
          /\ kills w1 = kills w ++ [pid]
          /\ length (procs w1) = length (procs w)
          /\ (forall pid', pid' <> pid -> procs w1 !! pid' = procs w !! pid')
          /\ forall w2, quiet_rel w1 w2 ->
               (instant w1 + kill_lag E pid <= instant w2 -> exited w2 pid = true)
               /\ (forall p, procs w !! pid = Some p ->
                     instant w2 < instant w1 + kill_lag E pid ->
                     exited w2 pid
                     = match dies p with
                       | Some d => bool_decide (d <= instant w2)
                       | None => false
                       end)
               /\ is_running th w2 = Ok (negb (exited w2 pid)) (next_instant w2)
               /\ exists th' w3,
                    check_in th w2 = Ok th' w3
                    /\ (exited w2 pid = false -> th' = th /\ procs w3 = procs w2)
                    /\ (exited w2 pid = true -> job th' = (job th + 1)%Z)).
Proof.
  intros Hr. split.
  { intros Hp. unfold terminate. by rewrite Hp. }
  intros pid Hp. unfold terminate. rewrite Hp.
  eexists. split; [reflexivity|]. simpl.
  split; [done|]. split; [done|]. split; [by rewrite length_alter|].
  split; [intros pid' Hne; by rewrite list_lookup_alter_ne|].
  intros w2 Hq.
  destruct (exited_after_kill w pid w2 Hq) as [Hlate Hearly].
  split; [exact Hlate|]. split; [exact Hearly|].
  split.
  { unfold is_running, poll_is_None. by rewrite Hp. }
  destruct (check_in_returns th w2 (reachable_wf th Hr)) as (th' & w3 & Hc).
  exists th', w3. split; [done|].
  apply check_in_inv in Hc as (_ & _ & _ & _ & _ & _ & _ & Hcases).
  destruct Hcases as [((pid' & Hp' & He') & -> & Hprocs)|(Hex & Hjob & _)].
  - split; [done|]. intros He. congruence.
  - split; [|done]. intros He. rewrite (Hex pid Hp) in He. done.
Qed.

(** ** The property [complete] *)

(** X12: [complete] is never [False]: it is [None] exactly while the
    lane's process runs and [True] otherwise; on a lane that prints to the
    console it raises [AttributeError] as soon as the process does not
    run, since such a lane has no log file to flush.  It starts and kills
    nothing. *)
Theorem complete_outcome th w :
  reachable th ->
  match complete th w with
  | Ok r w' =>
      r <> Some false
      /\ (r = None <-> exists pid, process th = Some pid /\ exited w pid = false)
      /\ (r = Some true -> to_stdout th = false)
      /\ quiet_rel w w'
  | Raise e w' =>
      e = AttributeError /\ log_loc th = None
      /\ (forall pid, process th = Some pid -> exited w pid = true)
  | Spin _ => False
  end
  /\ (to_stdout th = true ->
      (forall pid, process th = Some pid -> exited w pid = true) ->
      exists w', complete th w = Raise AttributeError w').
Proof.
  intros Hr. destruct (reachable_wf th Hr) as (_ & _ & _ & _ & _ & _ & _ & Hto).
  unfold complete, bind, is_running, poll_is_None, flush, tick, ret, raise.
  destruct (process th) as [pid|] eqn:Hp.
  - destruct (exited w pid) eqn:He; simpl.
    + destruct (log_loc th) as [h|] eqn:Hl; split.
      * split; [done|]. split; [|split].
        -- split; [done|]. intros (pid' & [= <-] & ?). congruence.
        -- intros _. destruct (to_stdout th); [|done]. by specialize (Hto eq_refl).
        -- repeat split; simpl; lia.
      * intros Hts. by specialize (Hto Hts).
      * split; [done|]. split; [done|]. by intros ? [= <-].
      * intros _ _. by eexists.
    + split.
      * split; [done|]. split; [|split]; [|done|apply quiet_rel_next].
        split; [eauto|done].
      * intros _ Hex. by rewrite (Hex pid eq_refl) in He.
  - destruct (log_loc th) as [h|] eqn:Hl; split.
    + split; [done|]. split; [|split].
      * split; [done|]. by intros (pid' & ? & ?).
      * intros _. destruct (to_stdout th); [|done]. by specialize (Hto eq_refl).
      * apply quiet_rel_next.
    + intros Hts. by specialize (Hto Hts).
    + by repeat split.
    + intros _ _. by eexists.
Qed.

(** ** Counting the completed renders *)

Lemma count_marker_lines lines : forall x,
  foldl (fun x line => if String.prefix LOG_PREPEND line then x + 1 else x) x lines
  = x + marker_count lines.
Proof.
  unfold marker_count.
  induction lines as [|line lines IH]; intros x; simpl; [lia|].
  rewrite IH, filter_cons. destruct (String.prefix LOG_PREPEND line) eqn:Hpre.
  - rewrite decide_True by done. simpl. lia.
  - rewrite decide_False by done. lia.
Qed.

Lemma marker_count_le lines : marker_count lines <= length lines.
Proof. unfold marker_count. apply length_filter. Qed.

Lemma marker_count_app l1 l2 :
  marker_count (l1 ++ l2) = marker_count l1 + marker_count l2.
Proof. unfold marker_count. by rewrite filter_app, length_app. Qed.

Lemma num_rendered_log th w pid loc :
  process th = Some pid -> to_stdout th = false -> log_loc th = Some loc ->
  num_rendered th w = Ok (marker_count (log_lines E (instant w) loc)) (next_instant w).
Proof.
  intros Hp Hts Hl. unfold num_rendered, bind, readlines, ret.
  rewrite Hp, Hts, Hl. by rewrite count_marker_lines.
Qed.

(** X13: [num_rendered] is 0, without the log being read, as long as the
    lane has started no process; afterwards it is the number of lines of
    the lane's log that start with [LOG_PREPEND], which is at most the
    number of lines, and lines appended to the log add their own marker
    lines to it; on a lane that prints to the console it raises, since
    [sys.stdout] cannot be read. *)
Theorem num_rendered_counts_marker_lines th w :
  (process th = None -> num_rendered th w = Ok 0 w)
  /\ (forall pid loc,
        process th = Some pid -> to_stdout th = false -> log_loc th = Some loc ->
        num_rendered th w
        = Ok (marker_count (log_lines E (instant w) loc)) (next_instant w)
        /\ marker_count (log_lines E (instant w) loc)
           <= length (log_lines E (instant w) loc)
        /\ forall w2 more,
             log_lines E (instant w2) loc = log_lines E (instant w) loc ++ more ->
             num_rendered th w2
             = Ok (marker_count (log_lines E (instant w) loc) + marker_count more)
                  (next_instant w2))
  /\ (forall pid,
        process th = Some pid -> to_stdout th = true ->
        num_rendered th w = Raise UnsupportedOperation w).
Proof.
  split; [|split].
  - intros Hp. unfold num_rendered. by rewrite Hp.
  - intros pid loc Hp Hts Hl. split; [by eapply num_rendered_log|].
    split; [apply marker_count_le|].
    intros w2 more Hmore.
    rewrite (num_rendered_log th w2 pid loc Hp Hts Hl), Hmore.
    by rewrite marker_count_app.
  - intros pid Hp Hts. unfold num_rendered. by rewrite Hp, Hts.
Qed.

(** ** What a stall check leaves alone *)

(** X14: [check_status] changes nothing of a lane but the highest count
    seen and the stall timer: the configuration, the process handle, the
    batch number and the [finished] flag stay as they are.  The highest
    count seen never goes down, the lane is left exactly as it was unless
    that count went up (so also whenever the answer is [False]), and the
    call starts and kills no process, writes no file and prints
    nothing. *)
Theorem check_status_frame th w b th' w' :
  check_status th w = Ok (b, th') w' ->
  same_config th th' /\ process th' = process th /\ job th' = job th
  /\ finished th' = finished th
  /\ prev_n th <= prev_n th' /\ (prev_n th' = prev_n th -> th' = th)
  /\ (b = false -> th' = th)
  /\ procs w' = procs w /\ kills w' = kills w /\ files w' = files w
  /\ console w' = console w.
Proof. apply check_status_config. Qed.

(** ** Computations that only observe, and return *)

Lemma calm_ret {A} (a : A) : calm (ret a).
Proof. intros w. exists a, w. split; [done|apply quiet_rel_refl]. Qed.

Lemma calm_bind {A B} (m : M A) (k : A -> M B) :
  calm m -> (forall a, calm (k a)) -> calm (bind m k).
Proof.
  intros Hm Hk w. destruct (Hm w) as (a & w1 & Ha & Hq1).
  destruct (Hk a w1) as (b & w2 & Hb & Hq2).
  exists b, w2. unfold bind. rewrite Ha. split; [done|by eapply quiet_rel_trans].
Qed.

Lemma calm_next {A} (f : World -> A) : calm (fun w => Ok (f w) (next_instant w)).
Proof. intros w. eexists _, _. split; [done|apply quiet_rel_next]. Qed.

Lemma calm_tick : calm tick.
Proof. apply (calm_next (fun _ => tt)). Qed.

Lemma calm_perf_counter : calm perf_counter.
Proof. apply (calm_next (fun w => perf E (instant w))). Qed.

Lemma calm_datetime_now : calm datetime_now.
Proof. apply (calm_next (fun w => wall E (instant w))). Qed.

Lemma calm_sleep secs : calm (sleep secs).
Proof. apply calm_tick. Qed.

Lemma calm_print line : calm (print line).
Proof. intros w. eexists _, _. split; [done|]. repeat split; simpl; lia. Qed.

Lemma calm_write_file loc lines : calm (write_file loc lines).
Proof. intros w. eexists _, _. split; [done|]. repeat split; simpl; lia. Qed.

Lemma calm_tqdm total initial : calm (tqdm total initial).
Proof.
  apply (calm_next (fun _ => {| pb_total := total; pb_n := initial; pb_desc := "" |})).
Qed.

Lemma calm_pb_set_description desc p : calm (pb_set_description desc p).
Proof.
  apply (calm_next (fun _ => {| pb_total := pb_total p; pb_n := pb_n p; pb_desc := desc |})).
Qed.

Lemma calm_pb_refresh p : calm (pb_refresh p).
Proof. apply calm_tick. Qed.

Lemma calm_pb_close p : calm (pb_close p).
Proof. apply calm_tick. Qed.

Lemma calm_any_running ths : calm (any_running ths).
Proof.
  intros w. destruct (any_running_spec ths w) as (b & w' & H & Hq & _). eauto.
Qed.

Lemma calm_quiet {A} (m : M A) : calm m -> quiet m.
Proof. intros Hm w. destruct (Hm w) as (a & w' & -> & Hq). done. Qed.

(** *** Reading the render counts of lanes that log to a file *)

Lemma num_rendered_reads th w :
  reads_log th ->
  exists w',
    num_rendered th w = Ok (rendered_from [th] (instant w)) w'
    /\ instant w' = match process th with
                    | Some _ => S (instant w)
                    | None => instant w
                    end
    /\ quiet_rel w w'.
Proof.
  intros [Hts Hl]. unfold num_rendered. simpl.
  destruct (process th) as [pid|].
  - rewrite Hts. destruct (log_loc th) as [loc|]; [|done].
    unfold bind, readlines, ret. rewrite count_marker_lines. simpl.
    exists (next_instant w). split; [f_equal; lia|]. split; [done|apply quiet_rel_next].
  - exists w. split; [done|]. split; [done|apply quiet_rel_refl].
Qed.

Lemma sum_num_rendered_reads ths : forall w,
  Forall reads_log ths ->
  exists w',
    sum_num_rendered ths w = Ok (rendered_from ths (instant w)) w' /\ quiet_rel w w'.
Proof.
  induction ths as [|th rest IH]; intros w Hall; simpl.
  { exists w. split; [done|apply quiet_rel_refl]. }
  apply Forall_cons in Hall as [Hth Hrest].
  destruct (num_rendered_reads th w Hth) as (w1 & Hn & Hi & Hq1).
  destruct (IH w1 Hrest) as (w2 & Hs & Hq2).
  unfold bind. rewrite Hn, Hs. unfold ret.
  exists w2. split; [|by eapply quiet_rel_trans].
  f_equal. simpl. rewrite Hi. destruct Hth as [_ Hl].
  destruct (process th); [|done]. destruct (log_loc th); [lia|done].
Qed.

Lemma rendered_from_mono ths : forall i j,
  logs_only_grow -> i <= j -> rendered_from ths i <= rendered_from ths j.
Proof.
  induction ths as [|th rest IH]; intros i j Hgrow Hij; simpl; [done|].
  destruct (process th); [|by apply IH].
  destruct (log_loc th) as [loc|]; [|by apply IH].
  pose proof (Hgrow loc i j Hij). pose proof (IH (S i) (S j) Hgrow ltac:(lia)). lia.
Qed.

Lemma manager_num_rendered_reads m w :
  Forall reads_log (threads m) ->
  exists w',
    manager_num_rendered m w = Ok (rendered_from (threads m) (instant w)) w'
    /\ quiet_rel w w'.
Proof. apply sum_num_rendered_reads. Qed.

Lemma update_report_returns m w :
  logs_only_grow -> Forall reads_log (threads m) -> session_start m <> None ->
  exists w', update_report m w = Ok tt w'.
Proof.
  intros Hgrow Hall Hstart. unfold update_report, bind at 1, perf_counter.
  unfold bind at 1.
  destruct (manager_num_rendered_reads m (next_instant w) Hall) as (w1 & -> & Hq1).
  set (n := rendered_from (threads m) (instant (next_instant w))).
  destruct (Nat.ltb_spec 0 n) as [Hpos|_]; [|by eexists].
  unfold bind at 1. unfold bind at 1.
  destruct (manager_num_rendered_reads m w1 Hall) as (w2 & -> & Hq2).
  unfold bind at 1.
  destruct (manager_num_rendered_reads m w2 Hall) as (w3 & -> & Hq3).
  assert (instant (next_instant w) <= instant w2) as Hi2.
  { destruct Hq1 as [? _], Hq2 as [? _]. lia. }
  pose proof (rendered_from_mono (threads m) _ _ Hgrow Hi2) as Hn2.
  destruct (Nat.eqb_spec (rendered_from (threads m) (instant w2)) 0) as [Hz|_];
    [subst n; lia|].
  unfold bind at 1, datetime_now. unfold bind at 1.
  destruct (manager_num_rendered_reads m (next_instant w3) Hall) as (w4 & -> & Hq4).
  unfold bind at 1.
  destruct (manager_num_rendered_reads m w4 Hall) as (w5 & -> & Hq5).
  assert (instant (next_instant w) <= instant w4) as Hi4.
  { destruct Hq1 as [? _], Hq2 as [? _], Hq3 as [? _], Hq4 as [? _]. simpl in *. lia. }
  pose proof (rendered_from_mono (threads m) _ _ Hgrow Hi4) as Hn4.
  destruct (Nat.eqb_spec (rendered_from (threads m) (instant w4)) 0) as [Hz|_];
    [subst n; lia|].
  destruct (session_start m) as [started|]; [|done].
  unfold ret, write_file. by eexists.
Qed.

Lemma make_pbars_length ths : forall w pbars w',
  make_pbars ths w = Ok pbars w' -> length pbars = length ths.
Proof.
  induction ths as [|th rest IH]; intros w pbars w' H; simpl in H.
  - by injection H as <- _.
  - apply bind_Ok in H as (n & w1 & _ & H).
    apply bind_Ok in H as (p & w2 & _ & H).
    apply bind_Ok in H as (ps & w3 & Hps & H).
    injection H as <- _. simpl. f_equal. by eapply IH.
Qed.

Lemma make_pbars_returns ths : forall w,
  Forall reads_log ths -> exists pbars w', make_pbars ths w = Ok pbars w'.
Proof.
  induction ths as [|th rest IH]; intros w Hall; simpl; [by eexists _, _|].
  apply Forall_cons in Hall as [Hth Hrest].
  destruct (num_rendered_reads th w Hth) as (w1 & Hn & _).
  unfold bind at 1. rewrite Hn. unfold bind at 1, tqdm.
  destruct (IH (next_instant w1) Hrest) as (ps & w2 & Hps).
  unfold bind. rewrite Hps. by eexists _, _.
Qed.

(** ** A session keeps its lanes in order *)

Lemma same_config_refl th : same_config th th.
Proof. by repeat split. Qed.

Lemma same_config_trans th1 th2 th3 :
  same_config th1 th2 -> same_config th2 th3 -> same_config th1 th3.
Proof.
  intros (?&?&?&?&?&?&?&?) (?&?&?&?&?&?&?&?). repeat split; congruence.
Qed.

Lemma same_config_middle ths0 pre th th' post :
  same_config th th' ->
  Forall2 same_config ths0 (pre ++ th :: post) ->
  Forall2 same_config ths0 (pre ++ th' :: post).
Proof.
  intros Hc (pre0 & rest0 & Hpre & Hrest & ->)%Forall2_app_inv_r.
  apply Forall2_cons_inv_r in Hrest as (th0 & post0 & Hth & Hpost & ->).
  apply Forall2_app; [done|]. constructor; [|done]. by eapply same_config_trans.
Qed.

Lemma same_config_names ths0 ths :
  Forall2 same_config ths0 ths -> name <$> ths = name <$> ths0.
Proof.
  induction 1 as [|th0 th ths0 ths (_&_&_&_&_&_&_&Hn) _ IH]; [done|].
  by rewrite !fmap_cons, Hn, IH.
Qed.

Lemma procs_of_snoc w w' p owner :
  procs w' = procs w ++ [p] ->
  procs_of w' owner = procs_of w owner ++ (if decide (p_owner p = owner) then [p] else []).
Proof.
  intros H. unfold procs_of. by rewrite H, filter_app.
Qed.

Lemma exited_grow w w' pid new :
  procs w' = procs w ++ new -> instant w <= instant w' -> pid < length (procs w) ->
  exited w pid = true -> exited w' pid = true.
Proof.
  intros Hp Hi Hlt. unfold exited. rewrite Hp, lookup_app_l by done.
  destruct (procs w !! pid) as [p|]; [|done].
  destruct (dies p) as [d|]; [|done].
  rewrite !bool_decide_eq_true. lia.
Qed.

Lemma tracks_unless_strict (strict : bool) : (strict = true -> False) -> strict = false.
Proof. destruct strict; [intros H; by destruct H|done]. Qed.

Section Tracking.

Variable strict : bool.
Variable ths0 : list BlenderThread.
Hypothesis names_distinct : NoDup (name <$> ths0).
Hypothesis counts_grow : strict = true -> logs_only_grow.

Lemma lane_good_quiet w w' th :
  quiet_rel w w' -> lane_good strict w th -> lane_good strict w' th.
Proof.
  intros Hq (Hwf & Hord & Hpid & Hfin & Hlog).
  pose proof Hq as (Hi & Hp & _).
  split; [done|]. split; [|split; [|split; [|done]]].
  - unfold in_order, procs_of in *. by rewrite Hp.
  - intros pid Hpr. rewrite Hp. by apply Hpid.
  - intros Hf pid Hpr. eapply exited_mono; [done|]. by apply Hfin.
Qed.

Lemma Good_quiet ths w w' :
  quiet_rel w w' -> Good strict ths0 ths w -> Good strict ths0 ths w'.
Proof.
  intros Hq (Hc & Hall & Hown). split; [done|]. split.
  - eapply Forall_impl; [exact Hall|]. intros th. by apply lane_good_quiet.
  - destruct Hq as (_ & -> & _). done.
Qed.

Lemma Good_reads ths w :
  strict = true -> Good strict ths0 ths w -> Forall reads_log ths.
Proof.
  intros Hs (_ & Hall & _). eapply Forall_impl; [exact Hall|].
  intros th (_ & _ & _ & _ & Hlog). by apply Hlog.
Qed.

Lemma tracks_ret {A} ths (a : A) (post : A -> list BlenderThread -> Prop) :
  post a ths -> tracks strict ths0 ths (ret a) post.
Proof. intros Hp w HG. exists ths. done. Qed.

Lemma tracks_bind {A B} ths (m : M A) (k : A -> M B) P Q :
  tracks strict ths0 ths m P ->
  (forall a ths', P a ths' -> tracks strict ths0 ths' (k a) Q) ->
  tracks strict ths0 ths (bind m k) Q.
Proof.
  intros Hm Hk w HG. unfold bind. specialize (Hm w HG).
  destruct (m w) as [a w1|e w1|w1]; [|done..].
  destruct Hm as (ths1 & HP & HG1). exact (Hk a ths1 HP w1 HG1).
Qed.

Lemma tracks_weaken {A} ths (m : M A) (P Q : A -> list BlenderThread -> Prop) :
  tracks strict ths0 ths m P -> (forall a ths', P a ths' -> Q a ths') ->
  tracks strict ths0 ths m Q.
Proof.
  intros Hm HPQ w HG. specialize (Hm w HG). destruct (m w); [|done..].
  destruct Hm as (ths' & HP & HG'). eauto.
Qed.

Lemma tracks_raise {A} ths e (post : A -> list BlenderThread -> Prop) :
  (strict = true -> False) -> tracks strict ths0 ths (raise e) post.
Proof.
  intros Hs w HG. split; [by apply tracks_unless_strict|]. by exists ths.
Qed.

Lemma tracks_calm {A} ths (m : M A) :
  calm m -> tracks strict ths0 ths m (fun _ ths' => ths' = ths).
Proof.
  intros Hm w HG. destruct (Hm w) as (a & w' & -> & Hq).
  exists ths. split; [done|]. by eapply Good_quiet.
Qed.

(** A computation that only observes, and that returns whenever the lanes
    read their counts from logs. *)
Lemma tracks_quiet {A} ths (m : M A) (P : A -> Prop) :
  quiet m ->
  (forall w a w', m w = Ok a w' -> P a) ->
  (strict = true -> forall w, Good strict ths0 ths w -> exists a w', m w = Ok a w') ->
  tracks strict ths0 ths m (fun a ths' => ths' = ths /\ P a).
Proof.
  intros Hq HP Hret w HG. specialize (Hq w).
  destruct (m w) as [a w'|e w'|w'] eqn:Hm; [| |done].
  - exists ths. split; [split; [done|by eapply HP]|by eapply Good_quiet].
  - split; [|exists ths; by eapply Good_quiet].
    apply tracks_unless_strict. intros Hs.
    destruct (Hret Hs w HG) as (a & w1 & Hm'). congruence.
Qed.

Lemma tracks_num_rendered ths th :
  th ∈ ths -> tracks strict ths0 ths (num_rendered th) (fun _ ths' => ths' = ths).
Proof.
  intros Hin. eapply tracks_weaken.
  - apply (tracks_quiet ths (num_rendered th) (fun _ => True));
      [apply quiet_num_rendered|done|].
    intros Hs w HG. pose proof (Good_reads ths w Hs HG) as Hall.
    eapply Forall_forall in Hall; [|exact Hin].
    destruct (num_rendered_reads th w Hall) as (w' & ? & _). eauto.
  - by intros ? ? [? _].
Qed.

Lemma tracks_success ths th :
  th ∈ ths -> tracks strict ths0 ths (success th) (fun _ ths' => ths' = ths).
Proof.
  intros Hin. unfold success.
  eapply tracks_bind; [by apply tracks_num_rendered|]. intros n ? ->.
  by apply tracks_ret.
Qed.

Lemma tracks_manager_num_rendered m :
  tracks strict ths0 (threads m) (manager_num_rendered m)
    (fun _ ths' => ths' = threads m).
Proof.
  eapply tracks_weaken.
  - apply (tracks_quiet (threads m) (manager_num_rendered m) (fun _ => True));
      [apply quiet_manager_num_rendered|done|].
    intros Hs w HG. pose proof (Good_reads _ w Hs HG) as Hall.
    destruct (manager_num_rendered_reads m w Hall) as (w' & ? & _). eauto.
  - by intros ? ? [? _].
Qed.

Lemma tracks_update_report m :
  (strict = true -> session_start m <> None) ->
  tracks strict ths0 (threads m) (update_report m) (fun _ ths' => ths' = threads m).
Proof.
  intros Hstart. eapply tracks_weaken.
  - apply (tracks_quiet (threads m) (update_report m) (fun _ => True));
      [apply quiet_update_report|done|].
    intros Hs w HG. pose proof (Good_reads _ w Hs HG) as Hall.
    destruct (update_report_returns m w (counts_grow Hs) Hall (Hstart Hs)) as (w' & ?).
    eauto.
  - by intros ? ? [? _].
Qed.

Lemma tracks_make_pbars ths :
  tracks strict ths0 ths (make_pbars ths)
    (fun pbars ths' => ths' = ths /\ length pbars = length ths).
Proof.
  apply (tracks_quiet ths (make_pbars ths) (fun pbars => length pbars = length ths));
    [apply quiet_make_pbars|apply make_pbars_length|].
  intros Hs w HG. apply make_pbars_returns. by eapply Good_reads.
Qed.

(** *** The moves of one lane *)

Lemma Good_middle pre th post w :
  Good strict ths0 (pre ++ th :: post) w ->
  lane_good strict w th
  /\ name th ∈ name <$> ths0
  /\ forall th2, th2 ∈ pre ++ post -> name th2 <> name th.
Proof.
  intros (Hc & Hall & _).
  pose proof (same_config_names _ _ Hc) as Hnames.
  split; [|split].
  - eapply Forall_forall; [exact Hall|]. apply elem_of_app. right. apply elem_of_cons. by left.
  - rewrite <- Hnames. apply list_elem_of_fmap. exists th. split; [done|].
    apply elem_of_app. right. apply elem_of_cons. by left.
  - intros th2. apply NoDup_middle_ne. by rewrite Hnames.
Qed.

Lemma Good_replace pre th th' post w w' :
  Good strict ths0 (pre ++ th :: post) w ->
  same_config th th' -> lane_good strict w' th' ->
  (forall th2, th2 ∈ pre ++ post -> lane_good strict w th2 -> lane_good strict w' th2) ->
  Forall (fun p => p_owner p ∈ name <$> ths0) (procs w') ->
  Good strict ths0 (pre ++ th' :: post) w'.
Proof.
  intros (Hc & Hall & _) Hcfg Hth Hothers Hown.
  split; [by eapply same_config_middle|]. split; [|done].
  apply Forall_app in Hall as [Hpre Hpost].
  apply Forall_cons in Hpost as [_ Hpost].
  apply Forall_app. split; [|apply Forall_cons; split; [done|]].
  - apply Forall_forall. intros th2 Hin. apply Hothers; [apply elem_of_app; by left|].
    by eapply Forall_forall in Hpre.
  - apply Forall_forall. intros th2 Hin. apply Hothers; [apply elem_of_app; by right|].
    by eapply Forall_forall in Hpost.
Qed.

Lemma tracks_check_status pre th post :
  tracks strict ths0 (pre ++ th :: post) (check_status th)
    (fun r ths' => ths' = pre ++ r.2 :: post).
Proof.
  intros w HG. pose proof (quiet_check_status th w) as Hq.
  pose proof (Good_middle _ _ _ _ HG) as (Hth & _ & _).
  destruct (check_status th w) as [[b th'] w'|e w'|w'] eqn:Hcs; [| |done].
  - exists (pre ++ th' :: post). split; [done|].
    pose proof (check_status_config _ _ _ _ _ Hcs)
      as (Hcfg & Hp & Hj & Hf & _).
    eapply Good_replace; [exact HG|done| |intros; by eapply lane_good_quiet|].
    + apply (lane_good_quiet w w' th) in Hth; [|done].
      destruct Hth as (Hwf & Hord & Hpid & Hfin & Hlog).
      destruct Hcfg as (Hcmd & Hjobs & Hnj & Hls & Hto & Hts & Hll & Hn).
      split; [by eapply check_status_wf|].
      split; [|split; [|split]].
      * unfold in_order, batches_started in *. by rewrite Hn, Hcmd, Hll, Hj, Hjobs.
      * by rewrite Hp.
      * by rewrite Hf, Hp.
      * intros Hs. destruct (Hlog Hs). unfold reads_log. by rewrite Hts, Hll.
    + destruct HG as (_ & _ & Hown). by destruct Hq as (_ & -> & _).
  - split; [|exists (pre ++ th :: post); by eapply Good_quiet].
    apply tracks_unless_strict. intros Hs.
    destruct Hth as (_ & _ & _ & _ & Hlog).
    destruct (num_rendered_reads th w (Hlog Hs)) as (w1 & Hn & _).
    rewrite (check_status_unfold th w _ w1 Hn) in Hcs. done.
Qed.

Lemma tracks_check_in pre th post :
  tracks strict ths0 (pre ++ th :: post) (check_in th)
    (fun th' ths' => ths' = pre ++ th' :: post).
Proof.
  intros w HG.
  pose proof (Good_middle _ _ _ _ HG) as (Hth & Hname & Hne).
  pose proof Hth as (Hwf & Hord & Hpid & Hfin & Hlog).
  destruct (check_in_returns th w Hwf) as (th' & w' & Hc). rewrite Hc.
  exists (pre ++ th' :: post). split; [done|].
  pose proof (check_in_wf _ _ _ _ Hwf Hc) as Hwf'.
  pose proof (check_in_inv _ _ _ _ Hc)
    as (Hcfg & _ & _ & Hk & _ & _ & Hi & Hcases).
  pose proof Hcfg as (Hcmd & Hjobs & Hnj & Hls & Hto & Hts & Hll & Hn).
  assert (strict = true -> reads_log th') as Hlog'.
  { intros Hs. destruct (Hlog Hs). unfold reads_log. by rewrite Hts, Hll. }
  destruct Hcases as [(_ & -> & Hp)|(Hex & Hj & [(Hlast & Hf & Hpr & Hp)|Hspawn])].
  - eapply Good_quiet; [|done]. by repeat split.
  - assert (quiet_rel w w') as Hq by by repeat split.
    eapply Good_replace; [exact HG|done| |intros; by eapply lane_good_quiet|].
    + split; [done|]. split; [|split; [|split; [|done]]].
      * unfold in_order, procs_of, batches_started in *.
        rewrite Hn, Hcmd, Hll, Hjobs, Hp, Hord, Hj.
        destruct Hwf as (Hlen & _ & _ & _ & Hge & _).
        by rewrite !take_ge by lia.
      * rewrite Hpr, Hp. done.
      * intros _ pid Hpid'. rewrite Hpr in Hpid'.
        eapply exited_mono; [done|]. by apply Hex.
    + destruct HG as (_ & _ & Hown). by rewrite Hp.
  - destruct Hspawn as (Hmore & Hf & Hpr & batch & p & Hb & Hp & Ho & Ha & Hs & Hborn & _).
    destruct Hwf as (Hlen & _ & _ & _ & Hge & _ & Hfiff & Hstd).
    eapply Good_replace; [exact HG|done| | |].
    + split; [done|]. split; [|split; [|split; [|done]]].
      * unfold in_order, batches_started in *.
        rewrite Hn, Hcmd, Hll, Hjobs, Hj, (procs_of_snoc w w' p (name th) Hp).
        rewrite decide_True by done.
        replace (Z.to_nat (job th + 1 + 1)) with (S (Z.to_nat (job th + 1))) by lia.
        rewrite (take_S_r _ _ batch) by (apply py_index_Some; [done|lia]).
        rewrite !fmap_app, Hord. f_equal. simpl. rewrite Ha, Hs.
        destruct (to_stdout th); [|done]. by rewrite Hstd.
      * intros pid. rewrite Hpr, Hp, length_app. intros [= <-]. simpl. lia.
      * intros Hfin'. rewrite Hf in Hfin'. apply Hfiff in Hfin'. lia.
    + intros th2 Hin (Hwf2 & Hord2 & Hpid2 & Hfin2 & Hlog2).
      split; [done|]. split; [|split; [|split; [|done]]].
      * unfold in_order in *. rewrite (procs_of_snoc w w' p (name th2) Hp).
        rewrite decide_False; [by rewrite app_nil_r|].
        rewrite Ho. intros Heq. by apply (Hne th2 Hin).
      * intros pid Hpid'. rewrite Hp, length_app. specialize (Hpid2 pid Hpid'). lia.
      * intros Hf2 pid Hpid'. eapply exited_grow; [exact Hp|lia|by apply Hpid2|].
        by apply Hfin2.
    + destruct HG as (_ & _ & Hown). rewrite Hp. apply Forall_app. split; [done|].
      apply Forall_singleton. by rewrite Ho.
Qed.

(** *** The passes of the loop *)

Lemma tracks_supervise pre t th post pbars :
  (strict = true -> t < length pbars) ->
  tracks strict ths0 (pre ++ th :: post) (supervise t th pbars)
    (fun r ths' => ths' = pre ++ r.1 :: post /\ length r.2 = length pbars).
Proof.
  intros Ht. unfold supervise. destruct (finished th); [by apply tracks_ret|].
  assert (forall th1, th1 ∈ pre ++ th1 :: post) as Hin.
  { intros th1. apply elem_of_app. right. apply elem_of_cons. by left. }
  eapply tracks_bind; [apply tracks_check_in|]. intros th1 ? ->. cbv beta.
  eapply tracks_bind; [apply tracks_success, Hin|]. intros ok ? ->. cbv beta.
  eapply tracks_bind
    with (P := fun r ths' => ths' = pre ++ r.1 :: post /\ length r.2 = length pbars).
  - destruct ok.
    + eapply tracks_bind; [apply tracks_num_rendered, Hin|]. intros n ? ->.
      apply tracks_ret. simpl. by rewrite length_alter.
    + eapply tracks_bind; [apply tracks_check_status|]. intros [b th2] ? ->. simpl.
      destruct b.
      * eapply tracks_bind; [apply tracks_num_rendered, Hin|]. intros n ? ->.
        apply tracks_ret. simpl. by rewrite length_alter.
      * eapply tracks_bind; [apply tracks_calm, calm_print|]. intros ? ? ->.
        by apply tracks_ret.
  - intros [th3 pbars3] ? [-> Hlen]. simpl in *.
    destruct (pbars3 !! t) as [p|] eqn:Hp.
    + eapply tracks_bind; [apply tracks_calm, calm_pb_set_description|]. intros ? ? ->.
      apply tracks_ret. simpl. by rewrite length_insert.
    + apply tracks_raise. intros Hs. apply lookup_ge_None in Hp. specialize (Ht Hs). lia.
Qed.

Lemma tracks_supervise_all ths : forall pre t pbars,
  (strict = true -> t + length ths <= length pbars) ->
  tracks strict ths0 (pre ++ ths) (supervise_all t ths pbars)
    (fun r ths' =>
       ths' = pre ++ r.1 /\ length r.1 = length ths /\ length r.2 = length pbars).
Proof.
  induction ths as [|th rest IH]; intros pre t pbars Ht; simpl.
  - apply tracks_ret. simpl. by rewrite app_nil_r.
  - eapply tracks_bind.
    { apply tracks_supervise. intros Hs. specialize (Ht Hs). simpl in Ht. lia. }
    intros [th1 pbars1] ? [-> Hlen]. simpl in *.
    eapply tracks_bind.
    { rewrite (cons_middle th1 pre rest), app_assoc. apply IH.
      intros Hs. specialize (Ht Hs). simpl in Ht. lia. }
    intros [rest1 pbars2] ? (-> & Hlen1 & Hlen2). simpl in *. apply tracks_ret. simpl.
    split; [by rewrite <- app_assoc|]. split; congruence.
Qed.

Lemma tracks_check_in_all ths : forall pre,
  tracks strict ths0 (pre ++ ths) (check_in_all ths)
    (fun ths1 ths' => ths' = pre ++ ths1 /\ length ths1 = length ths).
Proof.
  induction ths as [|th rest IH]; intros pre; simpl.
  - apply tracks_ret. simpl. by rewrite app_nil_r.
  - eapply tracks_bind; [apply tracks_check_in|]. intros th1 ? ->. simpl.
    eapply tracks_bind.
    { rewrite (cons_middle th1 pre rest), app_assoc. apply IH. }
    intros rest1 ? [-> Hlen]. apply tracks_ret. simpl.
    split; [by rewrite <- app_assoc|congruence].
Qed.

Lemma tracks_loop_body tick0 report_every st :
  loop_ready strict st ->
  tracks strict ths0 (threads (l_self st)) (loop_body tick0 report_every st)
    (fun st' ths' => ths' = threads (l_self st') /\ loop_ready strict st').
Proof.
  intros Hready. unfold loop_body.
  eapply tracks_bind; [apply tracks_calm, calm_sleep|]. intros ? ? ->.
  eapply tracks_bind; [apply tracks_manager_num_rendered|]. intros ? ? ->.
  eapply tracks_bind; [apply tracks_calm, calm_pb_set_description|]. intros ? ? ->.
  eapply tracks_bind; [apply tracks_manager_num_rendered|]. intros ? ? ->.
  eapply tracks_bind; [apply tracks_calm, calm_pb_refresh|]. intros ? ? ->.
  eapply tracks_bind; [apply tracks_calm, calm_perf_counter|]. intros now ? ->.
  eapply tracks_bind with (P := fun _ ths' => ths' = threads (l_self st)).
  { destruct (Qle_bool _ _); [|by apply tracks_ret].
    eapply tracks_bind.
    - apply tracks_update_report. intros Hs. by destruct (Hready Hs).
    - intros ? ? ->. apply tracks_calm, calm_perf_counter. }
  intros last ? ->.
  eapply tracks_bind.
  { apply (tracks_supervise_all (threads (l_self st)) [] 0 (l_pbars st)).
    intros Hs. destruct (Hready Hs). simpl. lia. }
  intros [ths pbars] ? (-> & Hlen1 & Hlen). simpl in *.
  apply tracks_ret. simpl. split; [done|].
  intros Hs. destruct (Hready Hs) as [Hstart Hbars]. simpl. split; [done|].
  rewrite Hlen1, Hlen. done.
Qed.

Lemma tracks_poll_loop fuel tick0 report_every : forall st,
  loop_ready strict st ->
  tracks strict ths0 (threads (l_self st)) (poll_loop fuel tick0 report_every st)
    (fun st' ths' => ths' = threads (l_self st') /\ loop_ready strict st').
Proof.
  induction fuel as [|fuel IH]; intros st Hready; simpl.
  - intros w HG. by exists (threads (l_self st)).
  - eapply tracks_bind; [apply tracks_calm, calm_any_running|]. intros b ? ->.
    destruct b; [|by apply tracks_ret].
    eapply tracks_bind; [by apply tracks_loop_body|]. intros st' ? [-> Hready'].
    by apply IH.
Qed.

Lemma tracks_start fuel self progress_bars tick0 report_every :
  tracks strict ths0 (threads self) (start fuel self progress_bars tick0 report_every)
    (fun self' ths' => ths' = threads self').
Proof.
  unfold start.
  eapply tracks_bind; [apply tracks_calm, calm_perf_counter|]. intros t ? ->.
  eapply tracks_bind; [apply tracks_calm, calm_datetime_now|]. intros d ? ->.
  eapply tracks_bind; [apply (tracks_check_in_all (threads self) [])|].
  intros ths ? [-> Hlen]. simpl.
  eapply tracks_bind; [apply tracks_calm, calm_perf_counter|]. intros last ? ->.
  destruct progress_bars; [|by apply tracks_ret].
  eapply tracks_bind; [apply tracks_make_pbars|]. intros pbars ? [-> Hbars].
  eapply tracks_bind; [apply tracks_calm, calm_tqdm|]. intros pbar ? ->.
  eapply tracks_bind.
  { apply (tracks_poll_loop fuel tick0 report_every
             {| l_self := with_threads ths (with_session t d self);
                last_report_time := last; l_pbars := pbars; l_pbar := pbar |}).
    intros _. simpl. split; [done|]. simpl in Hbars. lia. }
  intros st ? [-> Hready].
  eapply tracks_bind; [apply tracks_calm, calm_pb_close|]. intros ? ? ->.
  eapply tracks_bind.
  { apply tracks_update_report. intros Hs. by destruct (Hready Hs). }
  intros ? ? ->. by apply tracks_ret.
Qed.

End Tracking.

(** *** The session as the constructor leaves it *)

Lemma same_config_all ths : Forall2 same_config ths ths.
Proof. induction ths; constructor; [apply same_config_refl|done]. Qed.

Lemma Good_initially strict command0 jsons output_directory print_to_stdout MAX_PER_JOB
    w_init self w0 :
  procs w_init = [] ->
  BlenderThreadManager__init__ command0 jsons output_directory print_to_stdout MAX_PER_JOB
    w_init = Ok self w0 ->
  (strict = true -> print_to_stdout = false) ->
  Good strict (threads self) (threads self) w0
  /\ NoDup (name <$> threads self) /\ procs w0 = [].
Proof.
  intros Hw Hinit Hstrict.
  destruct (safe_initially _ _ _ _ _ _ _ _ Hw Hinit) as [(_ & _ & Hnd & _) Hp0].
  destruct (BlenderThreadManager__init__lanes _ _ _ _ _ _ _ _ Hinit)
    as (_ & _ & _ & _ & _ & _ & Hlanes).
  split; [|done]. split; [apply same_config_all|]. split; [|by rewrite Hp0].
  apply Forall_lookup. intros i th Hth.
  destruct (Hlanes i th Hth)
    as (lane & log & _ & _ & Hb & Hn & Hsz & Hp & Hj & Hf & _ & Hts & Hll & _).
  apply split_into_batches_concat in Hb as (Hcat & Hne & Hall).
  split; [|split; [|split; [|split]]].
  - unfold lane_wf, lane_jobs. rewrite Hcat, length_asarray, Hn, Hsz, Hp, Hj, Hf, Hts, Hll.
    repeat split; try done.
    + destruct (jobs th); [done|simpl; lia].
    + intros ?. lia.
    + by intros ->.
  - unfold in_order, procs_of, batches_started. by rewrite Hp0, Hj.
  - by rewrite Hp.
  - by rewrite Hf.
  - intros Hs. unfold reads_log. by rewrite Hts, Hll, (Hstrict Hs).
Qed.

Lemma Forall2_lookup_same_config ths0 ths i th0 :
  Forall2 same_config ths0 ths -> ths0 !! i = Some th0 ->
  exists th, ths !! i = Some th /\ same_config th0 th.
Proof. intros H Hl. by eapply Forall2_lookup_l in H. Qed.

(** X15: in a session run by a manager built by the constructor, every
    process belongs to a lane, and the processes of lane [i], in the order
    in which they were started, were given the first batches of the lane,
    batch after batch: no batch is skipped, none is started twice, and the
    output of each goes to the lane's log (to the console when the manager
    prints to it).  This holds of the process table at whatever point the
    session stands, whether [start] has returned, raised or is still
    polling. *)
Theorem batches_started_in_order command0 jsons output_directory print_to_stdout
    MAX_PER_JOB w_init self w0 fuel progress_bars tick0 report_every :
  procs w_init = [] ->
  BlenderThreadManager__init__ command0 jsons output_directory print_to_stdout MAX_PER_JOB
    w_init = Ok self w0 ->
  let w := world_of (start fuel self progress_bars tick0 report_every w0) in
  (forall p, p ∈ procs w -> exists i, i < length jsons /\ p_owner p = pretty i)
  /\ forall i lane batches,
       jsons !! i = Some lane ->
       split_into_batches lane MAX_PER_JOB = inr batches ->
       exists k,
         p_argv <$> procs_of w (pretty i) = set_job command0 <$> take k batches
         /\ forall p, p ∈ procs_of w (pretty i) ->
              p_stdout p = if print_to_stdout then None else log_locs self !! i.
Proof.
  intros Hw Hinit w.
  destruct (Good_initially false _ _ _ _ _ _ _ _ Hw Hinit ltac:(done)) as (HG0 & Hnd & _).
  assert (exists ths, Good false (threads self) ths w) as (ths & Hc & Hall & Hown).
  { pose proof (tracks_start false (threads self) Hnd ltac:(done) fuel self progress_bars
                  tick0 report_every w0 HG0) as H.
    subst w. destruct (start _ _ _ _ _ _) as [a w'|e w'|w']; simpl.
    - destruct H as (ths & _ & ?). eauto.
    - destruct H as (_ & ths & ?). eauto.
    - destruct H as (ths & ?). eauto. }
  pose proof (BlenderThreadManager__init__names _ _ _ _ _ _ _ _ Hinit) as Hnames.
  destruct (BlenderThreadManager__init__lanes _ _ _ _ _ _ _ _ Hinit)
    as (_ & Hlen & _ & _ & _ & _ & Hlanes).
  split.
  - intros p Hin. eapply Forall_forall in Hown; [|exact Hin].
    rewrite Hnames in Hown. apply list_elem_of_fmap in Hown as (i & -> & Hi).
    apply elem_of_seq in Hi. exists i. split; [lia|done].
  - intros i lane batches Hlane Hb.
    destruct (lookup_lt_is_Some_2 (threads self) i) as [th0 Hth0].
    { rewrite Hlen. by eapply lookup_lt_Some. }
    destruct (Hlanes i th0 Hth0)
      as (lane' & log & Hlane' & Hlog & Hb' & _ & _ & _ & _ & _ & Hn0 & _ & Hll0 & Hcmd0).
    assert (lane' = lane) as -> by congruence.
    assert (jobs th0 = batches) as Hjobs0 by congruence.
    destruct (Forall2_lookup_same_config _ _ _ _ Hc Hth0)
      as (th & Hth & (Hcmd & Hjobs & _ & _ & _ & _ & Hll & Hn)).
    eapply Forall_lookup in Hall; [|exact Hth].
    destruct Hall as (_ & Hord & _).
    unfold in_order, batches_started in Hord.
    rewrite Hn, Hn0, Hcmd, Hcmd0, Hjobs, Hjobs0, Hll, Hll0 in Hord.
    exists (Z.to_nat (job th + 1)). split.
    + apply (f_equal (fmap fst)) in Hord.
      by rewrite <- !list_fmap_compose in Hord.
    + intros p [j Hj]%list_elem_of_lookup.
      apply (f_equal (fun l => snd <$> l !! j)) in Hord.
      rewrite !list_lookup_fmap, Hj in Hord. simpl in Hord.
      destruct (take _ batches !! j); simpl in Hord; [|done].
      injection Hord as ->. rewrite Hlog. by destruct print_to_stdout.
Qed.

(** X16: when [start] has returned, a lane that is marked finished has
    run its whole job list: its batches concatenate to the lane handed to
    the constructor, as numpy stores it, one process was started for each
    of them, in order, and all these processes have exited. *)
Theorem finished_lane_ran_every_batch command0 jsons output_directory print_to_stdout
    MAX_PER_JOB w_init self w0 fuel progress_bars tick0 report_every self' w' :
  procs w_init = [] ->
  BlenderThreadManager__init__ command0 jsons output_directory print_to_stdout MAX_PER_JOB
    w_init = Ok self w0 ->
  start fuel self progress_bars tick0 report_every w0 = Ok self' w' ->
  forall i th,
    threads self' !! i = Some th -> finished th = true ->
    (exists lane, jsons !! i = Some lane /\ lane_jobs th = asarray lane)
    /\ p_argv <$> procs_of w' (pretty i) = set_job command0 <$> jobs th
    /\ forall p, p ∈ procs_of w' (pretty i) ->
         exists d, dies p = Some d /\ d <= instant w'.
Proof.
  intros Hw Hinit Hstart i th Hth Hfin.
  destruct (Good_initially false _ _ _ _ _ _ _ _ Hw Hinit ltac:(done)) as (HG0 & Hnd & _).
  pose proof (tracks_start false (threads self) Hnd ltac:(done) fuel self progress_bars
                tick0 report_every w0 HG0) as H.
  rewrite Hstart in H. destruct H as (? & -> & Hc & Hall & _).
  destruct (safe_initially _ _ _ _ _ _ _ _ Hw Hinit) as [Hsafe _].
  pose proof (runs_invariant Safe true (threads self)
                (start fuel self progress_bars tick0 report_every) _ w0
                safe_step (runs_start fuel self progress_bars tick0 report_every)
                Hsafe) as H.
  rewrite Hstart in H. destruct H as (? & -> & (_ & _ & _ & Hok)).
  destruct (BlenderThreadManager__init__lanes _ _ _ _ _ _ _ _ Hinit)
    as (_ & Hlen & _ & _ & _ & _ & Hlanes).
  destruct (lookup_lt_is_Some_2 (threads self) i) as [th0 Hth0].
  { apply lookup_lt_Some in Hth. apply Forall2_length in Hc. lia. }
  destruct (Hlanes i th0 Hth0)
    as (lane & log & Hlane & _ & Hb & _ & _ & _ & _ & _ & Hn0 & _ & _ & Hcmd0).
  destruct (Forall2_lookup_same_config _ _ _ _ Hc Hth0)
    as (th1 & Hth1 & (Hcmd & Hjobs & _ & _ & _ & _ & _ & Hn)).
  assert (th1 = th) as -> by congruence.
  apply split_into_batches_concat in Hb as (Hcat & _).
  eapply Forall_lookup in Hall; [|exact Hth].
  eapply Forall_lookup in Hok; [|exact Hth]. simpl in Hok.
  destruct Hall as (Hwf & Hord & Hpid & Hex & _).
  destruct Hwf as (Hnj & _ & _ & _ & _ & _ & Hfiff & _).
  rewrite <- Hn0, <- Hn.
  split; [|split].
  - exists lane. split; [done|]. unfold lane_jobs. by rewrite Hjobs, Hcat.
  - unfold in_order, batches_started in Hord.
    apply Hfiff in Hfin. rewrite take_ge in Hord by lia.
    apply (f_equal (fmap fst)) in Hord.
    rewrite <- !list_fmap_compose in Hord. by rewrite <- Hcmd0, <- Hcmd.
  - intros p [Ho Hin]%list_elem_of_filter.
    apply list_elem_of_lookup in Hin as [pid Hp].
    destruct (decide (process th = Some pid)) as [Hheld|Hother].
    + specialize (Hex Hfin pid Hheld). unfold exited in Hex. rewrite Hp in Hex.
      destruct (dies p) as [d|]; [|done]. apply bool_decide_eq_true in Hex. eauto.
    + by apply (Hok pid p).
Qed.

(** X17: a session whose lanes log to files runs to its end.  When the
    manager was built without [print_to_stdout], every worker exits
    within [D] instants of being started, and the marker count of no log
    ever goes down, [start] raises nothing and leaves its loop: it returns,
    after at most as many passes as there are batches times [D + 1]. *)
Theorem start_returns (D : nat) command0 jsons output_directory MAX_PER_JOB w_init self w0
    fuel progress_bars tick0 report_every :
  (forall pid, exists d, proc_life E pid = Some d /\ d <= D) ->
  logs_only_grow ->
  procs w_init = [] ->
  BlenderThreadManager__init__ command0 jsons output_directory false MAX_PER_JOB w_init
  = Ok self w0 ->
  sum_list (remaining <$> threads self) * S D < fuel ->
  exists self' w', start fuel self progress_bars tick0 report_every w0 = Ok self' w'.
Proof.
  intros HD Hgrow Hw Hinit Hfuel.
  destruct (Good_initially true _ _ _ _ _ _ _ _ Hw Hinit ltac:(done)) as (HG0 & Hnd & Hp0).
  pose proof (tracks_start true (threads self) Hnd ltac:(done) fuel self progress_bars
                tick0 report_every w0 HG0) as H.
  destruct (start _ _ _ _ _ _) as [self' w'|e w'|w'] eqn:Hstart.
  - eauto.
  - by destruct H.
  - exfalso. eapply (start_terminates D HD self progress_bars tick0 report_every w0);
      [| |exact Hstart].
    + intros pid p Hl. by rewrite Hp0 in Hl.
    + unfold potential, gap, deadline. simpl. rewrite Hp0. simpl. lia.
Qed.

(** ** The seeding of the lanes *)

(** The first [check_in] of a lane starts its first batch. *)
Lemma check_in_fresh th w :
  lane_wf th -> process th = None ->
  exists th' w' batch p,
    check_in th w = Ok th' w'
    /\ jobs th !! 0 = Some batch
    /\ procs w' = procs w ++ [p]
    /\ kills w' = kills w /\ files w' = files w /\ console w' = console w
    /\ same_config th th' /\ job th' = 0%Z
    /\ process th' = Some (length (procs w)) /\ finished th' = false
    /\ p_owner p = name th /\ p_argv p = set_job (command th) batch
    /\ p_stdout p = log_loc th.
Proof.
  intros Hwf Hp.
  pose proof Hwf as (Hn & Hpos & _ & _ & _ & Hpj & Hf & Hto).
  assert (job th = (-1)%Z) as Hj by by apply Hpj.
  destruct (check_in_returns th w Hwf) as (th' & w' & Hc).
  pose proof (check_in_inv _ _ _ _ Hc) as (Hcfg & _ & _ & Hk & Hfi & Hco & _ & Hcases).
  destruct Hcases as [((pid & ? & _) & _)|(_ & Hj' & Hcases)]; [congruence|].
  destruct Hcases as [(? & _)|(_ & Hf' & Hpr & batch & p & Hb & Hprocs & Ho & Ha & Hs & _)];
    [lia|].
  exists th', w', batch, p. split; [done|].
  split; [rewrite Hj in Hb; by apply py_index_Some in Hb|].
  repeat split; try done; try apply Hcfg.
  - lia.
  - rewrite Hf'. destruct (finished th); [|done]. destruct Hf as [Hf _].
    specialize (Hf eq_refl). lia.
  - rewrite Hs. destruct (to_stdout th); [|done]. by rewrite Hto.
Qed.

Lemma check_in_all_fresh ths : forall w,
  Forall (fun th => lane_wf th /\ process th = None) ths ->
  exists ths' w' new,
    check_in_all ths w = Ok ths' w'
    /\ procs w' = procs w ++ new /\ length new = length ths /\ length ths' = length ths
    /\ kills w' = kills w /\ files w' = files w /\ console w' = console w
    /\ forall i th, ths !! i = Some th ->
         exists th' batch p,
           ths' !! i = Some th' /\ new !! i = Some p /\ jobs th !! 0 = Some batch
           /\ same_config th th' /\ job th' = 0%Z
           /\ process th' = Some (length (procs w) + i) /\ finished th' = false
           /\ p_owner p = name th /\ p_argv p = set_job (command th) batch
           /\ p_stdout p = log_loc th.
Proof.
  induction ths as [|th rest IH]; intros w Hall; simpl.
  { exists [], w, []. rewrite app_nil_r. by repeat split. }
  apply Forall_cons in Hall as [[Hwf Hp] Hrest].
  destruct (check_in_fresh th w Hwf Hp)
    as (th' & w1 & batch & p & Hc & Hb & Hp1 & Hk1 & Hf1 & Hc1 & Hcfg & Hj & Hpr & Hf
        & Ho & Ha & Hs).
  unfold bind at 1. rewrite Hc.
  destruct (IH w1 Hrest)
    as (rest' & w' & new & Hr & Hprocs & Hlen & Hlen' & Hk & Hfi & Hco & Hlanes).
  unfold bind. rewrite Hr. unfold ret.
  exists (th' :: rest'), w', (p :: new). split; [done|].
  split; [by rewrite Hprocs, Hp1, <- app_assoc|].
  split; [simpl; lia|]. split; [simpl; lia|].
  split; [congruence|]. split; [congruence|]. split; [congruence|].
  intros [|i] th2 Hth2; simpl in Hth2.
  - injection Hth2 as <-. exists th', batch, p. simpl.
    rewrite Nat.add_0_r. repeat (split; [done|]). done.
  - destruct (Hlanes i th2 Hth2)
      as (th2' & batch2 & p2 & ? & ? & ? & ? & ? & Hpr2 & ? & ? & ? & ?).
    exists th2', batch2, p2. simpl. do 5 (split; [done|]). split; [|done].
    rewrite Hpr2, Hp1, length_app. simpl. f_equal. lia.
Qed.


Lemma manager_threads_fresh command0 jsons output_directory print_to_stdout MAX_PER_JOB
    w_init self w0 :
  BlenderThreadManager__init__ command0 jsons output_directory print_to_stdout MAX_PER_JOB
    w_init = Ok self w0 ->
  Forall (fun th => lane_wf th /\ process th = None) (threads self).
Proof.
  intros Hinit.
  destruct (BlenderThreadManager__init__lanes _ _ _ _ _ _ _ _ Hinit)
    as (_ & _ & _ & _ & _ & _ & Hlanes).
  apply Forall_lookup. intros i th Hth.
  destruct (Hlanes i th Hth)
    as (lane & log & _ & _ & Hb & Hn & Hsz & Hp & Hj & Hf & _ & Hts & Hll & _).
  split; [|done].
  apply split_into_batches_concat in Hb as (Hcat & Hne & Hall).
  unfold lane_wf, lane_jobs. rewrite Hcat, length_asarray, Hn, Hsz, Hp, Hj, Hf, Hts, Hll.
  repeat split; try done.
  - destruct (jobs th); [done|simpl; lia].
  - intros ?. lia.
  - by intros ->.
Qed.

Lemma start_seeds fuel self progress_bars tick0 report_every w :
  Forall (fun th => lane_wf th /\ process th = None) (threads self) ->
  exists ths' w3 new,
    check_in_all (threads self) (next_instant (next_instant w)) = Ok ths' w3
    /\ start fuel self progress_bars tick0 report_every w
       = (let self1 :=
            with_threads ths' (with_session (perf E (instant w)) (wall E (S (instant w))) self) in
          if progress_bars then
            let* pbars := make_pbars ths' in
            let* pbar := tqdm (BlenderThreadManager__len__ self1) 0 in
            let* st := poll_loop fuel tick0 report_every
                         {| l_self := self1; last_report_time := perf E (instant w3);
                            l_pbars := pbars; l_pbar := pbar |} in
            let* _ := pb_close (l_pbar st) in
            let* _ := update_report (l_self st) in
            ret (l_self st)
          else ret self1) (next_instant w3)
    /\ procs w3 = procs w ++ new /\ length new = length (threads self)
    /\ length ths' = length (threads self)
    /\ kills w3 = kills w /\ files w3 = files w /\ console w3 = console w
    /\ forall i th, threads self !! i = Some th ->
         exists th' batch p,
           ths' !! i = Some th' /\ new !! i = Some p /\ jobs th !! 0 = Some batch
           /\ same_config th th' /\ job th' = 0%Z
           /\ process th' = Some (length (procs w) + i) /\ finished th' = false
           /\ p_owner p = name th /\ p_argv p = set_job (command th) batch
           /\ p_stdout p = log_loc th.
Proof.
  intros Hfresh.
  destruct (check_in_all_fresh (threads self) (next_instant (next_instant w)) Hfresh)
    as (ths' & w3 & new & Hc & Hp & Hlen & Hlen' & Hk & Hf & Hco & Hlanes).
  exists ths', w3, new. split; [done|]. split.
  { unfold start, bind at 1, perf_counter. unfold bind at 1, datetime_now.
    unfold bind at 1. cbn [threads with_session]. rewrite Hc.
    unfold bind at 1. by destruct progress_bars. }
  repeat (split; [done|]). exact Hlanes.
Qed.

(** X18: with [progress_bars=False], [start] returns as soon as the first
    batch of every lane has been started: there is no polling loop (so
    the call returns whatever the workers do), nothing is killed, no
    report or other file is written and nothing is printed.  Lane [i]
    then runs its first batch in the process started [i]-th, and no later
    batch has been started. *)
Theorem start_without_progress_bars command0 jsons output_directory print_to_stdout
    MAX_PER_JOB w_init self w0 fuel tick0 report_every :
  BlenderThreadManager__init__ command0 jsons output_directory print_to_stdout MAX_PER_JOB
    w_init = Ok self w0 ->
  exists self' w' new,
    start fuel self false tick0 report_every w0 = Ok self' w'
    /\ procs w' = procs w0 ++ new /\ length new = length jsons
    /\ kills w' = kills w0 /\ files w' = files w0 /\ console w' = console w0
    /\ forall i lane,
         jsons !! i = Some lane ->
         exists th batch batches p,
           threads self' !! i = Some th /\ new !! i = Some p
           /\ split_into_batches lane MAX_PER_JOB = inr (batch :: batches)
           /\ job th = 0%Z /\ finished th = false
           /\ process th = Some (length (procs w0) + i)
           /\ p_owner p = pretty i /\ p_argv p = set_job command0 batch.
Proof.
  intros Hinit.
  pose proof (manager_threads_fresh _ _ _ _ _ _ _ _ Hinit) as Hfresh.
  destruct (BlenderThreadManager__init__lanes _ _ _ _ _ _ _ _ Hinit)
    as (_ & Hlen & _ & _ & _ & _ & Hlanes).
  destruct (start_seeds fuel self false tick0 report_every w0 Hfresh)
    as (ths' & w3 & new & _ & Hstart & Hp & Hnew & _ & Hk & Hf & Hc & Hseed).
  cbv zeta in Hstart. unfold ret in Hstart.
  eexists _, _, new. split; [exact Hstart|]. simpl.
  split; [done|]. split; [lia|]. split; [done|]. split; [done|]. split; [done|].
  intros i lane Hlane.
  destruct (lookup_lt_is_Some_2 (threads self) i) as [th0 Hth0].
  { rewrite Hlen. by eapply lookup_lt_Some. }
  destruct (Hlanes i th0 Hth0)
    as (lane' & log & Hlane' & _ & Hb & _ & _ & _ & _ & _ & Hn0 & _ & _ & Hcmd0).
  assert (lane' = lane) as -> by congruence.
  destruct (Hseed i th0 Hth0)
    as (th & batch & p & Hth & Hnp & Hb0 & _ & Hj & Hpr & Hfin & Ho & Ha & _).
  destruct (jobs th0) as [|batch' batches] eqn:Hjobs; [done|].
  simpl in Hb0. injection Hb0 as ->.
  exists th, batch, batches, p. rewrite <- Hn0, <- Hcmd0. by repeat split.
Qed.

(** X19: a manager that prints to the console cannot be run with
    progress bars: once the first batch of every lane has been started,
    the first progress bar asks its lane for the render count, which
    would have to be read from [sys.stdout], and [start] raises.  The
    worker processes have all been started by then, and none of them is
    killed. *)
Theorem start_printing_to_stdout_raises command0 jsons output_directory MAX_PER_JOB
    w_init self w0 fuel tick0 report_every :
  jsons <> [] ->
  BlenderThreadManager__init__ command0 jsons output_directory true MAX_PER_JOB w_init
  = Ok self w0 ->
  exists w' new,
    start fuel self true tick0 report_every w0 = Raise UnsupportedOperation w'
    /\ procs w' = procs w0 ++ new /\ length new = length jsons
    /\ kills w' = kills w0.
Proof.
  intros Hne Hinit.
  pose proof (manager_threads_fresh _ _ _ _ _ _ _ _ Hinit) as Hfresh.
  destruct (BlenderThreadManager__init__lanes _ _ _ _ _ _ _ _ Hinit)
    as (_ & Hlen & _ & _ & _ & _ & Hlanes).
  destruct (start_seeds fuel self true tick0 report_every w0 Hfresh)
    as (ths' & w3 & new & _ & Hstart & Hp & Hnew & _ & Hk & _ & _ & Hseed).
  destruct (threads self) as [|th0 rest] eqn:Hths.
  { destruct jsons; [done|simpl in Hlen; lia]. }
  destruct (Hlanes 0 th0 eq_refl)
    as (_ & _ & _ & _ & _ & _ & _ & _ & _ & _ & _ & Hts & _).
  destruct (Hseed 0 th0 eq_refl)
    as (th & batch & p & Hth & _ & _ & (_&_&_&_&_&Hts'&_) & _ & Hpr & _).
  destruct ths' as [|th1 rest']; [done|]. simpl in Hth. injection Hth as ->.
  cbv zeta in Hstart. unfold bind at 1 in Hstart. simpl in Hstart.
  unfold bind at 1 in Hstart. unfold num_rendered in Hstart.
  rewrite Hpr, Hts', Hts in Hstart. unfold raise in Hstart.
  eexists _, new. split; [exact Hstart|]. simpl.
  split; [done|]. split; [congruence|done].
Qed.

(** ** What a session never does *)

Lemma procs_steps s s' : sys_steps s s' -> exists new, procs s'.2 = procs s.2 ++ new.
Proof.
  induction 1 as [s|s1 s2 s3 Hstep _ (new & IH)]; [exists []; by rewrite app_nil_r|].
  rewrite IH.
  destruct Hstep as [ths w w' (_ & Hp & _)|pre th post w th' w' Hlane]; simpl.
  - exists new. by rewrite Hp.
  - destruct Hlane as [_ _ _ _ (_ & Hp & _)|p _ _ _ Hp _ _ _ _ _ _ _].
    + exists new. by rewrite Hp.
    + exists (p :: new). by rewrite Hp, <- app_assoc.
Qed.

(** X20: [start] only ever adds processes: whatever the manager and the
    world it is run in, and wherever the call stands, every process that
    was in the table is still there unchanged, in its place, and no kill
    has been issued. *)
Theorem start_only_adds_processes fuel self progress_bars tick0 report_every w :
  let w' := world_of (start fuel self progress_bars tick0 report_every w) in
  kills w' = kills w
  /\ (exists new, procs w' = procs w ++ new)
  /\ forall pid p, procs w !! pid = Some p -> procs w' !! pid = Some p.
Proof.
  intros w'.
  assert (exists ths', sys_steps (threads self, w) (ths', w')) as (ths' & Hsteps).
  { pose proof (runs_start fuel self progress_bars tick0 report_every w) as H.
    subst w'. destruct (start _ _ _ _ _ _) as [a w1|e w1|w1]; simpl.
    - destruct H as (? & _ & ?). eauto.
    - destruct H as (? & ?). eauto.
    - destruct H as (_ & ? & ?). eauto. }
  pose proof (kills_steps _ _ Hsteps) as Hk.
  destruct (procs_steps _ _ Hsteps) as (new & Hp). simpl in *.
  split; [done|]. split; [eauto|].
  intros pid p Hl. rewrite Hp. by apply lookup_app_l_Some.
Qed.

(** ** The report before the session *)

Lemma sum_num_rendered_idle ths w :
  Forall (fun th => process th = None) ths -> sum_num_rendered ths w = Ok 0 w.
Proof.
  induction 1 as [|th rest Hp _ IH]; simpl; [done|].
  unfold bind, num_rendered. rewrite Hp. unfold ret at 1. by rewrite IH.
Qed.

(** X21: a manager that has not been started has rendered nothing: its
    render count is 0 and is obtained without a log being read or time
    passing, and [update_report] on it writes an empty report file,
    leaving all other files alone. *)
Theorem report_before_start_is_empty command0 jsons output_directory print_to_stdout
    MAX_PER_JOB w_init self w0 w :
  BlenderThreadManager__init__ command0 jsons output_directory print_to_stdout MAX_PER_JOB
    w_init = Ok self w0 ->
  manager_num_rendered self w = Ok 0 w
  /\ exists w',
       update_report self w = Ok tt w'
       /\ files w' = <[report_loc self := ""]> (files w)
       /\ procs w' = procs w /\ console w' = console w.
Proof.
  intros Hinit.
  assert (forall w1, manager_num_rendered self w1 = Ok 0 w1) as Hzero.
  { intros w1. apply sum_num_rendered_idle.
    eapply Forall_impl; [by eapply manager_threads_fresh|]. by intros th [_ ?]. }
  split; [done|].
  rewrite (update_report_unfold_0 self w _ (Hzero _)). eexists. by repeat split.
Qed.

(** ** The divisions of the report *)

Lemma sum_num_rendered_keeps ths : forall (w : World) n w',
  sum_num_rendered ths w = Ok n w' -> files w' = files w /\ console w' = console w.
Proof.
  induction ths as [|th rest IH]; intros w n w' H; simpl in H.
  - by injection H as _ <-.
  - apply bind_Ok in H as (x & w1 & Hx & H).
    apply bind_Ok in H as (y & w2 & Hy & H). injection H as _ <-.
    destruct (IH _ _ _ Hy) as [-> ->]. unfold num_rendered in Hx.
    destruct (process th); [|by injection Hx as _ <-].
    destruct (to_stdout th); [done|]. destruct (log_loc th); [|done].
    unfold bind, readlines, ret in Hx. by injection Hx as _ <-.
Qed.

Lemma manager_num_rendered_keeps m w n w' :
  manager_num_rendered m w = Ok n w' -> files w' = files w /\ console w' = console w.
Proof. apply sum_num_rendered_keeps. Qed.

Lemma update_report_files m w w' :
  update_report m w = Ok tt w' ->
  exists content,
    files w' = <[report_loc m := content]> (files w)
    /\ procs w' = procs w /\ kills w' = kills w /\ console w' = console w.
Proof.
  intros H.
  pose proof (quiet_update_report m w) as Hq. rewrite H in Hq.
  destruct Hq as (_ & Hp & Hk).
  unfold update_report in H.
  apply bind_Ok in H as (t1 & w1 & Ht1 & H).
  apply bind_Ok in H as (n & w2 & Hn & H).
  apply bind_Ok in H as (report & w3 & Hrep & H).
  unfold perf_counter in Ht1. injection Ht1 as <- <-.
  destruct (manager_num_rendered_keeps _ _ _ _ Hn) as [Hf2 Hc2].
  assert (files w3 = files w /\ console w3 = console w) as [Hf3 Hc3].
  { destruct (0 <? n); [|injection Hrep as _ <-; by split].
    apply bind_Ok in Hrep as (n1 & v1 & Hn1 & Hrep).
    apply bind_Ok in Hrep as (n2 & v2 & Hn2 & Hrep).
    destruct (n2 =? 0); [done|].
    apply bind_Ok in Hrep as (now & v3 & Hnow & Hrep).
    apply bind_Ok in Hrep as (n3 & v4 & Hn3 & Hrep).
    apply bind_Ok in Hrep as (n4 & v5 & Hn4 & Hrep).
    destruct (n4 =? 0); [done|]. destruct (session_start m); [|done].
    injection Hrep as _ <-. unfold datetime_now in Hnow. injection Hnow as _ <-.
    destruct (manager_num_rendered_keeps _ _ _ _ Hn1) as [Hfa Hca].
    destruct (manager_num_rendered_keeps _ _ _ _ Hn2) as [Hfb Hcb].
    destruct (manager_num_rendered_keeps _ _ _ _ Hn3) as [Hfc Hcc].
    destruct (manager_num_rendered_keeps _ _ _ _ Hn4) as [Hfd Hcd].
    simpl in *. split; congruence. }
  unfold write_file in H. injection H as <-. simpl.
  exists (String.concat "" report). rewrite Hf3, Hc3. simpl in Hp, Hk. by repeat split.
Qed.

(** X22: with logs whose marker counts never go down, [update_report] on
    a manager that has been started and whose lanes log to files always
    returns: the render counts it divides by are read after the count
    that its guard found positive, and cannot be 0.  It replaces the
    report file, leaves every other file alone, and starts, kills and
    prints nothing. *)
Theorem update_report_returns_when_logs_grow m w :
  logs_only_grow -> Forall reads_log (threads m) -> session_start m <> None ->
  exists w' content,
    update_report m w = Ok tt w'
    /\ files w' = <[report_loc m := content]> (files w)
    /\ (forall loc, loc <> report_loc m -> files w' !! loc = files w !! loc)
    /\ procs w' = procs w /\ kills w' = kills w /\ console w' = console w.
Proof.
  intros Hgrow Hall Hstart.
  destruct (update_report_returns m w Hgrow Hall Hstart) as (w' & H).
  destruct (update_report_files m w w' H) as (content & Hf & Hp & Hk & Hc).
  exists w', content. split; [done|]. split; [done|]. split; [|done].
  intros loc Hne. rewrite Hf. by apply lookup_insert_ne.
Qed.

(** X23: [update_report] reads the render count afresh for each of its
    divisions.  When the guard reads a positive count but the count read
    for the first division is 0 (the logs were emptied in between), the
    call raises [ZeroDivisionError] before the report file is opened, so
    that the files are all as they were. *)
Theorem update_report_divides_by_a_later_count m w n w1 n1 w2 w3 :
  manager_num_rendered m (next_instant w) = Ok n w1 -> 0 < n ->
  manager_num_rendered m w1 = Ok n1 w2 ->
  manager_num_rendered m w2 = Ok 0 w3 ->
  update_report m w = Raise ZeroDivisionError w3 /\ files w3 = files w.
Proof.
  intros Hn Hpos Hn1 Hn2. split.
  - unfold update_report, bind at 1, perf_counter. unfold bind at 1. rewrite Hn.
    destruct (Nat.ltb_spec 0 n) as [_|]; [|lia].
    unfold bind at 1. unfold bind at 1. rewrite Hn1.
    unfold bind at 1. rewrite Hn2. done.
  - apply manager_num_rendered_files in Hn, Hn1, Hn2. simpl in Hn. congruence.
Qed.

(** ** Success of a lane, and what [start] keeps of the lanes *)

Lemma lane_wf_size th : lane_wf th -> 0 < lane_size th.
Proof.
  intros (Hn & Hpos & Hne & Hsz & _). rewrite <- Hsz. unfold lane_jobs.
  destruct (jobs th) as [|batch rest]; [simpl in *; lia|].
  apply Forall_cons in Hne as [Hb _]. simpl. rewrite length_app.
  destruct batch; [done|simpl; lia].
Qed.

(** X24: a lane that has not started a process is not successful, and
    asking does not read any log: its render count is 0 and it holds at
    least one job.  Once it has a process and logs to a file, [success]
    holds exactly when the number of marker lines of its log equals the
    number of its jobs. *)
Theorem success_needs_every_render th w :
  reachable th ->
  (process th = None -> success th w = Ok false w)
  /\ (forall pid loc,
        process th = Some pid -> to_stdout th = false -> log_loc th = Some loc ->
        success th w
        = Ok (marker_count (log_lines E (instant w) loc) =? BlenderThread__len__ th)
             (next_instant w)).
Proof.
  intros Hr. pose proof (lane_wf_size th (reachable_wf th Hr)) as Hsize. split.
  - intros Hp. unfold success, bind, num_rendered. rewrite Hp. unfold ret. f_equal.
    apply Nat.eqb_neq. lia.
  - intros pid loc Hp Hts Hl. unfold success, bind.
    by rewrite (num_rendered_log th w pid loc Hp Hts Hl).
Qed.

(** X25: [start] keeps the lanes as the constructor made them: when it
    returns, the manager has the same threads, in the same order, each
    with its name, command, batches, size, timeout and log unchanged; so
    the jobs of the lanes are still the lists given to the constructor,
    as numpy stores them, and [len(manager)] is still the total number of
    jobs. *)
Theorem start_keeps_the_lanes command0 jsons output_directory print_to_stdout
    MAX_PER_JOB w_init self w0 fuel progress_bars tick0 report_every self' w' :
  procs w_init = [] ->
  BlenderThreadManager__init__ command0 jsons output_directory print_to_stdout MAX_PER_JOB
    w_init = Ok self w0 ->
  start fuel self progress_bars tick0 report_every w0 = Ok self' w' ->
  Forall2 same_config (threads self) (threads self')
  /\ lane_jobs <$> threads self' = asarray <$> jsons
  /\ BlenderThreadManager__len__ self' = length (concat jsons).
Proof.
  intros Hw Hinit Hstart.
  destruct (Good_initially false _ _ _ _ _ _ _ _ Hw Hinit ltac:(done)) as (HG0 & Hnd & _).
  pose proof (tracks_start false (threads self) Hnd ltac:(done) fuel self progress_bars
                tick0 report_every w0 HG0) as H.
  rewrite Hstart in H. destruct H as (? & -> & Hc & _).
  destruct (manager_lanes_concat _ _ _ _ _ _ _ _ Hinit) as [Hjobs Hsizes].
  assert (lane_jobs <$> threads self' = lane_jobs <$> threads self
          /\ BlenderThread__len__ <$> threads self' = BlenderThread__len__ <$> threads self)
    as [Hj Hs].
  { clear -Hc. induction Hc as [|th0 th ths0 ths (_ & Hjb & _ & Hsz & _) _ [IH1 IH2]];
      [done|].
    rewrite !fmap_cons, IH1, IH2. unfold lane_jobs, BlenderThread__len__.
    by rewrite Hjb, Hsz. }
  split; [done|]. split; [congruence|].
  unfold BlenderThreadManager__len__. rewrite Hs, Hsizes. apply sum_list_lengths.
Qed.


End Coordinator.

Arguments Ok {Invocation A} a w.
Arguments Raise {Invocation A} e w.
Arguments Spin {Invocation A} w.

(** * The properties at concrete sessions

    Jobs are frame numbers, the command object is [tt] and
    [batch_as_argv] binds a batch; the marker line starts with "DONE". *)

(** ** The job splitter *)

Lemma list_split_lanes_witness :
  (0 < 2)%Z
  /\ exists lanes,
       list_split [1; 2; 3; 4; 5] 2 = inr lanes
       /\ length lanes = Z.to_nat 2
       /\ length (concat lanes) = length [1; 2; 3; 4; 5]
       /\ concat lanes = asarray [1; 2; 3; 4; 5]
       /\ (stored_unchanged [1; 2; 3; 4; 5] -> concat lanes = [1; 2; 3; 4; 5])
       /\ (forall a b, a ∈ lanes -> b ∈ lanes -> length a <= length b + 1).
Proof. split; [lia|]. apply (list_split_lanes [1; 2; 3; 4; 5] 2). lia. Defined.

(** A job list that holds a frame number next to a path: numpy makes an
    array of strings of it, and the lane holds the text "1" where the
    list has the number 1.  The lanes do not concatenate to the job list:
    the job 1 is in no lane. *)
Lemma list_split_stores_a_number_as_text :
  list_split [JInt 1; JStr "a.json"] 1 = inr [[JStr "1"; JStr "a.json"]]
  /\ ~ (exists lanes,
          list_split [JInt 1; JStr "a.json"] 1 = inr lanes
          /\ concat lanes = [JInt 1; JStr "a.json"])
  /\ ~ stored_unchanged [JInt 1; JStr "a.json"].
Proof.
  split; [reflexivity|]. split.
  - intros (lanes & Hsplit & Hcat). vm_compute in Hsplit.
    injection Hsplit as <-. discriminate Hcat.
  - intros H. discriminate H.
Qed.

Example list_split_250_jobs_2_lanes :
  match list_split (seq 0 250) 2 with
  | inr lanes => length <$> lanes
  | inl _ => []
  end = [125; 125].
Proof. vm_compute. reflexivity. Qed.

Lemma batches_partition_lane_witness :
  [1; 2; 3] <> [] /\ (0 < 2)%Z
  /\ exists th w',
       BlenderThread__init__ crash_env tt [1; 2; 3] None "0" 100 false 2
         (fresh_world (Invocation := list nat)) = Ok th w'
       /\ njobs th = length (jobs th)
       /\ ((Z.of_nat (njobs th) - 1) * 2 < Z.of_nat (length [1; 2; 3])
           <= Z.of_nat (njobs th) * 2)%Z
       /\ concat (jobs th) = asarray [1; 2; 3]
       /\ (stored_unchanged [1; 2; 3] -> concat (jobs th) = [1; 2; 3])
       /\ (forall b, b ∈ jobs th -> 0 < length b /\ (Z.of_nat (length b) <= 2)%Z)
       /\ (forall a b, a ∈ jobs th -> b ∈ jobs th -> length a <= length b + 1).
Proof.
  split; [discriminate|]. split; [lia|].
  apply (batches_partition_lane crash_env tt [1; 2; 3] None "0" 100 false 2 fresh_world);
    [discriminate|lia].
Defined.

(** A lane of 125 jobs with [MAX_PER_JOB = 100] is cut into batches of 63
    and 62 jobs: the first batch does not hold 100 jobs, and the sizes are
    not 100 and 25.  And a lane that holds a frame number next to a path
    is stored as an array of strings: its one batch holds the text "1"
    where the lane has the number 1, and does not reconstruct the
    lane. *)
Lemma batches_of_125_jobs_by_100 :
  (exists th w',
      BlenderThread__init__ crash_env tt (seq 0 125) None "0" 100 false 100
        (fresh_world (Invocation := list nat)) = Ok th w'
      /\ length <$> jobs th = [63; 62]
      /\ length <$> jobs th <> [100; 25])
  /\ (exists th w',
        BlenderThread__init__ crash_env tt [JInt 1; JStr "a.json"] None "0" 100 false 100
          (fresh_world (Invocation := list nat)) = Ok th w'
        /\ jobs th = [[JStr "1"; JStr "a.json"]]
        /\ concat (jobs th) <> [JInt 1; JStr "a.json"]).
Proof.
  split.
  - eexists _, _. split; [reflexivity|]. split; [reflexivity|discriminate].
  - eexists _, _. split; [reflexivity|]. split; [reflexivity|discriminate].
Qed.

(** ** The manager's constructor *)

Lemma manager_construction_witness :
  (0 < 100)%Z /\ Forall (fun lane => lane <> []) [[1; 2]; [3]]
  /\ exists m w',
       BlenderThreadManager__init__ steady_env tt [[1; 2]; [3]] "out" false 100
         (fresh_world (Invocation := list nat)) = Ok m w'
       /\ length (threads m) = length [[1; 2]; [3]].
Proof.
  assert (Forall (fun lane : list nat => lane <> []) [[1; 2]; [3]]) as Hne.
  { repeat constructor; discriminate. }
  split; [lia|]. split; [exact Hne|].
  apply (manager_construction steady_env tt [[1; 2]; [3]] "out" false 100 fresh_world);
    [lia|exact Hne].
Defined.

(** With no lane and [MAX_PER_JOB = 0], both non-positive, the
    constructor returns a manager; with one lane, [MAX_PER_JOB = 100] and
    the lane empty, both positive, it raises. *)
Lemma construction_without_lanes_succeeds :
  (exists m w',
      BlenderThreadManager__init__ crash_env tt (@nil (list nat)) "out" false 0
        (fresh_world (Invocation := list nat)) = Ok m w'
      /\ num_threads m = 0)
  /\ (exists w',
        BlenderThreadManager__init__ crash_env tt [@nil nat] "out" false 100
          (fresh_world (Invocation := list nat)) = Raise ValueError w').
Proof.
  split.
  - destruct (BlenderThreadManager__init__ crash_env tt (@nil (list nat)) "out" false 0
                (fresh_world (Invocation := list nat))) as [m w'|e w'|w'] eqn:H;
      vm_compute in H; [|discriminate..].
    injection H as <- <-. by eexists _, _.
  - destruct (BlenderThreadManager__init__ crash_env tt [@nil nat] "out" false 100
                (fresh_world (Invocation := list nat))) as [m w'|e w'|w'] eqn:H;
      vm_compute in H; [discriminate| |discriminate].
    injection H as <- <-. by eexists.
Qed.

(** ** The lanes of a session *)

(** Two lanes, the first with two batches: the process table at the end
    of the session, as (born, dies, lane, batch). *)
Example session_of_two_lanes :
  match BlenderThreadManager__init__ steady_env tt [[1; 2]; [3]] "out" false 1
          (fresh_world (Invocation := list nat)) with
  | Ok self w0 =>
      (fun p => (born p, dies p, p_owner p, p_argv p))
        <$> procs (world_of (start batch_as_argv "DONE" steady_env 9 self true (1#2) 15 w0))
  | _ => []
  end
  = [(9, Some 24, "0", [1]); (10, Some 25, "1", [3]); (27, Some 42, "0", [2])]%string.
Proof. vm_compute. reflexivity. Qed.

Lemma lane_runs_one_process_at_a_time_witness :
  exists self w0,
    procs (fresh_world (Invocation := list nat)) = []
    /\ BlenderThreadManager__init__ steady_env tt [[1; 2]; [3]] "out" false 1
         (fresh_world (Invocation := list nat)) = Ok self w0
    /\ forall pid1 pid2 p1 p2,
         let w := world_of (start batch_as_argv "DONE" steady_env 9 self true (1#2) 15 w0) in
         procs w !! pid1 = Some p1 -> procs w !! pid2 = Some p2 ->
         p_owner p1 = p_owner p2 ->
         (pid1 < pid2 -> exists d, dies p1 = Some d /\ d <= born p2)
         /\ (forall t, live_at p1 t -> live_at p2 t -> pid1 = pid2).
Proof.
  destruct (BlenderThreadManager__init__ steady_env tt [[1; 2]; [3]] "out" false 1
              (fresh_world (Invocation := list nat))) as [self w0|e w0|w0] eqn:Hinit;
    [|vm_compute in Hinit; discriminate..].
  exists self, w0. split; [reflexivity|]. split; [reflexivity|].
  intros pid1 pid2 p1 p2.
  apply (lane_runs_one_process_at_a_time batch_as_argv "DONE" steady_env tt
           [[1; 2]; [3]] "out" false 1 fresh_world self w0 9 true (1#2) 15);
    [reflexivity|exact Hinit].
Defined.

(** ** The polling loop *)

(** A session of two lanes whose workers run for 15 instants.  At the
    first test of the loop the worker of lane 0 is running: the loop is
    not left, and goes on with a pass.  Given fuel for more than 48
    passes, [start] does not stay in the loop. *)
Lemma loop_ends_when_no_process_runs_witness :
  exists self w0 ths w1 st,
    BlenderThreadManager__init__ steady_env tt [[1; 2]; [3]] "out" false 1
      (fresh_world (Invocation := list nat)) = Ok self w0
    /\ check_in_all batch_as_argv steady_env (threads self) w0 = Ok ths w1
    /\ st = {| l_self := with_threads ths self; last_report_time := 0;
               l_pbars := []; l_pbar := {| pb_total := 3; pb_n := 0; pb_desc := "" |} |}
    /\ (forall fuel, exists w2,
          quiet_rel w1 w2
          /\ any_running (threads (l_self st)) w1 = Ok true w2
          /\ poll_loop batch_as_argv "DONE" steady_env (S fuel) (1#2) 15 st w1
             = bind (loop_body batch_as_argv "DONE" steady_env (1#2) 15 st)
                    (poll_loop batch_as_argv "DONE" steady_env fuel (1#2) 15) w2)
    /\ (forall fuel,
          sum_list (remaining <$> threads self) * 16 < fuel ->
          forall w',
            start batch_as_argv "DONE" steady_env fuel self true (1#2) 15 w0 <> Spin w').
Proof.
  destruct (BlenderThreadManager__init__ steady_env tt [[1; 2]; [3]] "out" false 1
              (fresh_world (Invocation := list nat))) as [self w0|e w0|w0] eqn:Hinit;
    vm_compute in Hinit; [|discriminate..].
  injection Hinit as <- <-.
  pose proof (loop_ends_when_no_process_runs (Job := nat) batch_as_argv "DONE" steady_env
                (1#2) 15) as (_ & Hruns & _ & _ & _ & Hfuel).
  eexists _, _, _, _, _. split; [reflexivity|]. split; [vm_compute; reflexivity|].
  split; [reflexivity|]. split.
  - intros fuel. eapply (Hruns fuel _ _ _ 0).
    + apply elem_of_cons. left. reflexivity.
    + reflexivity.
    + intros w' (Hi & Hp & _) Hlt. unfold exited. rewrite Hp. simpl in *.
      apply bool_decide_eq_false. lia.
  - intros fuel Hlt. apply (Hfuel 15).
    + intros pid. exists 15. split; [reflexivity|lia].
    + reflexivity.
    + exact Hlt.
Defined.

(** A worker that exits as soon as it is started: the loop is left at its
    first test, and [start] returns with the lane's [finished] flag still
    unset. *)
Lemma loop_left_with_unfinished_lane :
  exists self w0 self' w',
    BlenderThreadManager__init__ crash_env tt [[1]] "out" false 100
      (fresh_world (Invocation := list nat)) = Ok self w0
    /\ start batch_as_argv "DONE" crash_env 5 self true (1#2) 15 w0 = Ok self' w'
    /\ finished <$> threads self' = [false].
Proof.
  destruct (BlenderThreadManager__init__ crash_env tt [[1]] "out" false 100
              (fresh_world (Invocation := list nat))) as [self w0|e w0|w0] eqn:Hinit;
    [|vm_compute in Hinit; discriminate..].
  destruct (start batch_as_argv "DONE" crash_env 5 self true (1#2) 15 w0)
    as [self' w'|e w'|w'] eqn:Hstart.
  - exists self, w0, self', w'. split; [done|]. split; [done|].
    vm_compute in Hinit. injection Hinit as <- <-.
    vm_compute in Hstart. by injection Hstart as <- <-.
  - vm_compute in Hinit. injection Hinit as <- <-. vm_compute in Hstart. discriminate.
  - vm_compute in Hinit. injection Hinit as <- <-. vm_compute in Hstart. discriminate.
Qed.

(** The first lane's worker exits between the lane's [check_in] and the
    loop test, the second lane's worker just before the test: the loop is
    left, and the first lane's second batch is never started. *)
Example loop_left_before_the_last_batch :
  match BlenderThreadManager__init__ slow_env tt [[1; 2]; [3]] "out" false 1
          (fresh_world (Invocation := list nat)) with
  | Ok self w0 =>
      match start batch_as_argv "DONE" slow_env 9 self true (1#2) 15 w0 with
      | Ok self' w' =>
          ((fun th => (job th, njobs th, finished th)) <$> threads self',
           p_argv <$> procs w')
      | _ => ([], [])
      end
  | _ => ([], [])
  end
  = ([(0%Z, 2, false); (1%Z, 1, true)], [[1]; [3]]).
Proof. vm_compute. reflexivity. Qed.

(** A log that is emptied while [update_report] reads it: the report of
    the first pass divides by a count of 0, and the exception ends the
    loop, and [start], while the lane's worker is still running. *)
Example loop_cut_short_by_an_exception :
  exists self w0 w',
    BlenderThreadManager__init__ late_emptied_log_env tt [[1; 2]] "out" false 2
      (fresh_world (Invocation := list nat)) = Ok self w0
    /\ start batch_as_argv "DONE" late_emptied_log_env 9 self true (1#2) 0 w0
       = Raise ZeroDivisionError w'
    /\ (fun p => (born p, dies p)) <$> procs w' = [(7, Some 27)]
    /\ instant w' = 23
    /\ exited w' 0 = false.
Proof.
  eexists _, _, _. split; [vm_compute; reflexivity|].
  split; [vm_compute; reflexivity|]. by repeat split.
Qed.

(** C2: a lane whose worker never exits and never logs a completed
    render.  After 30 passes of the loop, more than 100 seconds into the
    session, the stall has been detected (the console shows the
    placeholder message), but the worker has not been killed, no second
    process has been started for its batch, and [start] is still in its
    loop; and however long the loop is given, [start] does not return. *)
Lemma stalled_lane_is_left_hanging :
  exists self w0 w',
    BlenderThreadManager__init__ stalled_env tt [[1]] "out" false 100
      (fresh_world (Invocation := list nat)) = Ok self w0
    /\ start batch_as_argv "DONE" stalled_env 30 self true (1#2) 15 w0 = Spin w'
    /\ (100 < perf stalled_env (instant w'))%Q
    /\ head (console w') = Some "CANNOT DEAL WITH FAILED THREADS YET"%string
    /\ kills w' = []
    /\ (fun p => (p_owner p, p_argv p, dies p)) <$> procs w' = [("0"%string, [1], None)]
    /\ (forall fuel self' w'',
           start batch_as_argv "DONE" stalled_env fuel self true (1#2) 15 w0
           <> Ok self' w'').
Proof.
  destruct (BlenderThreadManager__init__ stalled_env tt [[1]] "out" false 100
              (fresh_world (Invocation := list nat))) as [self w0|e w0|w0] eqn:Hinit;
    [|vm_compute in Hinit; discriminate..].
  destruct (start batch_as_argv "DONE" stalled_env 30 self true (1#2) 15 w0)
    as [self' w'|e w'|w'] eqn:Hstart.
  - vm_compute in Hinit. injection Hinit as <- <-. vm_compute in Hstart. discriminate.
  - vm_compute in Hinit. injection Hinit as <- <-. vm_compute in Hstart. discriminate.
  - exists self, w0, w'. split; [done|]. split; [done|].
    vm_compute in Hinit. injection Hinit as <- <-.
    vm_compute in Hstart. injection Hstart as <-.
    repeat split; try reflexivity.
    intros fuel. apply start_never_returns.
    intros ths w1 Hseed. vm_compute in Hseed. injection Hseed as <- <-.
    eexists _, 0, _. split; [apply elem_of_cons; left; reflexivity|].
    repeat split; reflexivity.
Qed.

(** ** The lane state machine *)

Lemma finished_is_absorbing_witness :
  exists th w,
    @reachable nat unit (list nat) nat_numpy batch_as_argv "DONE" crash_env th
    /\ finished th = true
    /\ exists th' w',
         check_in batch_as_argv crash_env th w = Ok th' w'
         /\ finished th' = true /\ process th' = process th
         /\ procs w' = procs w /\ kills w' = kills w
         /\ @reachable nat unit (list nat) nat_numpy batch_as_argv "DONE" crash_env th'.
Proof.
  destruct (BlenderThread__init__ crash_env tt [1] None "0" 100 false 100
              (fresh_world (Invocation := list nat))) as [th0 w0|e w0|w0] eqn:H0;
    [|vm_compute in H0; discriminate..].
  destruct (check_in batch_as_argv crash_env th0 w0) as [th1 w1|e w1|w1] eqn:H1;
    [|vm_compute in H0; injection H0 as <- <-; vm_compute in H1; discriminate..].
  destruct (check_in batch_as_argv crash_env th1 w1) as [th2 w2|e w2|w2] eqn:H2;
    [|vm_compute in H0; injection H0 as <- <-; vm_compute in H1; injection H1 as <- <-;
      vm_compute in H2; discriminate..].
  assert (@reachable nat unit (list nat) nat_numpy batch_as_argv "DONE" crash_env th2) as Hreach.
  { eapply reach_check_in; [|exact H2]. eapply reach_check_in; [|exact H1].
    eapply reach_init. exact H0. }
  assert (finished th2 = true) as Hfin.
  { vm_compute in H0. injection H0 as <- <-. vm_compute in H1. injection H1 as <- <-.
    vm_compute in H2. by injection H2 as <- <-. }
  exists th2, w2. split; [exact Hreach|]. split; [exact Hfin|].
  apply (finished_is_absorbing batch_as_argv "DONE" crash_env th2 w2 Hreach Hfin).
Defined.

(** ** The stall detector *)

(** C5: a lane built when the clock reads 0, with the default timeout
    of 100 seconds, whose worker is running and has logged nothing.
    Polled when the clock reads 99 the lane is not flagged.  Polled when
    the clock reads 100 -- the time without progress equals the timeout
    and does not exceed it -- [check_status] already returns false. *)
Lemma stall_flagged_when_the_timeout_is_reached :
  exists th0 w0 th w1,
    BlenderThread__init__ stalled_env tt [1] (Some "log_00.txt"%string) "0" 100 false 100
      (fresh_world (Invocation := list nat)) = Ok th0 w0
    /\ check_in batch_as_argv stalled_env th0 w0 = Ok th w1
    /\ timeout th = 100%Q /\ timer th = 0%Q /\ prev_n th = 0 /\ process th = Some 0
    /\ let at_instant (i : nat) : @World (list nat) :=
         {| instant := i; procs := procs w1; kills := kills w1; files := files w1;
            console := console w1 |} in
       is_running th (at_instant 99) = Ok true (at_instant 100)
       /\ num_rendered "DONE" stalled_env th (at_instant 99) = Ok 0 (at_instant 100)
       /\ perf stalled_env 99 = 99%Q /\ perf stalled_env 100 = 100%Q
       /\ check_status "DONE" stalled_env th (at_instant 98) = Ok (true, th) (at_instant 100)
       /\ check_status "DONE" stalled_env th (at_instant 99) = Ok (false, th) (at_instant 101)
       /\ float_sub (perf stalled_env 100) (timer th) = 100%Q
       /\ ~ (timeout th < float_sub (perf stalled_env 100) (timer th))%Q.
Proof.
  destruct (BlenderThread__init__ stalled_env tt [1] (Some "log_00.txt"%string) "0" 100
              false 100 (fresh_world (Invocation := list nat)))
    as [th0 w0|e w0|w0] eqn:H0;
    vm_compute in H0; [|discriminate..].
  injection H0 as <- <-.
  eexists _, _, _, _. split; [reflexivity|]. split; [vm_compute; reflexivity|].
  repeat split; try (vm_compute; reflexivity).
  vm_compute. intros H. discriminate H.
Qed.

(** The same lane with the float clock readings 0.1, at construction, and
    100.1, at the poll: the two readings are less than 100 seconds apart,
    their float difference is 100.0, and the lane is flagged. *)
Example stall_flagged_by_a_rounded_difference :
  exists th0 w0 th w1,
    BlenderThread__init__ rounding_env tt [1] (Some "log_00.txt"%string) "0" 100 false 100
      (fresh_world (Invocation := list nat)) = Ok th0 w0
    /\ check_in batch_as_argv rounding_env th0 w0 = Ok th w1
    /\ timer th = float_0_1
    /\ perf rounding_env (S (instant w1)) = float_100_1
    /\ Q_of_float (float_of_Q float_0_1) = float_0_1
    /\ Q_of_float (float_of_Q float_100_1) = float_100_1
    /\ (perf rounding_env (S (instant w1)) - timer th < 100)%Q
    /\ float_sub (perf rounding_env (S (instant w1))) (timer th) = 100%Q
    /\ check_status "DONE" rounding_env th w1
       = Ok (false, th) (next_instant (next_instant w1)).
Proof.
  destruct (BlenderThread__init__ rounding_env tt [1] (Some "log_00.txt"%string) "0" 100
              false 100 (fresh_world (Invocation := list nat)))
    as [th0 w0|e w0|w0] eqn:H0;
    vm_compute in H0; [|discriminate..].
  injection H0 as <- <-.
  eexists _, _, _, _. split; [reflexivity|]. split; [vm_compute; reflexivity|].
  repeat split; vm_compute; reflexivity.
Qed.

(** ** The report *)

(** Before the session has started the count is 0 and the report file is
    emptied; once the workers of both lanes have logged three renders
    each, the count is 6 and the report is written. *)
Lemma report_written_on_every_update_witness :
  (exists self w0,
      BlenderThreadManager__init__ steady_env tt [[1; 2]; [3]] "out" false 100
        (fresh_world (Invocation := list nat)) = Ok self w0
      /\ manager_num_rendered "DONE" steady_env self (next_instant w0)
         = Ok 0 (next_instant w0)
      /\ exists w',
           update_report "DONE" steady_env self w0 = Ok tt w'
           /\ files w' = <[report_loc self := ""%string]> (files w0))
  /\ (exists self w0 m w w2 w',
        BlenderThreadManager__init__ busy_env tt [[1; 2]; [3]] "out" false 1
          (fresh_world (Invocation := list nat)) = Ok self w0
        /\ start batch_as_argv "DONE" busy_env 0 self false (1#2) 15 w0 = Ok m w
        /\ manager_num_rendered "DONE" busy_env m (next_instant w) = Ok 6 w2
        /\ 0 < 6
        /\ update_report "DONE" busy_env m w = Ok tt w'
        /\ files w' !! report_loc m
           = Some ("Number of images rendered: 6" +:+ nl +:+ "Total session quota: 3" +:+ nl
                   +:+ "Time elapsed: " +:+ nl +:+ "Time per render (s): " +:+ nl +:+ nl
                   +:+ "Session start: " +:+ nl +:+ "Estimated End: ")
        /\ exists n1 w3 n2 w4 n3 w5 n4 w6 started,
             manager_num_rendered "DONE" busy_env m w2 = Ok n1 w3
             /\ manager_num_rendered "DONE" busy_env m w3 = Ok n2 w4
             /\ manager_num_rendered "DONE" busy_env m (next_instant w4) = Ok n3 w5
             /\ manager_num_rendered "DONE" busy_env m w5 = Ok n4 w6
             /\ n2 <> 0 /\ n4 <> 0 /\ session_start m = Some started
             /\ let elapsed := float_sub (perf busy_env (instant w)) (t0 m) in
                let s_remaining :=
                  float_mul
                    (inject_Z (Z.of_nat (BlenderThreadManager__len__ m) - Z.of_nat n1))
                    (float_div elapsed (inject_Z (Z.of_nat n2))) in
                let eta := (wall busy_env (instant w4) + s_remaining)%Q in
                files w'
                = <[report_loc m :=
                      ("Number of images rendered: " +:+ pretty n3 +:+ nl)
                      +:+ ("Total session quota: "
                           +:+ pretty (BlenderThreadManager__len__ m) +:+ nl)
                      +:+ ("Time elapsed: " +:+ str_timedelta busy_env elapsed +:+ nl)
                      +:+ ("Time per render (s): "
                           +:+ str_2f busy_env (float_div elapsed (inject_Z (Z.of_nat n4)))
                           +:+ nl +:+ nl)
                      +:+ ("Session start: "
                           +:+ strftime busy_env "%I:%M %p %d/%m/%y" started +:+ nl
                           +:+ "Estimated End: "
                           +:+ strftime busy_env "%I:%M %p %d/%m/%y" eta)]>
                    (files w)).
Proof.
  split.
  - destruct (BlenderThreadManager__init__ steady_env tt [[1; 2]; [3]] "out" false 100
                (fresh_world (Invocation := list nat))) as [self w0|e w0|w0] eqn:Hinit;
      vm_compute in Hinit; [|discriminate..].
    injection Hinit as <- <-. eexists _, _. split; [reflexivity|].
    split; [reflexivity|].
    eapply (proj1 (report_written_on_every_update
                     (Job := nat) (Command := unit) (Invocation := list nat)
                     "DONE" steady_env _ _)).
    reflexivity.
  - eexists _, _, _, _, _, _. split; [vm_compute; reflexivity|].
    split; [vm_compute; reflexivity|]. split; [vm_compute; reflexivity|].
    split; [lia|]. split; [vm_compute; reflexivity|]. split; [vm_compute; reflexivity|].
    eapply (proj1 (proj2 (report_written_on_every_update
                            (Job := nat) (Command := unit) (Invocation := list nat)
                            "DONE" busy_env _ _)) 6);
      [vm_compute; reflexivity|lia|vm_compute; reflexivity].
Defined.

(** A session started in a directory that still holds [report_01.txt]
    takes that file as its report; the first update, made while nothing
    has been rendered, empties it. *)
Lemma empty_report_replaces_old_report :
  let w_old : @World (list nat) :=
    {| instant := 0; procs := []; kills := [];
       files := {[ "out/report_01.txt"%string := "Number of images rendered: 7"%string ]};
       console := [] |} in
  exists self w0 w',
    BlenderThreadManager__init__ reused_dir_env tt [[1]] "out" false 100 w_old = Ok self w0
    /\ report_loc self = "out/report_01.txt"%string
    /\ files w0 !! report_loc self = Some "Number of images rendered: 7"%string
    /\ manager_num_rendered "DONE" reused_dir_env self (next_instant w0)
       = Ok 0 (next_instant w0)
    /\ update_report "DONE" reused_dir_env self w0 = Ok tt w'
    /\ files w' !! report_loc self = Some ""%string.
Proof.
  intros w_old.
  destruct (BlenderThreadManager__init__ reused_dir_env tt [[1]] "out" false 100 w_old)
    as [self w0|e w0|w0] eqn:Hinit;
    [|vm_compute in Hinit; discriminate..].
  destruct (update_report "DONE" reused_dir_env self w0) as [[] w'|e w'|w'] eqn:Hrep.
  - exists self, w0, w'. split; [done|].
    vm_compute in Hinit. injection Hinit as <- <-.
    vm_compute in Hrep. injection Hrep as <-.
    repeat split; reflexivity.
  - vm_compute in Hinit. injection Hinit as <- <-. vm_compute in Hrep. discriminate.
  - vm_compute in Hinit. injection Hinit as <- <-. vm_compute in Hrep. discriminate.
Qed.

(** With renders logged, the report is written. *)
Example report_with_renders :
  match BlenderThreadManager__init__ busy_env tt [[1; 2; 4]; [3; 5; 6]] "out" false 3
          (fresh_world (Invocation := list nat)) with
  | Ok self w0 =>
      match start batch_as_argv "DONE" busy_env 9 self true (1#2) 15 w0 with
      | Ok self' w' => files w' !! report_loc self'
      | _ => None
      end
  | _ => None
  end
  = Some ("Number of images rendered: 6" +:+ nl +:+ "Total session quota: 6" +:+ nl
          +:+ "Time elapsed: " +:+ nl +:+ "Time per render (s): " +:+ nl +:+ nl
          +:+ "Session start: " +:+ nl +:+ "Estimated End: ").
Proof. vm_compute. reflexivity. Qed.
(** * The further properties at concrete sessions *)

(** ** The job splitter and the constructors *)

Lemma list_split_lane_contents_witness :
  (0 < 3)%Z /\ 1 < Z.to_nat 3
  /\ exists lanes lane,
       list_split [1; 2; 3; 4; 5; 6; 7] 3 = inr lanes
       /\ lanes !! 1 = Some lane
       /\ lane = [4; 5]
       /\ (stored_unchanged [1; 2; 3; 4; 5; 6; 7] -> lane = [4; 5])
       /\ length lane = 2.
Proof.
  split; [lia|]. split; [simpl; lia|].
  exact (list_split_lane_contents [1; 2; 3; 4; 5; 6; 7] 3 1 ltac:(lia) ltac:(simpl; lia)).
Defined.

Lemma list_split_more_lanes_than_jobs_witness :
  (Z.of_nat (length [1; 2]) < 4)%Z
  /\ list_split [1; 2] 4 = inr [[1]; [2]; []; []]
  /\ (stored_unchanged [1; 2] -> list_split [1; 2] 4 = inr [[1]; [2]; []; []]).
Proof.
  split; [simpl; lia|].
  exact (list_split_more_lanes_than_jobs [1; 2] 4 ltac:(simpl; lia)).
Defined.

Lemma manager_lanes_witness :
  exists m w',
    BlenderThreadManager__init__ steady_env tt [[1; 2]; [3]] "out" false 1
      (fresh_world (Invocation := list nat)) = Ok m w'
    /\ length (threads m) = 2
    /\ (forall i th, threads m !! i = Some th ->
          name th = pretty i
          /\ (exists lane, [[1; 2]; [3]] !! i = Some lane /\ concat (jobs th) = asarray lane)
          /\ BlenderThread__len__ th = length (concat (jobs th))
          /\ process th = None /\ finished th = false
          /\ log_loc th = log_locs m !! i)
    /\ lane_jobs <$> threads m = [[1; 2]; [3]]
    /\ (Forall stored_unchanged [[1; 2]; [3]] -> lane_jobs <$> threads m = [[1; 2]; [3]])
    /\ BlenderThreadManager__len__ m = 3.
Proof.
  destruct (BlenderThreadManager__init__ steady_env tt [[1; 2]; [3]] "out" false 1
              (fresh_world (Invocation := list nat))) as [m w'|e w'|w'] eqn:Hinit;
    [|vm_compute in Hinit; discriminate..].
  exists m, w'. split; [reflexivity|].
  apply (manager_lanes steady_env tt [[1; 2]; [3]] "out" false 1 fresh_world m w' Hinit).
Defined.

Lemma session_from_list_split_witness :
  (0 < 2 <= Z.of_nat (length [1; 2; 3; 4; 5]))%Z /\ (0 < 2)%Z
  /\ exists lanes m w',
       list_split [1; 2; 3; 4; 5] 2 = inr lanes
       /\ BlenderThreadManager__init__ steady_env tt lanes "out" false 2
            (fresh_world (Invocation := list nat)) = Ok m w'
       /\ length (threads m) = 2
       /\ concat lanes = [1; 2; 3; 4; 5]
       /\ concat (lane_jobs <$> threads m) = concat (asarray <$> lanes)
       /\ (stored_unchanged [1; 2; 3; 4; 5] -> Forall stored_unchanged lanes ->
           concat (lane_jobs <$> threads m) = [1; 2; 3; 4; 5])
       /\ BlenderThreadManager__len__ m = 5.
Proof.
  split; [simpl; lia|]. split; [lia|].
  exact (session_from_list_split steady_env tt [1; 2; 3; 4; 5] 2 "out" false 2 fresh_world
           ltac:(simpl; lia) ltac:(lia)).
Defined.

Lemma more_lanes_than_jobs_raises_witness :
  (Z.of_nat (length [1; 2]) < 3)%Z /\ (0 < 100)%Z
  /\ exists lanes w',
       list_split [1; 2] 3 = inr lanes
       /\ [] ∈ lanes
       /\ BlenderThreadManager__init__ steady_env tt lanes "out" false 100
            (fresh_world (Invocation := list nat)) = Raise ValueError w'
       /\ procs w' = procs (fresh_world (Invocation := list nat)).
Proof.
  split; [simpl; lia|]. split; [lia|].
  apply (more_lanes_than_jobs_raises steady_env tt [1; 2] 3 "out" false 100 fresh_world);
    [simpl; lia|lia].
Defined.

(** ** One lane: constructed for three jobs in batches of at most two,
    then checked in once *)

Lemma lane_invariant_witness :
  exists th,
    @reachable nat unit (list nat) nat_numpy batch_as_argv "DONE" steady_env th
    /\ njobs th = length (jobs th) /\ 0 < njobs th
    /\ (forall batch, batch ∈ jobs th -> batch <> [])
    /\ BlenderThread__len__ th = length (lane_jobs th)
    /\ (-1 <= job th)%Z
    /\ (process th = None <-> job th = (-1)%Z)
    /\ (finished th = true <-> (Z.of_nat (njobs th) <= job th)%Z)
    /\ (to_stdout th = true -> log_loc th = None).
Proof.
  destruct (BlenderThread__init__ steady_env tt [1; 2; 3] (Some "log") "0" 100 false 2
              (fresh_world (Invocation := list nat))) as [th0 w0|e w0|w0] eqn:H0;
    [|vm_compute in H0; discriminate..].
  destruct (check_in batch_as_argv steady_env th0 w0) as [th1 w1|e w1|w1] eqn:H1;
    [|vm_compute in H0; injection H0 as <- <-; vm_compute in H1; discriminate..].
  assert (@reachable nat unit (list nat) nat_numpy batch_as_argv "DONE" steady_env th1) as Hreach.
  { eapply reach_check_in; [|exact H1]. eapply reach_init. exact H0. }
  exists th1. split; [exact Hreach|].
  apply (lane_invariant batch_as_argv "DONE" steady_env th1 Hreach).
Defined.

Lemma check_in_never_raises_witness :
  exists th w,
    @reachable nat unit (list nat) nat_numpy batch_as_argv "DONE" steady_env th
    /\ exists th' w',
         check_in batch_as_argv steady_env th w = Ok th' w'
         /\ @reachable nat unit (list nat) nat_numpy batch_as_argv "DONE" steady_env th'
         /\ same_config th th'
         /\ kills w' = kills w /\ files w' = files w /\ console w' = console w.
Proof.
  destruct (BlenderThread__init__ steady_env tt [1; 2; 3] (Some "log") "0" 100 false 2
              (fresh_world (Invocation := list nat))) as [th0 w0|e w0|w0] eqn:H0;
    [|vm_compute in H0; discriminate..].
  assert (@reachable nat unit (list nat) nat_numpy batch_as_argv "DONE" steady_env th0) as Hreach.
  { eapply reach_init. exact H0. }
  exists th0, w0. split; [exact Hreach|].
  apply (check_in_never_raises batch_as_argv "DONE" steady_env th0 w0 Hreach).
Defined.

Lemma check_in_starts_the_next_batch_witness :
  exists th w,
    @reachable nat unit (list nat) nat_numpy batch_as_argv "DONE" steady_env th
    /\ (forall pid, process th = Some pid -> exited w pid = true)
    /\ (job th + 1 < Z.of_nat (njobs th))%Z
    /\ exists th' w' batch p,
         check_in batch_as_argv steady_env th w = Ok th' w'
         /\ jobs th !! Z.to_nat (job th + 1) = Some batch
         /\ job th' = (job th + 1)%Z
         /\ procs w' = procs w ++ [p]
         /\ process th' = Some (length (procs w))
         /\ p_owner p = name th
         /\ p_argv p = batch_as_argv (command th) batch
         /\ p_stdout p = log_loc th
         /\ instant w <= born p < instant w'
         /\ finished th' = false.
Proof.
  destruct (BlenderThread__init__ steady_env tt [1; 2; 3] (Some "log") "0" 100 false 2
              (fresh_world (Invocation := list nat))) as [th0 w0|e w0|w0] eqn:H0;
    [|vm_compute in H0; discriminate..].
  assert (@reachable nat unit (list nat) nat_numpy batch_as_argv "DONE" steady_env th0) as Hreach.
  { eapply reach_init. exact H0. }
  assert (forall pid, process th0 = Some pid -> exited w0 pid = true) as Hex.
  { vm_compute in H0. injection H0 as <- <-. intros pid Hp. discriminate Hp. }
  assert (job th0 + 1 < Z.of_nat (njobs th0))%Z as Hmore.
  { vm_compute in H0. injection H0 as <- <-. reflexivity. }
  exists th0, w0. split; [exact Hreach|]. split; [exact Hex|]. split; [exact Hmore|].
  apply (check_in_starts_the_next_batch batch_as_argv "DONE" steady_env th0 w0
           Hreach Hex Hmore).
Defined.

Lemma terminate_moves_the_lane_on_witness :
  exists th w,
    @reachable nat unit (list nat) nat_numpy batch_as_argv "DONE" steady_env th
    /\ process th = Some 0
    /\ (process th = None -> terminate steady_env th w = Raise AttributeError w)
    /\ (forall pid, process th = Some pid ->
          exists w1,
            terminate steady_env th w = Ok tt w1
            /\ instant w1 = S (instant w)
            /\ kills w1 = kills w ++ [pid]
            /\ length (procs w1) = length (procs w)
            /\ (forall pid', pid' <> pid -> procs w1 !! pid' = procs w !! pid')
            /\ forall w2, quiet_rel w1 w2 ->
                 (instant w1 + kill_lag steady_env pid <= instant w2 ->
                  exited w2 pid = true)
                 /\ (forall p, procs w !! pid = Some p ->
                       instant w2 < instant w1 + kill_lag steady_env pid ->
                       exited w2 pid
                       = match dies p with
                         | Some d => bool_decide (d <= instant w2)
                         | None => false
                         end)
                 /\ is_running th w2 = Ok (negb (exited w2 pid)) (next_instant w2)
                 /\ exists th' w3,
                      check_in batch_as_argv steady_env th w2 = Ok th' w3
                      /\ (exited w2 pid = false -> th' = th /\ procs w3 = procs w2)
                      /\ (exited w2 pid = true -> job th' = (job th + 1)%Z)).
Proof.
  destruct (BlenderThread__init__ steady_env tt [1; 2; 3] (Some "log") "0" 100 false 2
              (fresh_world (Invocation := list nat))) as [th0 w0|e w0|w0] eqn:H0;
    [|vm_compute in H0; discriminate..].
  destruct (check_in batch_as_argv steady_env th0 w0) as [th1 w1|e w1|w1] eqn:H1;
    [|vm_compute in H0; injection H0 as <- <-; vm_compute in H1; discriminate..].
  assert (@reachable nat unit (list nat) nat_numpy batch_as_argv "DONE" steady_env th1) as Hreach.
  { eapply reach_check_in; [|exact H1]. eapply reach_init. exact H0. }
  assert (process th1 = Some 0) as Hp.
  { vm_compute in H0. injection H0 as <- <-. vm_compute in H1. by injection H1 as <- <-. }
  exists th1, w1. split; [exact Hreach|]. split; [exact Hp|].
  apply (terminate_moves_the_lane_on batch_as_argv "DONE" steady_env th1 w1 Hreach).
Defined.

(** A lane whose worker has just been started is told to terminate.  Right
    after the call the worker is still seen running, and a [check_in]
    leaves the lane on its first batch; two instants later the worker has
    exited, and a [check_in] starts the second batch. *)
Example kill_is_seen_later :
  exists th0 w0 th w w1,
    BlenderThread__init__ steady_env tt [1; 2; 3] (Some "log"%string) "0" 100 false 2
      (fresh_world (Invocation := list nat)) = Ok th0 w0
    /\ check_in batch_as_argv steady_env th0 w0 = Ok th w
    /\ terminate steady_env th w = Ok tt w1
    /\ kills w1 = [0]
    /\ is_running th w1 = Ok true (next_instant w1)
    /\ check_in batch_as_argv steady_env th w1 = Ok th (next_instant w1)
    /\ is_running th (next_instant (next_instant w1))
       = Ok false (next_instant (next_instant (next_instant w1)))
    /\ exists th' w',
         check_in batch_as_argv steady_env th (next_instant (next_instant w1)) = Ok th' w'
         /\ job th = 0%Z /\ job th' = 1%Z
         /\ p_argv <$> procs w' = [[1; 2]; [3]].
Proof.
  eexists _, _, _, _, _. split; [vm_compute; reflexivity|].
  split; [vm_compute; reflexivity|]. split; [vm_compute; reflexivity|].
  split; [reflexivity|]. split; [vm_compute; reflexivity|].
  split; [vm_compute; reflexivity|]. split; [vm_compute; reflexivity|].
  eexists _, _. split; [vm_compute; reflexivity|]. by repeat split.
Qed.

Lemma complete_outcome_witness :
  exists th (w : @World (list nat)),
    @reachable nat unit (list nat) nat_numpy batch_as_argv "DONE" steady_env th
    /\ match complete th w with
       | Ok r w' =>
           r <> Some false
           /\ (r = None <-> exists pid, process th = Some pid /\ exited w pid = false)
           /\ (r = Some true -> to_stdout th = false)
           /\ quiet_rel w w'
       | Raise e w' =>
           e = AttributeError /\ log_loc th = None
           /\ (forall pid, process th = Some pid -> exited w pid = true)
       | Spin _ => False
       end
       /\ (to_stdout th = true ->
           (forall pid, process th = Some pid -> exited w pid = true) ->
           exists w', complete th w = Raise AttributeError w').
Proof.
  destruct (BlenderThread__init__ steady_env tt [1; 2; 3] (Some "log") "0" 100 true 2
              (fresh_world (Invocation := list nat))) as [th0 w0|e w0|w0] eqn:H0;
    [|vm_compute in H0; discriminate..].
  assert (@reachable nat unit (list nat) nat_numpy batch_as_argv "DONE" steady_env th0) as Hreach.
  { eapply reach_init. exact H0. }
  exists th0, w0. split; [exact Hreach|].
  apply (complete_outcome batch_as_argv "DONE" steady_env th0 w0 Hreach).
Defined.

Lemma check_status_frame_witness :
  exists (th : @BlenderThread nat unit) (w : @World (list nat)) b th' w',
    check_status "DONE" busy_env th w = Ok (b, th') w'
    /\ prev_n th = 0 /\ prev_n th' = 3
    /\ same_config th th' /\ process th' = process th /\ job th' = job th
    /\ finished th' = finished th
    /\ prev_n th <= prev_n th' /\ (prev_n th' = prev_n th -> th' = th)
    /\ (b = false -> th' = th)
    /\ procs w' = procs w /\ kills w' = kills w /\ files w' = files w
    /\ console w' = console w.
Proof.
  destruct (BlenderThread__init__ busy_env tt [1; 2; 3] (Some "log") "0" 100 false 2
              (fresh_world (Invocation := list nat))) as [th0 w0|e w0|w0] eqn:H0;
    [|vm_compute in H0; discriminate..].
  destruct (check_in batch_as_argv busy_env th0 w0) as [th1 w1|e w1|w1] eqn:H1;
    [|vm_compute in H0; injection H0 as <- <-; vm_compute in H1; discriminate..].
  destruct (check_status "DONE" busy_env th1 w1) as [[b th2] w2|e w2|w2] eqn:H2;
    [|vm_compute in H0; injection H0 as <- <-; vm_compute in H1; injection H1 as <- <-;
      vm_compute in H2; discriminate..].
  exists th1, w1, b, th2, w2. split; [exact H2|].
  split.
  { vm_compute in H0. injection H0 as <- <-. vm_compute in H1. by injection H1 as <- <-. }
  split.
  { vm_compute in H0. injection H0 as <- <-. vm_compute in H1. injection H1 as <- <-.
    vm_compute in H2. by injection H2 as <- <- <-. }
  apply (check_status_frame "DONE" busy_env th1 w1 b th2 w2 H2).
Defined.

(** ** One session: two lanes, of two batches and of one *)

Lemma batches_started_in_order_witness :
  exists self w0,
    procs (fresh_world (Invocation := list nat)) = []
    /\ BlenderThreadManager__init__ steady_env tt [[1; 2]; [3]] "out" false 1
         (fresh_world (Invocation := list nat)) = Ok self w0
    /\ let w := world_of (start batch_as_argv "DONE" steady_env 9 self true (1#2) 15 w0) in
       (forall p, p ∈ procs w ->
                  exists i, i < length [[1; 2]; [3]] /\ p_owner p = pretty i)
       /\ forall i lane batches,
            [[1; 2]; [3]] !! i = Some lane ->
            split_into_batches lane 1 = inr batches ->
            exists k,
              p_argv <$> procs_of w (pretty i) = batch_as_argv tt <$> take k batches
              /\ forall p, p ∈ procs_of w (pretty i) ->
                   p_stdout p = if false then None else log_locs self !! i.
Proof.
  destruct (BlenderThreadManager__init__ steady_env tt [[1; 2]; [3]] "out" false 1
              (fresh_world (Invocation := list nat))) as [self w0|e w0|w0] eqn:Hinit;
    [|vm_compute in Hinit; discriminate..].
  exists self, w0. split; [reflexivity|]. split; [reflexivity|].
  apply (batches_started_in_order batch_as_argv "DONE" steady_env tt [[1; 2]; [3]] "out"
           false 1 fresh_world self w0 9 true (1#2) 15); [reflexivity|exact Hinit].
Defined.

Lemma finished_lane_ran_every_batch_witness :
  exists self w0 self' w',
    procs (fresh_world (Invocation := list nat)) = []
    /\ BlenderThreadManager__init__ steady_env tt [[1; 2]; [3]] "out" false 1
         (fresh_world (Invocation := list nat)) = Ok self w0
    /\ start batch_as_argv "DONE" steady_env 9 self true (1#2) 15 w0 = Ok self' w'
    /\ (finished <$> threads self') = [true; true]
    /\ forall i th,
         threads self' !! i = Some th -> finished th = true ->
         (exists lane, [[1; 2]; [3]] !! i = Some lane /\ lane_jobs th = asarray lane)
         /\ p_argv <$> procs_of w' (pretty i) = batch_as_argv tt <$> jobs th
         /\ forall p, p ∈ procs_of w' (pretty i) ->
              exists d, dies p = Some d /\ d <= instant w'.
Proof.
  destruct (BlenderThreadManager__init__ steady_env tt [[1; 2]; [3]] "out" false 1
              (fresh_world (Invocation := list nat))) as [self w0|e w0|w0] eqn:Hinit;
    [|vm_compute in Hinit; discriminate..].
  destruct (start batch_as_argv "DONE" steady_env 9 self true (1#2) 15 w0)
    as [self' w'|e w'|w'] eqn:Hstart;
    [|vm_compute in Hinit; injection Hinit as <- <-; vm_compute in Hstart; discriminate..].
  exists self, w0, self', w'. split; [reflexivity|]. split; [reflexivity|].
  split; [exact Hstart|]. split.
  { vm_compute in Hinit. injection Hinit as <- <-. vm_compute in Hstart.
    by injection Hstart as <- <-. }
  apply (finished_lane_ran_every_batch batch_as_argv "DONE" steady_env tt [[1; 2]; [3]]
           "out" false 1 fresh_world self w0 9 true (1#2) 15 self' w');
    [reflexivity|exact Hinit|exact Hstart].
Defined.

Lemma start_returns_witness :
  exists self w0,
    (forall pid, exists d, proc_life steady_env pid = Some d /\ d <= 15)
    /\ logs_only_grow "DONE" steady_env
    /\ BlenderThreadManager__init__ steady_env tt [[1; 2]; [3]] "out" false 1
         (fresh_world (Invocation := list nat)) = Ok self w0
    /\ sum_list (remaining <$> threads self) * 16 < 49
    /\ exists self' w',
         start batch_as_argv "DONE" steady_env 49 self true (1#2) 15 w0 = Ok self' w'.
Proof.
  destruct (BlenderThreadManager__init__ steady_env tt [[1; 2]; [3]] "out" false 1
              (fresh_world (Invocation := list nat))) as [self w0|e w0|w0] eqn:Hinit;
    [|vm_compute in Hinit; discriminate..].
  assert (forall pid, exists d, proc_life steady_env pid = Some d /\ d <= 15) as Hexit.
  { intros pid. exists 15. split; [reflexivity|lia]. }
  assert (logs_only_grow "DONE" steady_env) as Hgrow.
  { intros loc i j _. reflexivity. }
  assert (sum_list (remaining <$> threads self) * 16 < 49) as Hfuel.
  { vm_compute in Hinit. injection Hinit as <- <-. vm_compute. lia. }
  exists self, w0. split; [exact Hexit|]. split; [exact Hgrow|].
  split; [reflexivity|]. split; [exact Hfuel|].
  apply (start_returns batch_as_argv "DONE" steady_env 15 tt [[1; 2]; [3]] "out" 1
           fresh_world self w0 49 true (1#2) 15 Hexit Hgrow);
    [reflexivity|exact Hinit|exact Hfuel].
Defined.

Lemma start_without_progress_bars_witness :
  exists self w0,
    BlenderThreadManager__init__ steady_env tt [[1; 2]; [3]] "out" false 1
      (fresh_world (Invocation := list nat)) = Ok self w0
    /\ exists self' w' new,
         start batch_as_argv "DONE" steady_env 0 self false (1#2) 15 w0 = Ok self' w'
         /\ procs w' = procs w0 ++ new /\ length new = length [[1; 2]; [3]]
         /\ kills w' = kills w0 /\ files w' = files w0 /\ console w' = console w0
         /\ forall i lane,
              [[1; 2]; [3]] !! i = Some lane ->
              exists th batch batches p,
                threads self' !! i = Some th /\ new !! i = Some p
                /\ split_into_batches lane 1 = inr (batch :: batches)
                /\ job th = 0%Z /\ finished th = false
                /\ process th = Some (length (procs w0) + i)
                /\ p_owner p = pretty i /\ p_argv p = batch_as_argv tt batch.
Proof.
  destruct (BlenderThreadManager__init__ steady_env tt [[1; 2]; [3]] "out" false 1
              (fresh_world (Invocation := list nat))) as [self w0|e w0|w0] eqn:Hinit;
    [|vm_compute in Hinit; discriminate..].
  exists self, w0. split; [reflexivity|].
  apply (start_without_progress_bars batch_as_argv "DONE" steady_env tt [[1; 2]; [3]]
           "out" false 1 fresh_world self w0 0 (1#2) 15 Hinit).
Defined.

Lemma start_printing_to_stdout_raises_witness :
  exists self w0,
    [[1; 2]; [3]] <> []
    /\ BlenderThreadManager__init__ steady_env tt [[1; 2]; [3]] "out" true 1
         (fresh_world (Invocation := list nat)) = Ok self w0
    /\ exists w' new,
         start batch_as_argv "DONE" steady_env 9 self true (1#2) 15 w0
         = Raise UnsupportedOperation w'
         /\ procs w' = procs w0 ++ new /\ length new = length [[1; 2]; [3]]
         /\ kills w' = kills w0.
Proof.
  destruct (BlenderThreadManager__init__ steady_env tt [[1; 2]; [3]] "out" true 1
              (fresh_world (Invocation := list nat))) as [self w0|e w0|w0] eqn:Hinit;
    [|vm_compute in Hinit; discriminate..].
  exists self, w0. split; [discriminate|]. split; [reflexivity|].
  apply (start_printing_to_stdout_raises batch_as_argv "DONE" steady_env tt [[1; 2]; [3]]
           "out" 1 fresh_world self w0 9 (1#2) 15); [discriminate|exact Hinit].
Defined.

Lemma report_before_start_is_empty_witness :
  exists self w0,
    BlenderThreadManager__init__ steady_env tt [[1; 2]; [3]] "out" false 1
      (fresh_world (Invocation := list nat)) = Ok self w0
    /\ manager_num_rendered "DONE" steady_env self w0 = Ok 0 w0
    /\ exists w',
         update_report "DONE" steady_env self w0 = Ok tt w'
         /\ files w' = <[report_loc self := ""]> (files w0)
         /\ procs w' = procs w0 /\ console w' = console w0.
Proof.
  destruct (BlenderThreadManager__init__ steady_env tt [[1; 2]; [3]] "out" false 1
              (fresh_world (Invocation := list nat))) as [self w0|e w0|w0] eqn:Hinit;
    [|vm_compute in Hinit; discriminate..].
  exists self, w0. split; [reflexivity|].
  apply (report_before_start_is_empty "DONE" steady_env tt [[1; 2]; [3]] "out" false 1
           fresh_world self w0 w0 Hinit).
Defined.

(** ** The report *)

Lemma update_report_returns_when_logs_grow_witness :
  exists self w0 self' w,
    BlenderThreadManager__init__ busy_env tt [[1; 2]; [3]] "out" false 1
      (fresh_world (Invocation := list nat)) = Ok self w0
    /\ start batch_as_argv "DONE" busy_env 0 self false (1#2) 15 w0 = Ok self' w
    /\ logs_only_grow "DONE" busy_env
    /\ Forall reads_log (threads self') /\ session_start self' <> None
    /\ manager_num_rendered "DONE" busy_env self' w = Ok 6 (next_instant (next_instant w))
    /\ exists w' content,
         update_report "DONE" busy_env self' w = Ok tt w'
         /\ files w' = <[report_loc self' := content]> (files w)
         /\ (forall loc, loc <> report_loc self' -> files w' !! loc = files w !! loc)
         /\ procs w' = procs w /\ kills w' = kills w /\ console w' = console w.
Proof.
  destruct (BlenderThreadManager__init__ busy_env tt [[1; 2]; [3]] "out" false 1
              (fresh_world (Invocation := list nat))) as [self w0|e w0|w0] eqn:Hinit;
    [|vm_compute in Hinit; discriminate..].
  destruct (start batch_as_argv "DONE" busy_env 0 self false (1#2) 15 w0)
    as [self' w|e w|w] eqn:Hstart;
    [|vm_compute in Hinit; injection Hinit as <- <-; vm_compute in Hstart; discriminate..].
  assert (logs_only_grow "DONE" busy_env) as Hgrow.
  { intros loc i j _. reflexivity. }
  assert (Forall reads_log (threads self')) as Hall.
  { vm_compute in Hinit. injection Hinit as <- <-. vm_compute in Hstart.
    injection Hstart as <- <-. simpl. repeat constructor; discriminate. }
  assert (session_start self' <> None) as Hsession.
  { vm_compute in Hinit. injection Hinit as <- <-. vm_compute in Hstart.
    injection Hstart as <- <-. discriminate. }
  exists self, w0, self', w. split; [reflexivity|]. split; [exact Hstart|].
  split; [exact Hgrow|]. split; [exact Hall|]. split; [exact Hsession|].
  split.
  { vm_compute in Hinit. injection Hinit as <- <-. vm_compute in Hstart.
    injection Hstart as <- <-. reflexivity. }
  apply (update_report_returns_when_logs_grow "DONE" busy_env self' w Hgrow Hall Hsession).
Defined.

Lemma update_report_divides_by_a_later_count_witness :
  exists self w0 self' w w1 w2 w3,
    BlenderThreadManager__init__ emptied_log_env tt [[1]] "out" false 1
      (fresh_world (Invocation := list nat)) = Ok self w0
    /\ start batch_as_argv "DONE" emptied_log_env 0 self false (1#2) 15 w0 = Ok self' w
    /\ manager_num_rendered "DONE" emptied_log_env self' (next_instant w) = Ok 1 w1
    /\ 0 < 1
    /\ manager_num_rendered "DONE" emptied_log_env self' w1 = Ok 1 w2
    /\ manager_num_rendered "DONE" emptied_log_env self' w2 = Ok 0 w3
    /\ update_report "DONE" emptied_log_env self' w = Raise ZeroDivisionError w3
    /\ files w3 = files w.
Proof.
  destruct (BlenderThreadManager__init__ emptied_log_env tt [[1]] "out" false 1
              (fresh_world (Invocation := list nat))) as [self w0|e w0|w0] eqn:Hinit;
    [|vm_compute in Hinit; discriminate..].
  destruct (start batch_as_argv "DONE" emptied_log_env 0 self false (1#2) 15 w0)
    as [self' w|e w|w] eqn:Hstart;
    [|vm_compute in Hinit; injection Hinit as <- <-; vm_compute in Hstart; discriminate..].
  assert (manager_num_rendered "DONE" emptied_log_env self' (next_instant w)
          = Ok 1 (next_instant (next_instant w))) as H1.
  { vm_compute in Hinit. injection Hinit as <- <-. vm_compute in Hstart.
    injection Hstart as <- <-. reflexivity. }
  assert (manager_num_rendered "DONE" emptied_log_env self' (next_instant (next_instant w))
          = Ok 1 (next_instant (next_instant (next_instant w)))) as H2.
  { vm_compute in Hinit. injection Hinit as <- <-. vm_compute in Hstart.
    injection Hstart as <- <-. reflexivity. }
  assert (manager_num_rendered "DONE" emptied_log_env self'
            (next_instant (next_instant (next_instant w)))
          = Ok 0 (next_instant (next_instant (next_instant (next_instant w))))) as H3.
  { vm_compute in Hinit. injection Hinit as <- <-. vm_compute in Hstart.
    injection Hstart as <- <-. reflexivity. }
  exists self, w0, self', w. eexists _, _, _.
  split; [reflexivity|]. split; [exact Hstart|].
  split; [exact H1|]. split; [lia|]. split; [exact H2|]. split; [exact H3|].
  apply (update_report_divides_by_a_later_count "DONE" emptied_log_env self' w 1 _ 1 _ _
           H1 ltac:(lia) H2 H3).
Defined.

(** ** Success of a lane, and the lanes after the session *)

Lemma success_needs_every_render_witness :
  exists th (w : @World (list nat)),
    @reachable nat unit (list nat) nat_numpy batch_as_argv "DONE" busy_env th
    /\ process th = None
    /\ (process th = None -> success "DONE" busy_env th w = Ok false w)
    /\ (forall pid loc,
          process th = Some pid -> to_stdout th = false -> log_loc th = Some loc ->
          success "DONE" busy_env th w
          = Ok (marker_count "DONE" (log_lines busy_env (instant w) loc)
                =? BlenderThread__len__ th)
               (next_instant w)).
Proof.
  destruct (BlenderThread__init__ busy_env tt [1; 2; 3] (Some "log") "0" 100 false 2
              (fresh_world (Invocation := list nat))) as [th0 w0|e w0|w0] eqn:H0;
    [|vm_compute in H0; discriminate..].
  assert (@reachable nat unit (list nat) nat_numpy batch_as_argv "DONE" busy_env th0) as Hreach.
  { eapply reach_init. exact H0. }
  assert (process th0 = None) as Hp.
  { vm_compute in H0. by injection H0 as <- <-. }
  exists th0, w0. split; [exact Hreach|]. split; [exact Hp|].
  apply (success_needs_every_render batch_as_argv "DONE" busy_env th0 w0 Hreach).
Defined.

Lemma start_keeps_the_lanes_witness :
  exists self w0 self' w',
    procs (fresh_world (Invocation := list nat)) = []
    /\ BlenderThreadManager__init__ steady_env tt [[1; 2]; [3]] "out" false 1
         (fresh_world (Invocation := list nat)) = Ok self w0
    /\ start batch_as_argv "DONE" steady_env 9 self true (1#2) 15 w0 = Ok self' w'
    /\ Forall2 same_config (threads self) (threads self')
    /\ lane_jobs <$> threads self' = [[1; 2]; [3]]
    /\ BlenderThreadManager__len__ self' = length (concat [[1; 2]; [3]]).
Proof.
  destruct (BlenderThreadManager__init__ steady_env tt [[1; 2]; [3]] "out" false 1
              (fresh_world (Invocation := list nat))) as [self w0|e w0|w0] eqn:Hinit;
    [|vm_compute in Hinit; discriminate..].
  destruct (start batch_as_argv "DONE" steady_env 9 self true (1#2) 15 w0)
    as [self' w'|e w'|w'] eqn:Hstart;
    [|vm_compute in Hinit; injection Hinit as <- <-; vm_compute in Hstart; discriminate..].
  exists self, w0, self', w'. split; [reflexivity|]. split; [reflexivity|].
  split; [exact Hstart|].
  exact (start_keeps_the_lanes batch_as_argv "DONE" steady_env tt [[1; 2]; [3]] "out"
           false 1 fresh_world self w0 9 true (1#2) 15 self' w' eq_refl Hinit Hstart).
Defined.
